(** * Kickstarter creator pipeline: the storage layer

    A shallow embedding of the SQL of the repository, the properties the
    specification states about it and properties of the code beside them
    (what a call writes, the declared constraints, the views):
    - the tables [creators], [projects], [creator_outreach],
      [firecrawl_blocked_domains] and [pipeline_state] with their
      constraints and triggers;
    - the PL/pgSQL functions [upsert_creators_bulk], [upsert_projects_bulk]
      and [sync_creator_outreach_bulk] of supabase/functions/bulk_upsert.sql;
    - [firecrawl_block_domain];
    - the two definitions of [customer_contacts_view], with the
      [creator_websites] column;
    - the views of supabase/tables/creator_outreach.sql, the view
      [vw_projects_with_creators] and the counts of [get_home_stats].

    Conventions of the embedding:
    - a nullable SQL value is an [option], SQL NULL is [None], and a
      boolean SQL expression is an [option bool] (three-valued logic);
    - a table with a primary key is a finite map from the key to its row;
    - a statement that can raise returns an [outcome];
    - a PL/pgSQL body runs in a state-and-exception monad over the
      database and the local variables of the function;
    - [CURRENT_TIMESTAMP] is an argument [now] of every function: it is the
      start time of the transaction, the same all through a call;
    - the counters of the bulk functions are [INTEGER]s; a [jsonb] array
      holds fewer than 2^28 elements, so they cannot overflow and are kept
      as unbounded integers;
    - when a row violates several constraints at once, the condition
      reported is the first in the order the checks are written here; no
      statement below depends on which one it is.

    The file has three parts: the embedding of the source, the vocabulary
    of the statements, and the properties with their proofs; worked
    examples on a reference engine close it. *)

From Stdlib Require Import Ascii.
From stdpp Require Import gmap strings list fin_maps.

Open Scope Z_scope.

(** ** SQL expressions *)

Module Sql.

(** [COALESCE(x, y)] *)
Definition coalesce {A : Type} (x y : option A) : option A :=
  match x with
  | Some _ => x
  | None => y
  end.

(** [NULLIF(x, y)] *)
Definition nullif {A : Type} `{EqDecision A} (x : option A) (y : A) : option A :=
  match x with
  | Some v => if decide (v = y) then None else Some v
  | None => None
  end.

(** [NOT b] *)
Definition not3 (b : option bool) : option bool := negb <$> b.

(** [a OR b] *)
Definition or3 (a b : option bool) : option bool :=
  match a, b with
  | Some true, _ => Some true
  | _, Some true => Some true
  | Some false, Some false => Some false
  | _, _ => None
  end.

(** [a AND b] *)
Definition and3 (a b : option bool) : option bool :=
  match a, b with
  | Some false, _ => Some false
  | _, Some false => Some false
  | Some true, Some true => Some true
  | _, _ => None
  end.

(** [x = y] *)
Definition eq3 {A : Type} `{EqDecision A} (x y : option A) : option bool :=
  match x, y with
  | Some a, Some b => Some (bool_decide (a = b))
  | _, _ => None
  end.

(** [x != y], [x <> y] *)
Definition neq3 {A : Type} `{EqDecision A} (x y : option A) : option bool :=
  not3 (eq3 x y).

(** [x IS NULL] and [x IS NOT NULL] are never unknown. *)
Definition is_null {A : Type} (x : option A) : option bool :=
  match x with
  | Some _ => Some false
  | None => Some true
  end.

Definition is_not_null {A : Type} (x : option A) : option bool :=
  not3 (is_null x).

(** The test of an [IF], a [WHEN] or a [WHERE]: unknown counts as false. *)
Definition holds (b : option bool) : bool :=
  match b with
  | Some true => true
  | _ => false
  end.

End Sql.

Import Sql.

(** ** JSONB values *)

(** A number keeps its text, which is all the code ever reads of it.
    The fields of an object have pairwise distinct keys, as [jsonb]
    stores them. *)
#[local] Set Warnings "-register-all".
Inductive jsonb : Type :=
| JNull
| JString (s : string)
| JNumber (literal : string)
| JBoolean (b : bool)
| JArray (elements : list jsonb)
| JObject (fields : list (string * jsonb)).

Fixpoint assoc (k : string) (fields : list (string * jsonb)) : option jsonb :=
  match fields with
  | [] => None
  | (k', v) :: rest => if decide (k' = k) then Some v else assoc k rest
  end.

(** [j -> 'k']: SQL NULL unless [j] is an object with that key. *)
Definition jget (j : jsonb) (k : string) : option jsonb :=
  match j with
  | JObject fields => assoc k fields
  | _ => None
  end.

(** [jsonb_typeof] *)
Definition jsonb_typeof (v : jsonb) : string :=
  match v with
  | JNull => "null"
  | JString _ => "string"
  | JNumber _ => "number"
  | JBoolean _ => "boolean"
  | JArray _ => "array"
  | JObject _ => "object"
  end.

(** ** Conditions raised by a statement *)

Inductive sqlerr : Type :=
| invalid_text_representation (type input : string)
| not_null_violation (table column : string)
| unique_violation (constraint : string)
| foreign_key_violation (table constraint : string)
| check_violation (table constraint : string)
| string_data_right_truncation (type : string)
| numeric_value_out_of_range (type : string)
| invalid_parameter_value (message : string).

Inductive outcome (A : Type) : Type :=
| Ok (a : A)
| Raise (e : sqlerr).

Arguments Ok {A} a.
Arguments Raise {A} e.

#[global] Instance outcome_ret : MRet outcome := fun _ a => Ok a.
#[global] Instance outcome_bind : MBind outcome := fun _ _ f m =>
  match m with
  | Ok a => f a
  | Raise e => Raise e
  end.

(** ** What the database engine provides

    The conversions from text are PostgreSQL's own; the functions of the
    repository only call them.  They are taken as an interface: a
    conversion answers [None] when the engine raises on that text. *)
Class Engine : Type := {
  timestamptz : Type;
  numeric : Type;
  (** text of an array or an object, as [->>] returns it *)
  jsonb_out : jsonb -> string;
  (** [text::BIGINT], [text::INTEGER], [text::BOOLEAN], [text::NUMERIC],
      [text::TIMESTAMP WITH TIME ZONE] *)
  to_bigint : string -> option Z;
  to_integer : string -> option Z;
  to_boolean : string -> option bool;
  to_numeric : string -> option numeric;
  to_timestamptz : string -> option timestamptz;
  (** assignment of a [NUMERIC] to a [DECIMAL(15, 2)] column *)
  to_decimal_15_2 : numeric -> option numeric;
}.

Section Values.
Context `{Engine}.

(** Text of a JSON value, as [->>] and [jsonb_array_elements_text]
    return it: SQL NULL for a JSON null, the bare string for a string. *)
Definition jtext (v : jsonb) : option string :=
  match v with
  | JNull => None
  | JString s => Some s
  | JNumber literal => Some literal
  | JBoolean b => Some (if b then "true" else "false")
  | JArray _ | JObject _ => Some (jsonb_out v)
  end.

(** [j ->> 'k'] *)
Definition jget_text (j : jsonb) (k : string) : option string :=
  jget j k ≫= jtext.

(** [x::T] for a text [x]: the cast of NULL is NULL. *)
Definition cast {T : Type} (type : string) (conv : string -> option T)
    (x : option string) : outcome (option T) :=
  match x with
  | None => Ok None
  | Some s =>
      match conv s with
      | Some v => Ok (Some v)
      | None => Raise (invalid_text_representation type s)
      end
  end.

(** The length of a text, as [VARCHAR(n)] measures it: its number of
    characters.  A text is kept in UTF-8, where a character is a byte that
    is not a continuation byte ([10xxxxxx]) together with the continuation
    bytes that follow it. *)
Definition continues (c : ascii) : bool :=
  match c with
  | Ascii _ _ _ _ _ _ b6 b7 => b7 && negb b6
  end.

Fixpoint char_length (s : string) : nat :=
  match s with
  | EmptyString => 0%nat
  | String c rest => ((if continues c then 0 else 1) + char_length rest)%nat
  end.

(** The first [n] characters of a text, and the text after them. *)
Fixpoint left_chars (n : nat) (s : string) : string :=
  match s with
  | EmptyString => EmptyString
  | String c rest =>
      if continues c then String c (left_chars n rest)
      else
        match n with
        | O => EmptyString
        | S m => String c (left_chars m rest)
        end
  end.

Fixpoint drop_chars (n : nat) (s : string) : string :=
  match s with
  | EmptyString => EmptyString
  | String c rest =>
      if continues c then drop_chars n rest
      else
        match n with
        | O => s
        | S m => drop_chars m rest
        end
  end.

(** Assignment to a [VARCHAR(n)] column: a text of more than [n]
    characters raises unless the excess is all spaces, which are then cut
    off. *)
Definition all_spaces (s : string) : bool :=
  forallb (fun c => bool_decide (c = " "%char)) (String.list_ascii_of_string s).

Definition varchar (n : nat) (x : option string) : outcome (option string) :=
  match x with
  | None => Ok None
  | Some s =>
      if decide (char_length s <= n)%nat then Ok (Some s)
      else if all_spaces (drop_chars n s)
      then Ok (Some (left_chars n s))
      else Raise (string_data_right_truncation "character varying")
  end.

(** Assignment to a [DECIMAL(15, 2)] column. *)
Definition decimal_15_2 (x : option numeric) : outcome (option numeric) :=
  match x with
  | None => Ok None
  | Some v =>
      match to_decimal_15_2 v with
      | Some v' => Ok (Some v')
      | None => Raise (numeric_value_out_of_range "numeric")
      end
  end.

(** [jsonb_array_elements(data)]: the elements of an array, no row for
    SQL NULL (the function is strict), an error for anything else. *)
Definition jsonb_array_elements (data : option jsonb) : outcome (list jsonb) :=
  match data with
  | None => Ok []
  | Some (JArray elements) => Ok elements
  | Some (JObject _) =>
      Raise (invalid_parameter_value "cannot extract elements from an object")
  | Some _ =>
      Raise (invalid_parameter_value "cannot extract elements from a scalar")
  end.

(** [jsonb_array_elements_text] on a value known to be an array. *)
Definition jsonb_array_elements_text (v : jsonb) : list (option string) :=
  match v with
  | JArray elements => jtext <$> elements
  | _ => []
  end.

End Values.

Notation "j ->> k" := (jget_text j k) (at level 35, no associativity).

(** ** Table [creators] (supabase/tables/creators.sql) *)

Module Creators.
Section Table.
Context `{Engine}.

Record row : Type := {
  id : option Z;                       (* BIGINT PRIMARY KEY *)
  slug : option string;                (* VARCHAR(255) *)
  name : option string;                (* VARCHAR(500) NOT NULL *)
  is_registered : option bool;
  is_email_verified : option bool;
  chosen_currency : option string;     (* VARCHAR(3) *)
  is_superbacker : option bool;
  has_admin_message_badge : option bool;
  ppo_has_action : option bool;
  backing_action_count : option Z;
  avatar : option jsonb;
  urls : option jsonb;
  websites : option jsonb;
  data_hash : option string;
  created_at : option timestamptz;
  updated_at : option timestamptz;
}.

(** [idx_creators_slug]: unique on [slug] among the rows whose slug is
    not null.  [slug_taken t key s] says that a row other than [key]
    already carries the slug [s]. *)
Definition slug_taken (t : gmap Z row) (key : Z) (s : option string) : bool :=
  match s with
  | None => false
  | Some v => bool_decide (map_Exists (fun k r => k ≠ key ∧ slug r = Some v) t)
  end.

(** The constraints a new or updated row is checked against, in the order
    the engine checks them: [NOT NULL] columns, then the unique index. *)
Definition check_not_null (r : row) : outcome Z :=
  match id r, name r with
  | None, _ => Raise (not_null_violation "creators" "id")
  | Some _, None => Raise (not_null_violation "creators" "name")
  | Some key, Some _ => Ok key
  end.

Definition check_unique (t : gmap Z row) (key : Z) (r : row) : outcome unit :=
  if slug_taken t key (slug r) then Raise (unique_violation "idx_creators_slug")
  else Ok ().

(** Trigger [set_creators_updated_at], [BEFORE UPDATE FOR EACH ROW]. *)
Definition update_updated_at_column (now : timestamptz) (r : row) : row :=
  {| id := id r; slug := slug r; name := name r;
     is_registered := is_registered r;
     is_email_verified := is_email_verified r;
     chosen_currency := chosen_currency r;
     is_superbacker := is_superbacker r;
     has_admin_message_badge := has_admin_message_badge r;
     ppo_has_action := ppo_has_action r;
     backing_action_count := backing_action_count r;
     avatar := avatar r; urls := urls r; websites := websites r;
     data_hash := data_hash r;
     created_at := created_at r;
     updated_at := Some now |}.

End Table.
End Creators.

(** ** Table [projects]

    Only the columns [upsert_projects_bulk] writes are kept, with the two
    time stamps; the remaining columns take their defaults on insert and
    no function of this development writes them. *)

Module Projects.
Section Table.
Context `{Engine}.

Record row : Type := {
  id : option Z;                          (* BIGINT PRIMARY KEY *)
  slug : option string;                   (* VARCHAR(500) NOT NULL *)
  name : option string;                   (* VARCHAR(1000) NOT NULL *)
  blurb : option string;
  goal : option numeric;                  (* DECIMAL(15, 2) NOT NULL *)
  pledged : option numeric;               (* DECIMAL(15, 2) *)
  backers_count : option Z;
  currency : option string;               (* VARCHAR(3) NOT NULL *)
  country : option string;                (* VARCHAR(2) NOT NULL *)
  country_displayable_name : option string; (* VARCHAR(255) *)
  location : option jsonb;
  state : option string;                  (* VARCHAR(50) NOT NULL *)
  state_changed_at : option timestamptz;
  created_at_ks : option timestamptz;     (* NOT NULL *)
  launched_at : option timestamptz;
  deadline : option timestamptz;
  creator_id : option Z;                  (* BIGINT NOT NULL, fk_creator *)
  photo : option jsonb;
  category : option jsonb;
  profile : option jsonb;
  urls : option jsonb;
  data_hash : option string;
  created_at : option timestamptz;
  updated_at : option timestamptz;
}.

(** [idx_projects_slug]: unique on [slug]. *)
Definition slug_taken (t : gmap Z row) (key : Z) (s : option string) : bool :=
  match s with
  | None => false
  | Some v => bool_decide (map_Exists (fun k r => k ≠ key ∧ slug r = Some v) t)
  end.

Definition require {A : Type} (column : string) (x : option A) : outcome unit :=
  match x with
  | Some _ => Ok ()
  | None => Raise (not_null_violation "projects" column)
  end.

(** [NOT NULL] columns, in the order of the table. *)
Definition check_not_null (r : row) : outcome Z :=
  match id r with
  | None => Raise (not_null_violation "projects" "id")
  | Some key =>
      require "slug" (slug r);;
      require "name" (name r);;
      require "goal" (goal r);;
      require "currency" (currency r);;
      require "country" (country r);;
      require "state" (state r);;
      require "created_at_ks" (created_at_ks r);;
      require "creator_id" (creator_id r);;
      Ok key
  end.

Definition check_unique (t : gmap Z row) (key : Z) (r : row) : outcome unit :=
  if slug_taken t key (slug r) then Raise (unique_violation "idx_projects_slug")
  else Ok ().

(** [fk_creator]: [creator_id] references [creators(id)]. *)
Definition check_foreign_key (creators : gmap Z Creators.row) (r : row) : outcome unit :=
  match creator_id r with
  | None => Ok ()
  | Some c =>
      if bool_decide (is_Some (creators !! c)) then Ok ()
      else Raise (foreign_key_violation "projects" "fk_creator")
  end.

(** Trigger [set_projects_updated_at], [BEFORE UPDATE FOR EACH ROW]. *)
Definition update_updated_at_column (now : timestamptz) (r : row) : row :=
  {| id := id r; slug := slug r; name := name r; blurb := blurb r;
     goal := goal r; pledged := pledged r; backers_count := backers_count r;
     currency := currency r; country := country r;
     country_displayable_name := country_displayable_name r;
     location := location r; state := state r;
     state_changed_at := state_changed_at r;
     created_at_ks := created_at_ks r; launched_at := launched_at r;
     deadline := deadline r; creator_id := creator_id r;
     photo := photo r; category := category r; profile := profile r;
     urls := urls r; data_hash := data_hash r;
     created_at := created_at r;
     updated_at := Some now |}.

End Table.
End Projects.

(** ** Table [creator_outreach] (supabase/tables/creator_outreach.sql) *)

Module Outreach.
Section Table.
Context `{Engine}.

Record row : Type := {
  creator_id : option Z;               (* BIGINT PRIMARY KEY, fk_creator_outreach *)
  outreach_status : option string;     (* VARCHAR(50) NOT NULL DEFAULT 'not_contacted' *)
  has_instagram : option bool;
  has_facebook : option bool;
  has_twitter : option bool;
  has_youtube : option bool;
  has_tiktok : option bool;
  has_linkedin : option bool;
  has_patreon : option bool;
  has_discord : option bool;
  has_twitch : option bool;
  has_bluesky : option bool;
  has_other_website : option bool;
  email : option string;
  email_source_url : option string;
  has_contact_form : option bool;
  contact_form_url : option string;
  last_contact_check_at : option timestamptz;
  contact_status : option string;      (* VARCHAR(50) DEFAULT 'not_checked' *)
  contact_error : option string;
  contact_attempts : option Z;         (* INTEGER DEFAULT 0 *)
  site_hash : option string;
  instagram_url : option string;
  facebook_url : option string;
  twitter_url : option string;
  linkedin_url : option string;
  youtube_url : option string;
  tiktok_url : option string;
  other_urls : option (list (option string));
  first_contacted_at : option timestamptz;
  last_contacted_at : option timestamptz;
  response_received_at : option timestamptz;
  contact_method : option string;      (* VARCHAR(50) *)
  notes : option string;
  tags : option (list (option string));
  priority : option Z;                 (* INTEGER DEFAULT 0 *)
  follow_up_date : option Z;           (* DATE *)
  created_at : option timestamptz;
  updated_at : option timestamptz;
}.

(** The generated column
    [has_any_contact BOOLEAN GENERATED ALWAYS AS
       ((email IS NOT NULL) OR COALESCE(has_contact_form, false)) STORED]:
    the engine recomputes it from the row at every insert and update, so it
    is a function of the row. *)
Definition has_any_contact (r : row) : option bool :=
  or3 (is_not_null (email r)) (coalesce (has_contact_form r) (Some false)).

Definition check_not_null (r : row) : outcome Z :=
  match creator_id r, outreach_status r with
  | None, _ => Raise (not_null_violation "creator_outreach" "creator_id")
  | Some _, None => Raise (not_null_violation "creator_outreach" "outreach_status")
  | Some key, Some _ => Ok key
  end.

(** [fk_creator_outreach]: [creator_id] references [creators(id)]. *)
Definition check_foreign_key (creators : gmap Z Creators.row) (key : Z) : outcome unit :=
  if bool_decide (is_Some (creators !! key)) then Ok ()
  else Raise (foreign_key_violation "creator_outreach" "fk_creator_outreach").

(** Trigger [set_creator_outreach_updated_at], [BEFORE UPDATE FOR EACH ROW]. *)
Definition update_updated_at_column (now : timestamptz) (r : row) : row :=
  {| creator_id := creator_id r; outreach_status := outreach_status r;
     has_instagram := has_instagram r; has_facebook := has_facebook r;
     has_twitter := has_twitter r; has_youtube := has_youtube r;
     has_tiktok := has_tiktok r; has_linkedin := has_linkedin r;
     has_patreon := has_patreon r; has_discord := has_discord r;
     has_twitch := has_twitch r; has_bluesky := has_bluesky r;
     has_other_website := has_other_website r;
     email := email r; email_source_url := email_source_url r;
     has_contact_form := has_contact_form r;
     contact_form_url := contact_form_url r;
     last_contact_check_at := last_contact_check_at r;
     contact_status := contact_status r; contact_error := contact_error r;
     contact_attempts := contact_attempts r; site_hash := site_hash r;
     instagram_url := instagram_url r; facebook_url := facebook_url r;
     twitter_url := twitter_url r; linkedin_url := linkedin_url r;
     youtube_url := youtube_url r; tiktok_url := tiktok_url r;
     other_urls := other_urls r;
     first_contacted_at := first_contacted_at r;
     last_contacted_at := last_contacted_at r;
     response_received_at := response_received_at r;
     contact_method := contact_method r;
     notes := notes r; tags := tags r; priority := priority r;
     follow_up_date := follow_up_date r;
     created_at := created_at r;
     updated_at := Some now |}.

End Table.
End Outreach.

(** ** The database and the PL/pgSQL execution model *)

Section Database.
Context `{Engine}.

Record database : Type := {
  creators : gmap Z Creators.row;
  projects : gmap Z Projects.row;
  creator_outreach : gmap Z Outreach.row;
}.

Definition set_creators (t : gmap Z Creators.row) (d : database) : database :=
  {| creators := t; projects := projects d; creator_outreach := creator_outreach d |}.

Definition set_projects (t : gmap Z Projects.row) (d : database) : database :=
  {| creators := creators d; projects := t; creator_outreach := creator_outreach d |}.

Definition set_creator_outreach (t : gmap Z Outreach.row) (d : database) : database :=
  {| creators := creators d; projects := projects d; creator_outreach := t |}.

(** One element of the [errors] array:
    [jsonb_build_object('creator_id', creator->>'id', 'error', SQLERRM)].
    [SQLERRM] is the message of the condition, kept here as the condition. *)
Record error_entry : Type := {
  entity_key : string;
  entity_id : option string;
  error : sqlerr;
}.

(** The state a function body runs in: the database and the variables of
    the [DECLARE] section that outlive an iteration. *)
Record frame : Type := {
  db : database;
  v_inserted : Z;
  v_updated : Z;
  v_total : Z;
  v_errors : list error_entry;
}.

(** The row a bulk function returns:
    [RETURNS TABLE(inserted_count, updated_count, total_count, errors)]. *)
Record bulk_result : Type := {
  inserted_count : Z;
  updated_count : Z;
  total_count : Z;
  errors : list error_entry;
}.

Definition plpgsql (A : Type) : Type := frame -> outcome A * frame.

#[global] Instance plpgsql_ret : MRet plpgsql := fun _ a st => (Ok a, st).
#[global] Instance plpgsql_bind : MBind plpgsql := fun _ _ f m st =>
  match m st with
  | (Ok a, st') => f a st'
  | (Raise e, st') => (Raise e, st')
  end.

(** An expression that may raise. *)
Definition eval {A : Type} (o : outcome A) : plpgsql A := fun st => (o, st).

(** A query that reads the database. *)
Definition query {A : Type} (q : database -> A) : plpgsql A :=
  fun st => (Ok (q (db st)), st).

(** A statement that writes the database, or raises and writes nothing. *)
Definition exec (stmt : database -> outcome database) : plpgsql unit := fun st =>
  match stmt (db st) with
  | Ok d =>
      (Ok (), {| db := d; v_inserted := v_inserted st; v_updated := v_updated st;
                 v_total := v_total st; v_errors := v_errors st |})
  | Raise e => (Raise e, st)
  end.

(** [v_total := v_total + 1] and the like. *)
Definition incr_total : plpgsql unit := fun st =>
  (Ok (), {| db := db st; v_inserted := v_inserted st; v_updated := v_updated st;
             v_total := v_total st + 1; v_errors := v_errors st |}).

Definition incr_inserted : plpgsql unit := fun st =>
  (Ok (), {| db := db st; v_inserted := v_inserted st + 1; v_updated := v_updated st;
             v_total := v_total st; v_errors := v_errors st |}).

Definition incr_updated : plpgsql unit := fun st =>
  (Ok (), {| db := db st; v_inserted := v_inserted st; v_updated := v_updated st + 1;
             v_total := v_total st; v_errors := v_errors st |}).

(** [v_errors := v_errors || jsonb_build_object(key, id, 'error', SQLERRM)] *)
Definition append_error (key : string) (id : option string) (e : sqlerr) : plpgsql unit :=
  fun st =>
  (Ok (), {| db := db st; v_inserted := v_inserted st; v_updated := v_updated st;
             v_total := v_total st;
             v_errors := v_errors st ++ [{| entity_key := key; entity_id := id; error := e |}] |}).

(** [BEGIN body EXCEPTION WHEN OTHERS THEN handler END]: when the body
    raises, what it wrote to the database is rolled back to the state at
    [BEGIN]; the local variables keep the values they had when the
    condition was raised; then the handler runs. *)
Definition block (body : plpgsql unit) (handler : sqlerr -> plpgsql unit) : plpgsql unit :=
  fun st =>
  match body st with
  | (Ok _, st') => (Ok (), st')
  | (Raise e, st') =>
      handler e {| db := db st; v_inserted := v_inserted st'; v_updated := v_updated st';
                   v_total := v_total st'; v_errors := v_errors st' |}
  end.

(** [FOR x IN SELECT * FROM jsonb_array_elements(data) LOOP body END LOOP] *)
Fixpoint for_each (items : list jsonb) (body : jsonb -> plpgsql unit) : plpgsql unit :=
  match items with
  | [] => mret ()
  | x :: rest => body x;; for_each rest body
  end.

Definition for_loop (rows : outcome (list jsonb)) (body : jsonb -> plpgsql unit) : plpgsql unit :=
  items ← eval rows; for_each items body.

(** [RETURN QUERY SELECT v_inserted, v_updated, v_total, v_errors] *)
Definition return_query : plpgsql bulk_result := fun st =>
  (Ok {| inserted_count := v_inserted st; updated_count := v_updated st;
         total_count := v_total st; errors := v_errors st |}, st).

(** A call of a function: the variables start at their [DECLARE] values;
    a condition that leaves the function aborts it and nothing it wrote
    remains. *)
Definition call {A : Type} (body : plpgsql A) (d : database) : outcome A * database :=
  match body {| db := d; v_inserted := 0; v_updated := 0; v_total := 0; v_errors := [] |} with
  | (Ok a, st) => (Ok a, db st)
  | (Raise e, _) => (Raise e, d)
  end.

End Database.

(** ** supabase/functions/bulk_upsert.sql

    [now] is [CURRENT_TIMESTAMP], the start time of the transaction a
    call runs in. *)

Section BulkUpsert.
Context `{Engine}.

(** *** [upsert_creators_bulk] *)

(** The [VALUES] list: the row proposed for insertion, [EXCLUDED]. *)
Definition creators_values (now : timestamptz) (creator : jsonb)
    (v_data_hash : option string) : outcome Creators.row :=
  id ← cast "bigint" to_bigint (creator ->> "id");
  slug ← varchar 255 (creator ->> "slug");
  name ← varchar 500 (creator ->> "name");
  is_registered ← cast "boolean" to_boolean (creator ->> "is_registered");
  is_email_verified ← cast "boolean" to_boolean (creator ->> "is_email_verified");
  chosen_currency ← varchar 3 (creator ->> "chosen_currency");
  is_superbacker ← cast "boolean" to_boolean (creator ->> "is_superbacker");
  has_admin_message_badge ← cast "boolean" to_boolean (creator ->> "has_admin_message_badge");
  ppo_has_action ← cast "boolean" to_boolean (creator ->> "ppo_has_action");
  backing_action_count ← cast "integer" to_integer (creator ->> "backing_action_count");
  mret {| Creators.id := id;
          Creators.slug := slug;
          Creators.name := name;
          Creators.is_registered := is_registered;
          Creators.is_email_verified := is_email_verified;
          Creators.chosen_currency := chosen_currency;
          Creators.is_superbacker := is_superbacker;
          Creators.has_admin_message_badge := coalesce has_admin_message_badge (Some false);
          Creators.ppo_has_action := coalesce ppo_has_action (Some false);
          Creators.backing_action_count := coalesce backing_action_count (Some 0);
          Creators.avatar := jget creator "avatar";
          Creators.urls := jget creator "urls";
          Creators.websites := coalesce (jget creator "websites") (Some (JArray []));
          Creators.data_hash := v_data_hash;
          Creators.created_at := Some now;
          Creators.updated_at := Some now |}.

(** The [DO UPDATE SET] list. *)
Definition creators_do_update (old excluded : Creators.row) : Creators.row :=
  {| Creators.id := Creators.id old;
     Creators.slug := Creators.slug excluded;
     Creators.name := Creators.name excluded;
     Creators.is_registered := Creators.is_registered excluded;
     Creators.is_email_verified := Creators.is_email_verified excluded;
     Creators.chosen_currency := Creators.chosen_currency excluded;
     Creators.is_superbacker := Creators.is_superbacker excluded;
     Creators.has_admin_message_badge := Creators.has_admin_message_badge excluded;
     Creators.ppo_has_action := Creators.ppo_has_action excluded;
     Creators.backing_action_count := Creators.backing_action_count excluded;
     Creators.avatar := Creators.avatar excluded;
     Creators.urls := Creators.urls excluded;
     Creators.websites := Creators.websites excluded;
     Creators.data_hash := Creators.data_hash excluded;
     Creators.created_at := Creators.created_at old;
     Creators.updated_at := Creators.updated_at old |}.

(** [INSERT INTO creators (...) VALUES (...) ON CONFLICT (id) DO UPDATE SET ...] *)
Definition creators_insert (now : timestamptz) (creator : jsonb)
    (v_data_hash : option string) (d : database) : outcome database :=
  excluded ← creators_values now creator v_data_hash;
  key ← Creators.check_not_null excluded;
  match creators d !! key with
  | None =>
      Creators.check_unique (creators d) key excluded;;
      mret (set_creators (<[key := excluded]> (creators d)) d)
  | Some old =>
      let new := Creators.update_updated_at_column now (creators_do_update old excluded) in
      Creators.check_not_null new;;
      Creators.check_unique (creators d) key new;;
      mret (set_creators (<[key := new]> (creators d)) d)
  end.

(** [SELECT EXISTS(SELECT 1 FROM creators WHERE id = x), data_hash
     INTO v_exists, v_existing_hash FROM creators WHERE id = x]:
    when no row has that id the query returns no row and both targets are
    set to NULL. *)
Definition creators_select (x : option Z) (d : database) : option bool * option string :=
  match x ≫= (fun key => creators d !! key) with
  | Some r => (Some true, Creators.data_hash r)
  | None => (None, None)
  end.

(** The test [NOT v_exists OR v_existing_hash IS NULL
    OR v_existing_hash != v_data_hash]. *)
Definition changed (v_exists : option bool) (v_existing_hash v_data_hash : option string) : bool :=
  holds (or3 (or3 (not3 v_exists) (is_null v_existing_hash))
             (neq3 v_existing_hash v_data_hash)).

(** The statements between [BEGIN] and [EXCEPTION] of one iteration. *)
Definition creators_body (now : timestamptz) (creator : jsonb) : plpgsql unit :=
  incr_total;;
  let v_data_hash := creator ->> "data_hash" in
  x ← eval (cast "bigint" to_bigint (creator ->> "id"));
  found ← query (creators_select x);
  let v_exists := found.1 in
  let v_existing_hash := found.2 in
  if changed v_exists v_existing_hash v_data_hash then
    exec (creators_insert now creator v_data_hash);;
    if holds v_exists then incr_updated else incr_inserted
  else mret ().

Definition upsert_creators_bulk (now : timestamptz) (creators_data : option jsonb)
    : database -> outcome bulk_result * database :=
  call (
    for_loop (jsonb_array_elements creators_data) (fun creator =>
      block (creators_body now creator)
            (fun sqlerrm => append_error "creator_id" (creator ->> "id") sqlerrm));;
    return_query).

(** *** [upsert_projects_bulk] *)

Definition projects_values (now : timestamptz) (project : jsonb)
    (v_data_hash : option string) : outcome Projects.row :=
  id ← cast "bigint" to_bigint (project ->> "id");
  creator_id ← cast "bigint" to_bigint (project ->> "creator_id");
  name ← varchar 1000 (project ->> "name");
  slug ← varchar 500 (project ->> "slug");
  state ← varchar 50 (project ->> "state");
  country ← varchar 2 (project ->> "country");
  country_displayable_name ← varchar 255 (project ->> "country_displayable_name");
  currency ← varchar 3 (project ->> "currency");
  goal ← cast "numeric" to_numeric (project ->> "goal") ≫= decimal_15_2;
  pledged ← cast "numeric" to_numeric (project ->> "pledged") ≫= decimal_15_2;
  backers_count ← cast "integer" to_integer (project ->> "backers_count");
  state_changed_at ← cast "timestamp with time zone" to_timestamptz
                        (nullif (project ->> "state_changed_at") "");
  created_at_ks ← cast "timestamp with time zone" to_timestamptz
                     (project ->> "created_at_ks");
  launched_at ← cast "timestamp with time zone" to_timestamptz
                   (nullif (project ->> "launched_at") "");
  deadline ← cast "timestamp with time zone" to_timestamptz
                (nullif (project ->> "deadline") "");
  mret {| Projects.id := id;
          Projects.creator_id := creator_id;
          Projects.name := name;
          Projects.blurb := project ->> "blurb";
          Projects.slug := slug;
          Projects.state := state;
          Projects.country := country;
          Projects.country_displayable_name := country_displayable_name;
          Projects.currency := currency;
          Projects.goal := goal;
          Projects.pledged := pledged;
          Projects.backers_count := backers_count;
          Projects.state_changed_at := state_changed_at;
          Projects.created_at_ks := created_at_ks;
          Projects.launched_at := launched_at;
          Projects.deadline := deadline;
          Projects.photo := jget project "photo";
          Projects.category := jget project "category";
          Projects.location := jget project "location";
          Projects.profile := jget project "profile";
          Projects.urls := jget project "urls";
          Projects.data_hash := v_data_hash;
          Projects.created_at := Some now;
          Projects.updated_at := Some now |}.

Definition projects_do_update (now : timestamptz) (old excluded : Projects.row)
    : Projects.row :=
  {| Projects.id := Projects.id old;
     Projects.creator_id := Projects.creator_id excluded;
     Projects.name := Projects.name excluded;
     Projects.blurb := Projects.blurb excluded;
     Projects.slug := Projects.slug excluded;
     Projects.state := Projects.state excluded;
     Projects.country := Projects.country excluded;
     Projects.country_displayable_name := Projects.country_displayable_name excluded;
     Projects.currency := Projects.currency excluded;
     Projects.goal := Projects.goal excluded;
     Projects.pledged := Projects.pledged excluded;
     Projects.backers_count := Projects.backers_count excluded;
     Projects.state_changed_at := Projects.state_changed_at excluded;
     Projects.created_at_ks := Projects.created_at_ks excluded;
     Projects.launched_at := Projects.launched_at excluded;
     Projects.deadline := Projects.deadline excluded;
     Projects.photo := Projects.photo excluded;
     Projects.category := Projects.category excluded;
     Projects.location := Projects.location excluded;
     Projects.profile := Projects.profile excluded;
     Projects.urls := Projects.urls excluded;
     Projects.data_hash := Projects.data_hash excluded;
     Projects.created_at := Projects.created_at old;
     Projects.updated_at := Some now |}.

Definition projects_insert (now : timestamptz) (project : jsonb)
    (v_data_hash : option string) (d : database) : outcome database :=
  excluded ← projects_values now project v_data_hash;
  key ← Projects.check_not_null excluded;
  match projects d !! key with
  | None =>
      Projects.check_unique (projects d) key excluded;;
      Projects.check_foreign_key (creators d) excluded;;
      mret (set_projects (<[key := excluded]> (projects d)) d)
  | Some old =>
      let new := Projects.update_updated_at_column now (projects_do_update now old excluded) in
      Projects.check_not_null new;;
      Projects.check_unique (projects d) key new;;
      Projects.check_foreign_key (creators d) new;;
      mret (set_projects (<[key := new]> (projects d)) d)
  end.

Definition projects_select (x : option Z) (d : database) : option bool * option string :=
  match x ≫= (fun key => projects d !! key) with
  | Some r => (Some true, Projects.data_hash r)
  | None => (None, None)
  end.

Definition projects_body (now : timestamptz) (project : jsonb) : plpgsql unit :=
  incr_total;;
  let v_data_hash := project ->> "data_hash" in
  x ← eval (cast "bigint" to_bigint (project ->> "id"));
  found ← query (projects_select x);
  let v_exists := found.1 in
  let v_existing_hash := found.2 in
  if changed v_exists v_existing_hash v_data_hash then
    exec (projects_insert now project v_data_hash);;
    if holds v_exists then incr_updated else incr_inserted
  else mret ().

Definition upsert_projects_bulk (now : timestamptz) (projects_data : option jsonb)
    : database -> outcome bulk_result * database :=
  call (
    for_loop (jsonb_array_elements projects_data) (fun project =>
      block (projects_body now project)
            (fun sqlerrm => append_error "project_id" (project ->> "id") sqlerrm));;
    return_query).

(** *** [sync_creator_outreach_bulk] *)

(** [COALESCE((outreach->>'k')::BOOLEAN, false)] *)
Definition flag (outreach : jsonb) (k : string) : outcome (option bool) :=
  b ← cast "boolean" to_boolean (outreach ->> k);
  mret (coalesce b (Some false)).

(** [CASE WHEN jsonb_typeof(outreach->'tags') = 'array'
     THEN ARRAY(SELECT jsonb_array_elements_text(outreach->'tags'))
     ELSE ARRAY[]::TEXT[] END] *)
Definition tags_of (outreach : jsonb) : option (list (option string)) :=
  if holds (eq3 (jsonb_typeof <$> jget outreach "tags") (Some "array"))
  then jsonb_array_elements_text <$> jget outreach "tags"
  else Some [].

Definition outreach_values (now : timestamptz) (outreach : jsonb) : outcome Outreach.row :=
  creator_id ← cast "bigint" to_bigint (outreach ->> "creator_id");
  has_instagram ← flag outreach "has_instagram";
  has_facebook ← flag outreach "has_facebook";
  has_twitter ← flag outreach "has_twitter";
  has_youtube ← flag outreach "has_youtube";
  has_tiktok ← flag outreach "has_tiktok";
  has_linkedin ← flag outreach "has_linkedin";
  has_patreon ← flag outreach "has_patreon";
  has_discord ← flag outreach "has_discord";
  has_twitch ← flag outreach "has_twitch";
  has_bluesky ← flag outreach "has_bluesky";
  has_other_website ← flag outreach "has_other_website";
  outreach_status ← varchar 50 (coalesce (outreach ->> "outreach_status") (Some "not_contacted"));
  first_contacted_at ← cast "timestamp with time zone" to_timestamptz
                          (nullif (outreach ->> "first_contacted_at") "");
  last_contacted_at ← cast "timestamp with time zone" to_timestamptz
                         (nullif (outreach ->> "last_contacted_at") "");
  response_received_at ← cast "timestamp with time zone" to_timestamptz
                            (nullif (outreach ->> "response_received_at") "");
  has_contact_form ← flag outreach "has_contact_form";
  last_contact_check_at ← cast "timestamp with time zone" to_timestamptz
                             (nullif (outreach ->> "last_contact_check_at") "");
  contact_status ← varchar 50 (coalesce (outreach ->> "contact_status") (Some "not_checked"));
  contact_attempts ← cast "integer" to_integer (outreach ->> "contact_attempts");
  mret {| Outreach.creator_id := creator_id;
          Outreach.has_instagram := has_instagram;
          Outreach.has_facebook := has_facebook;
          Outreach.has_twitter := has_twitter;
          Outreach.has_youtube := has_youtube;
          Outreach.has_tiktok := has_tiktok;
          Outreach.has_linkedin := has_linkedin;
          Outreach.has_patreon := has_patreon;
          Outreach.has_discord := has_discord;
          Outreach.has_twitch := has_twitch;
          Outreach.has_bluesky := has_bluesky;
          Outreach.has_other_website := has_other_website;
          Outreach.outreach_status := outreach_status;
          Outreach.first_contacted_at := first_contacted_at;
          Outreach.last_contacted_at := last_contacted_at;
          Outreach.response_received_at := response_received_at;
          Outreach.notes := outreach ->> "notes";
          Outreach.tags := tags_of outreach;
          Outreach.email := outreach ->> "email";
          Outreach.email_source_url := outreach ->> "email_source_url";
          Outreach.has_contact_form := has_contact_form;
          Outreach.contact_form_url := outreach ->> "contact_form_url";
          Outreach.last_contact_check_at := last_contact_check_at;
          Outreach.contact_status := contact_status;
          Outreach.contact_error := outreach ->> "contact_error";
          Outreach.contact_attempts := coalesce contact_attempts (Some 0);
          Outreach.site_hash := outreach ->> "site_hash";
          (* columns left to their defaults *)
          Outreach.instagram_url := None;
          Outreach.facebook_url := None;
          Outreach.twitter_url := None;
          Outreach.linkedin_url := None;
          Outreach.youtube_url := None;
          Outreach.tiktok_url := None;
          Outreach.other_urls := None;
          Outreach.contact_method := None;
          Outreach.priority := Some 0;
          Outreach.follow_up_date := None;
          Outreach.created_at := Some now;
          Outreach.updated_at := Some now |}.

(** The [DO UPDATE SET] list; [old] is the row [creator_outreach.*]. *)
Definition outreach_do_update (old excluded : Outreach.row) : Outreach.row :=
  {| Outreach.creator_id := Outreach.creator_id old;
     Outreach.has_instagram := Outreach.has_instagram excluded;
     Outreach.has_facebook := Outreach.has_facebook excluded;
     Outreach.has_twitter := Outreach.has_twitter excluded;
     Outreach.has_youtube := Outreach.has_youtube excluded;
     Outreach.has_tiktok := Outreach.has_tiktok excluded;
     Outreach.has_linkedin := Outreach.has_linkedin excluded;
     Outreach.has_patreon := Outreach.has_patreon excluded;
     Outreach.has_discord := Outreach.has_discord excluded;
     Outreach.has_twitch := Outreach.has_twitch excluded;
     Outreach.has_bluesky := Outreach.has_bluesky excluded;
     Outreach.has_other_website := Outreach.has_other_website excluded;
     Outreach.email := coalesce (Outreach.email excluded) (Outreach.email old);
     Outreach.email_source_url :=
       coalesce (Outreach.email_source_url excluded) (Outreach.email_source_url old);
     Outreach.has_contact_form :=
       coalesce (Outreach.has_contact_form excluded) (Outreach.has_contact_form old);
     Outreach.contact_form_url :=
       coalesce (Outreach.contact_form_url excluded) (Outreach.contact_form_url old);
     Outreach.last_contact_check_at :=
       coalesce (Outreach.last_contact_check_at excluded) (Outreach.last_contact_check_at old);
     Outreach.contact_status :=
       coalesce (Outreach.contact_status excluded) (Outreach.contact_status old);
     Outreach.contact_error :=
       coalesce (Outreach.contact_error excluded) (Outreach.contact_error old);
     Outreach.contact_attempts :=
       coalesce (Outreach.contact_attempts excluded) (Outreach.contact_attempts old);
     Outreach.site_hash := coalesce (Outreach.site_hash excluded) (Outreach.site_hash old);
     (* Only update status if it's still 'not_contacted' *)
     Outreach.outreach_status :=
       if holds (eq3 (Outreach.outreach_status old) (Some "not_contacted"))
       then Outreach.outreach_status excluded
       else Outreach.outreach_status old;
     (* columns the SET list does not name *)
     Outreach.first_contacted_at := Outreach.first_contacted_at old;
     Outreach.last_contacted_at := Outreach.last_contacted_at old;
     Outreach.response_received_at := Outreach.response_received_at old;
     Outreach.notes := Outreach.notes old;
     Outreach.tags := Outreach.tags old;
     Outreach.instagram_url := Outreach.instagram_url old;
     Outreach.facebook_url := Outreach.facebook_url old;
     Outreach.twitter_url := Outreach.twitter_url old;
     Outreach.linkedin_url := Outreach.linkedin_url old;
     Outreach.youtube_url := Outreach.youtube_url old;
     Outreach.tiktok_url := Outreach.tiktok_url old;
     Outreach.other_urls := Outreach.other_urls old;
     Outreach.contact_method := Outreach.contact_method old;
     Outreach.priority := Outreach.priority old;
     Outreach.follow_up_date := Outreach.follow_up_date old;
     Outreach.created_at := Outreach.created_at old;
     Outreach.updated_at := Outreach.updated_at old |}.

(** [INSERT INTO creator_outreach (...) VALUES (...)
     ON CONFLICT (creator_id) DO UPDATE SET ...] *)
Definition outreach_insert (now : timestamptz) (outreach : jsonb) (d : database)
    : outcome database :=
  excluded ← outreach_values now outreach;
  key ← Outreach.check_not_null excluded;
  match creator_outreach d !! key with
  | None =>
      Outreach.check_foreign_key (creators d) key;;
      mret (set_creator_outreach (<[key := excluded]> (creator_outreach d)) d)
  | Some old =>
      let new := Outreach.update_updated_at_column now (outreach_do_update old excluded) in
      Outreach.check_not_null new;;
      mret (set_creator_outreach (<[key := new]> (creator_outreach d)) d)
  end.

(** [SELECT EXISTS(SELECT 1 FROM creator_outreach WHERE creator_id = x)
     INTO v_exists] *)
Definition outreach_exists (x : option Z) (d : database) : option bool :=
  Some (bool_decide (is_Some (x ≫= (fun key => creator_outreach d !! key)))).

Definition outreach_body (now : timestamptz) (outreach : jsonb) : plpgsql unit :=
  incr_total;;
  x ← eval (cast "bigint" to_bigint (outreach ->> "creator_id"));
  v_exists ← query (outreach_exists x);
  exec (outreach_insert now outreach);;
  if holds v_exists then incr_updated else incr_inserted.

Definition sync_creator_outreach_bulk (now : timestamptz) (outreach_data : option jsonb)
    : database -> outcome bulk_result * database :=
  call (
    for_loop (jsonb_array_elements outreach_data) (fun outreach =>
      block (outreach_body now outreach)
            (fun sqlerrm => append_error "creator_id" (outreach ->> "creator_id") sqlerrm));;
    return_query).

End BulkUpsert.

(** ** Table [firecrawl_blocked_domains] and [firecrawl_block_domain] *)

Module Blocklist.

(** [lower(text)], on the ASCII letters a domain name is written in. *)
Definition lower_char (c : ascii) : ascii :=
  let n := nat_of_ascii c in
  if (65 <=? n)%nat && (n <=? 90)%nat then ascii_of_nat (n + 32) else c.

Fixpoint lower (s : string) : string :=
  match s with
  | EmptyString => EmptyString
  | String c rest => String (lower_char c) (lower rest)
  end.

(** [trim(text)]: the text without its leading and trailing spaces. *)
Fixpoint ltrim (s : string) : string :=
  match s with
  | String " "%char rest => ltrim rest
  | _ => s
  end.

Definition trim (s : string) : string := String.rev (ltrim (String.rev (ltrim s))).

Section Table.
Context `{Engine}.

Record row : Type := {
  domain : option string;       (* TEXT PRIMARY KEY *)
  reason : option string;
  source : option string;       (* DEFAULT 'firecrawl' *)
  notes : option string;
  created_at : option timestamptz;
  updated_at : option timestamptz;
}.

(** Trigger [set_firecrawl_blocked_domains_updated_at]. *)
Definition update_updated_at_column (now : timestamptz) (r : row) : row :=
  {| domain := domain r; reason := reason r; source := source r; notes := notes r;
     created_at := created_at r; updated_at := Some now |}.

(** The [DO UPDATE SET] list of [firecrawl_block_domain]. *)
Definition do_update (now : timestamptz) (old excluded : row) : row :=
  {| domain := domain old;
     reason := coalesce (reason excluded) (reason old);
     source := coalesce (source excluded) (source old);
     notes := coalesce (notes excluded) (notes old);
     created_at := created_at old;
     updated_at := Some now |}.

(** The test [p_domain IS NULL OR length(trim(p_domain)) = 0]. *)
Definition empty_domain (p_domain : option string) : bool :=
  holds (or3 (is_null p_domain)
             (eq3 (String.length <$> (trim <$> p_domain)) (Some 0%nat))).

(** The key a call writes under: [lower(p_domain)], and none when the
    call returns at ['Skipping empty domain']. *)
Definition blocked_key (p_domain : option string) : option string :=
  if empty_domain p_domain then None else lower <$> p_domain.

(** [firecrawl_block_domain(p_domain, p_reason, p_source, p_notes)]; the
    defaults of the last three parameters are ['Not supported by
    Firecrawl'], ['firecrawl'] and NULL. *)
Definition firecrawl_block_domain (now : timestamptz)
    (p_domain p_reason p_source p_notes : option string)
    (t : gmap string row) : gmap string row :=
  if empty_domain p_domain then t
  else
    let excluded :=
      {| domain := lower <$> p_domain; reason := p_reason; source := p_source;
         notes := p_notes; created_at := Some now; updated_at := Some now |} in
    match domain excluded with
    | None => t
    | Some key =>
        match t !! key with
        | None => <[key := excluded]> t
        | Some old =>
            <[key := update_updated_at_column now (do_update now old excluded)]> t
        end
    end.

Definition default_reason : option string := Some "Not supported by Firecrawl".
Definition default_source : option string := Some "firecrawl".
Definition default_notes : option string := None.

End Table.
End Blocklist.

(** ** Table [pipeline_state] (supabase/tables/pipeline_state.sql)

    The table is kept as the list of its rows, and the statements check
    the constraints of the table themselves, so that what the constraints
    guarantee is a theorem about the statements and not a property of the
    representation. *)

Module PipelineState.
Section Table.
Context `{Engine}.

Record row : Type := {
  id : option Z;                 (* SMALLINT PRIMARY KEY DEFAULT 1 CHECK (id = 1) *)
  last_run_at : option timestamptz;
  last_project_created_at : option timestamptz;
  last_contact_check_at : option timestamptz;
  last_site_hash : option string;
  run_notes : option string;
  pipeline_version : option string;
  created_at : option timestamptz;
  updated_at : option timestamptz;
}.

(** Trigger [set_pipeline_state_updated_at]. *)
Definition update_updated_at_column (now : timestamptz) (r : row) : row :=
  {| id := id r; last_run_at := last_run_at r;
     last_project_created_at := last_project_created_at r;
     last_contact_check_at := last_contact_check_at r;
     last_site_hash := last_site_hash r; run_notes := run_notes r;
     pipeline_version := pipeline_version r;
     created_at := created_at r; updated_at := Some now |}.

(** The constraints of a row: the primary key is not null and
    [CHECK (id = 1)] is not false. *)
Definition check_row (r : row) : outcome Z :=
  match id r with
  | None => Raise (not_null_violation "pipeline_state" "id")
  | Some k =>
      if holds (not3 (eq3 (id r) (Some 1)))
      then Raise (check_violation "pipeline_state" "pipeline_state_id_check")
      else Ok k
  end.

Definition has_key (k : Z) (t : list row) : bool :=
  existsb (fun r => bool_decide (id r = Some k)) t.

(** [INSERT INTO pipeline_state (...) VALUES (...)] *)
Definition insert (r : row) (t : list row) : outcome (list row) :=
  k ← check_row r;
  if has_key k t then Raise (unique_violation "pipeline_state_pkey")
  else Ok (t ++ [r]).

(** [INSERT ... ON CONFLICT (id) DO NOTHING] *)
Definition insert_on_conflict_do_nothing (r : row) (t : list row) : outcome (list row) :=
  k ← check_row r;
  if has_key k t then Ok t else Ok (t ++ [r]).

(** [UPDATE pipeline_state SET ... WHERE ...]: every new row is checked,
    and the new rows must still have pairwise distinct keys. *)
Definition update (now : timestamptz) (set : row -> row) (where_ : row -> bool)
    (t : list row) : outcome (list row) :=
  let t' := (fun r => if where_ r then update_updated_at_column now (set r) else r) <$> t in
  keys ← mapM check_row t';
  if bool_decide (NoDup keys) then Ok t'
  else Raise (unique_violation "pipeline_state_pkey").

(** [DELETE FROM pipeline_state WHERE ...] *)
Definition delete (where_ : row -> bool) (t : list row) : list row :=
  List.filter (fun r => negb (where_ r)) t.

(** The row [INSERT INTO pipeline_state (id) VALUES (1)] proposes. *)
Definition control_row (now : timestamptz) : row :=
  {| id := Some 1; last_run_at := None; last_project_created_at := None;
     last_contact_check_at := None; last_site_hash := None; run_notes := None;
     pipeline_version := None; created_at := Some now; updated_at := Some now |}.

(** The script: [CREATE TABLE IF NOT EXISTS pipeline_state (...)], then
    [INSERT INTO pipeline_state (id) VALUES (1) ON CONFLICT (id) DO NOTHING].
    [None] is a database without the table. *)
Definition setup (now : timestamptz) (table : option (list row)) : outcome (list row) :=
  insert_on_conflict_do_nothing (control_row now) (default [] table).

(** The tables the statements can produce, from the empty table the
    script creates. *)
Inductive reachable : list row -> Prop :=
| reachable_created : reachable []
| reachable_insert r t t' :
    reachable t -> insert r t = Ok t' -> reachable t'
| reachable_insert_do_nothing r t t' :
    reachable t -> insert_on_conflict_do_nothing r t = Ok t' -> reachable t'
| reachable_update now set where_ t t' :
    reachable t -> update now set where_ t = Ok t' -> reachable t'
| reachable_delete where_ t :
    reachable t -> reachable (delete where_ t).

End Table.
End PipelineState.

(** ** [customer_contacts_view]

    The repository holds two definitions of the view.  Both select from
    [creators c LEFT JOIN creator_outreach co ON co.creator_id = c.id] and
    join lateral sub-queries [ON true] that yield exactly one row for each
    creator (an aggregate without [GROUP BY], or a [LIMIT 1] under a left
    join), so the rows of the view are the creators that pass the [WHERE]
    clause.  The columns the lateral sub-queries compute (project names,
    countries, blurbs, web sites) are left out of the rows below. *)

Module ContactsView.
Section View.
Context `{Engine}.

Record row : Type := {
  creator_id : option Z;
  creator_name : option string;
  creator_slug : option string;
  email : option string;
  email_source_url : option string;
  contact_form_url : option string;
  has_contact_form : option bool;
}.

(** [creators c LEFT JOIN creator_outreach co ON co.creator_id = c.id] *)
Definition joined (d : database) : list (Creators.row * option Outreach.row) :=
  (fun c => (c, Creators.id c ≫= fun k => creator_outreach d !! k))
    <$> (snd <$> map_to_list (creators d)).

(** The select list both definitions share. *)
Definition select (j : Creators.row * option Outreach.row) : row :=
  let c := j.1 in
  let co := j.2 in
  {| creator_id := Creators.id c;
     creator_name := Creators.name c;
     creator_slug := Creators.slug c;
     email := coalesce (co ≫= Outreach.email) (Some "");
     email_source_url := coalesce (co ≫= Outreach.email_source_url) (Some "");
     contact_form_url := coalesce (co ≫= Outreach.contact_form_url) (Some "");
     has_contact_form := coalesce (co ≫= Outreach.has_contact_form) (Some false) |}.

(** [WHERE co.contact_status = 'completed'
       AND (co.email IS NOT NULL AND co.email <> ''
            OR COALESCE(co.has_contact_form, false) = true)] *)
Definition where_ (j : Creators.row * option Outreach.row) : bool :=
  let co := j.2 in
  holds (and3 (eq3 (co ≫= Outreach.contact_status) (Some "completed"))
              (or3 (and3 (is_not_null (co ≫= Outreach.email))
                         (neq3 (co ≫= Outreach.email) (Some "")))
                   (eq3 (coalesce (co ≫= Outreach.has_contact_form) (Some false))
                        (Some true)))).

(** The definition with the [WHERE] clause (src/unnamed/part_001). *)
Definition customer_contacts_view (d : database) : list row :=
  select <$> List.filter where_ (joined d).

(** The definition of supabase/views/customer_contacts_view.sql, which
    has no [WHERE] clause. *)
Definition customer_contacts_view_all (d : database) : list row :=
  select <$> joined d.

End View.
End ContactsView.

(** ** Aggregates *)

Section Aggregates.

(** [COUNT( * )] over the rows that pass a test, as in
    [COUNT( * ) FILTER (WHERE p)] and [SELECT COUNT( * ) ... WHERE p]. *)
Definition count {A : Type} (p : A -> bool) (rows : list A) : Z :=
  Z.of_nat (length (List.filter p rows)).

(** [x <= y] on dates. *)
Definition le3 (x y : option Z) : option bool :=
  match x, y with
  | Some a, Some b => Some (bool_decide (a <= b))
  | _, _ => None
  end.

(** [x IN ('a', 'b')] *)
Definition in3 (x : option string) (a b : string) : option bool :=
  or3 (eq3 x (Some a)) (eq3 x (Some b)).

(** [SUM(x)] of an integer column: NULL when no row has a value. *)
Definition sum_of (values : list (option Z)) : option Z :=
  match omap id values with
  | [] => None
  | v :: vs => Some (foldr Z.add 0 (v :: vs))
  end.

(** The rows of a table. *)
Definition rows {R : Type} (t : gmap Z R) : list R := snd <$> map_to_list t.

End Aggregates.

(** ** The views of supabase/tables/creator_outreach.sql

    The [ORDER BY] clauses of the views are left out: a view below is the
    list of its rows in an order that is not specified. *)

Module OutreachViews.
Section Views.
Context `{Engine}.

(** [creator_outreach co INNER JOIN creators c ON co.creator_id = c.id] *)
Definition joined (d : database) : list (Outreach.row * Creators.row) :=
  omap (fun co => c ← Outreach.creator_id co ≫= (fun k => creators d !! k); Some (co, c))
       (rows (creator_outreach d)).

(** The select list [co.*, c.name, c.slug, c.websites] of the first three
    views. *)
Record contact_row : Type := {
  co : Outreach.row;
  creator_name : option string;
  creator_slug : option string;
  websites : option jsonb;
}.

Definition select (j : Outreach.row * Creators.row) : contact_row :=
  {| co := j.1; creator_name := Creators.name j.2; creator_slug := Creators.slug j.2;
     websites := Creators.websites j.2 |}.

(** [vw_creators_ready_to_contact]:
    [WHERE co.has_any_contact = true AND co.outreach_status = 'not_contacted'] *)
Definition ready_to_contact (j : Outreach.row * Creators.row) : bool :=
  holds (and3 (eq3 (Outreach.has_any_contact j.1) (Some true))
              (eq3 (Outreach.outreach_status j.1) (Some "not_contacted"))).

Definition vw_creators_ready_to_contact (d : database) : list contact_row :=
  select <$> List.filter ready_to_contact (joined d).

(** [vw_creators_no_contact]: [WHERE co.outreach_status = 'no_contact_info'] *)
Definition vw_creators_no_contact (d : database) : list contact_row :=
  select <$> List.filter
    (fun j => holds (eq3 (Outreach.outreach_status j.1) (Some "no_contact_info")))
    (joined d).

(** [vw_creators_follow_up]:
    [WHERE co.follow_up_date IS NOT NULL AND co.follow_up_date <= CURRENT_DATE
       AND co.outreach_status IN ('contacted', 'no_response')];
    [current_date] is the day of the query. *)
Definition vw_creators_follow_up (current_date : Z) (d : database) : list contact_row :=
  select <$> List.filter
    (fun j => holds (and3 (and3 (is_not_null (Outreach.follow_up_date j.1))
                                (le3 (Outreach.follow_up_date j.1) (Some current_date)))
                          (in3 (Outreach.outreach_status j.1) "contacted" "no_response")))
    (joined d).

(** [vw_outreach_statistics]: one row for each value of [outreach_status]. *)
Record statistics_row : Type := {
  outreach_status : option string;
  count_all : Z;
  with_instagram : Z;
  with_twitter : Z;
  with_linkedin : Z;
  with_facebook : Z;
  with_youtube : Z;
  with_any_contact : Z;
}.

Definition statistics_of (all : list Outreach.row) (status : option string)
    : statistics_row :=
  let group := List.filter (fun r => bool_decide (Outreach.outreach_status r = status)) all in
  {| outreach_status := status;
     count_all := Z.of_nat (length group);
     with_instagram := count (fun r => holds (Outreach.has_instagram r)) group;
     with_twitter := count (fun r => holds (Outreach.has_twitter r)) group;
     with_linkedin := count (fun r => holds (Outreach.has_linkedin r)) group;
     with_facebook := count (fun r => holds (Outreach.has_facebook r)) group;
     with_youtube := count (fun r => holds (Outreach.has_youtube r)) group;
     with_any_contact := count (fun r => holds (Outreach.has_any_contact r)) group |}.

Definition vw_outreach_statistics (d : database) : list statistics_row :=
  let all := rows (creator_outreach d) in
  statistics_of all <$> remove_dups (Outreach.outreach_status <$> all).

(** [vw_creators_complete]:
    [creators c LEFT JOIN creator_outreach co ON c.id = co.creator_id
       LEFT JOIN projects p ON c.id = p.creator_id], grouped by the columns
    of [c] and [co] in the select list, with [COUNT(p.id)].  [creator_id]
    is the primary key of [creator_outreach], so a creator is joined with
    one outreach row at most and every group is one creator; [COUNT(p.id)]
    counts the joined projects whose [id] is not NULL.  The select list
    takes some of the columns of [c] and [co]; the rows are kept whole. *)
Record complete_row : Type := {
  creator : Creators.row;
  outreach : option Outreach.row;
  project_count : Z;
}.

Definition vw_creators_complete (d : database) : list complete_row :=
  (fun c : Creators.row =>
     {| creator := c;
        outreach := Creators.id c ≫= (fun k => creator_outreach d !! k);
        project_count :=
          count (fun p => holds (and3 (eq3 (Creators.id c) (Projects.creator_id p))
                                      (is_not_null (Projects.id p))))
                (rows (projects d)) |})
  <$> rows (creators d).

End Views.
End OutreachViews.

(** ** The views of the [projects] script *)

Module ProjectViews.
Section Views.
Context `{Engine}.

(** [vw_projects_with_creators]:
    [projects p INNER JOIN creators c ON p.creator_id = c.id], with the
    select list [p.*, c.name, c.slug, c.is_superbacker, c.websites]. *)
Record project_row : Type := {
  p : Projects.row;
  creator_name : option string;
  creator_slug : option string;
  creator_is_superbacker : option bool;
  creator_websites : option jsonb;
}.

Definition joined (d : database) : list (Projects.row * Creators.row) :=
  omap (fun p => c ← Projects.creator_id p ≫= (fun k => creators d !! k); Some (p, c))
       (rows (projects d)).

Definition select (j : Projects.row * Creators.row) : project_row :=
  {| p := j.1; creator_name := Creators.name j.2; creator_slug := Creators.slug j.2;
     creator_is_superbacker := Creators.is_superbacker j.2;
     creator_websites := Creators.websites j.2 |}.

Definition vw_projects_with_creators (d : database) : list project_row :=
  select <$> joined d.

End Views.
End ProjectViews.

(** ** [get_home_stats] (supabase/functions/get_home_stats.sql)

    The two [NUMERIC] columns of the result, [total_pledged] and
    [avg_backed_per_creator], are left out. *)

Module HomeStats.
Section Function.
Context `{Engine}.

Record row : Type := {
  total_projects : Z;
  total_creators : Z;
  total_backed_projects : option Z;
  active_projects : Z;
  successful_projects : Z;
  failed_projects : Z;
  creators_with_contact : Z;
  creators_not_contacted : Z;
  creators_partnership : Z;
  creators_interested : Z;
  projects_by_superbacker : Z;
}.

Definition state_is (s : string) (p : Projects.row) : bool :=
  holds (eq3 (Projects.state p) (Some s)).

Definition status_is (s : string) (co : Outreach.row) : bool :=
  holds (eq3 (Outreach.outreach_status co) (Some s)).

Definition get_home_stats (d : database) : row :=
  {| total_projects := count (fun _ => true) (rows (projects d));
     total_creators := count (fun _ => true) (rows (creators d));
     total_backed_projects := sum_of (Creators.backing_action_count <$> rows (creators d));
     (* WHERE state IN ('live', 'started') *)
     active_projects :=
       count (fun p => holds (in3 (Projects.state p) "live" "started"))
             (rows (projects d));
     successful_projects := count (state_is "successful") (rows (projects d));
     failed_projects := count (state_is "failed") (rows (projects d));
     (* WHERE outreach_status != 'not_contacted' *)
     creators_with_contact :=
       count (fun co => holds (neq3 (Outreach.outreach_status co) (Some "not_contacted")))
             (rows (creator_outreach d));
     (* creators c LEFT JOIN creator_outreach co ON co.creator_id = c.id
        WHERE co.creator_id IS NULL OR co.outreach_status = 'not_contacted' *)
     creators_not_contacted :=
       count (fun j : Creators.row * option Outreach.row =>
                holds (or3 (is_null (j.2 ≫= Outreach.creator_id))
                           (eq3 (j.2 ≫= Outreach.outreach_status) (Some "not_contacted"))))
             (ContactsView.joined d);
     creators_partnership := count (status_is "partnership") (rows (creator_outreach d));
     creators_interested := count (status_is "interested") (rows (creator_outreach d));
     (* projects p INNER JOIN creators c ON c.id = p.creator_id
        WHERE c.is_superbacker = true *)
     projects_by_superbacker :=
       count (fun j : Projects.row * Creators.row =>
                holds (eq3 (Creators.is_superbacker j.2) (Some true)))
             (ProjectViews.joined d) |}.

End Function.
End HomeStats.

(** ** The [creator_websites] column of [customer_contacts_view]

    The lateral sub-query [ws] of the definition with the [WHERE] clause:
    [select string_agg(url, E'\n') from (select site->>'url' as url
       from jsonb_array_elements(c.websites) as site
       where site->>'url' is not null and site->>'url' <> '') w]. *)

Module Websites.
Section Column.
Context `{Engine}.

Definition newline : string := String (ascii_of_nat 10) EmptyString.

(** [string_agg(x, sep)]: the values that are not NULL, joined by [sep];
    NULL when there is none. *)
Definition string_agg (sep : string) (values : list (option string)) : option string :=
  match omap id values with
  | [] => None
  | v :: vs => Some (foldl (fun acc s => acc +:+ sep +:+ s) v vs)
  end.

(** The [where] clause of the inner query. *)
Definition usable (url : option string) : bool :=
  holds (and3 (is_not_null url) (neq3 url (Some ""))).

Definition urls (sites : list jsonb) : list (option string) :=
  List.filter usable ((fun site => site ->> "url") <$> sites).

Definition creator_websites (c : Creators.row) : outcome (option string) :=
  sites ← jsonb_array_elements (Creators.websites c);
  mret (string_agg newline (urls sites)).

End Column.
End Websites.

(** ** A reference engine for the worked examples

    It reads the plain literals: an optional sign and decimal digits for
    the integer types and for [NUMERIC], [true]/[false]/[t]/[f] for
    [BOOLEAN], and time stamps written [YYYY-MM-DDThh:mm:ssZ], which it
    keeps as their text.  Every other text is refused.  The general
    theorems below do not depend on it: they hold for every [Engine]. *)

Module Reference.

Fixpoint digits (s : string) (acc : Z) : option Z :=
  match s with
  | EmptyString => Some acc
  | String c rest =>
      match Ascii.is_nat c with
      | Some n => digits rest (10 * acc + Z.of_nat n)
      | None => None
      end
  end.

Definition integer_literal (s : string) : option Z :=
  match s with
  | EmptyString => None
  | String "-"%char EmptyString => None
  | String "-"%char rest => Z.opp <$> digits rest 0
  | _ => digits s 0
  end.

Definition in_range (lo hi : Z) (z : Z) : option Z :=
  if decide (lo <= z <= hi) then Some z else None.

Definition boolean_literal (s : string) : option bool :=
  if decide (s = "true" ∨ s = "t") then Some true
  else if decide (s = "false" ∨ s = "f") then Some false
  else None.

Definition is_digit (c : ascii) : bool := bool_decide (is_Some (Ascii.is_nat c)).

Definition timestamp_shape (s : string) : bool :=
  match String.list_ascii_of_string s with
  | [y1; y2; y3; y4; d1; m1; m2; d2; a1; a2; t; h1; h2; c1; n1; n2; c2; s1; s2; z] =>
      forallb is_digit [y1; y2; y3; y4; m1; m2; a1; a2; h1; h2; n1; n2; s1; s2]
      && bool_decide ([d1; d2; t; c1; c2; z] = ["-"; "-"; "T"; ":"; ":"; "Z"]%char)
  | _ => false
  end.

Definition quote : string := String (ascii_of_nat 34) EmptyString.

Fixpoint render (v : jsonb) : string :=
  match v with
  | JNull => "null"
  | JString s => quote +:+ s +:+ quote
  | JNumber literal => literal
  | JBoolean b => if b then "true" else "false"
  | JArray elements =>
      "[" +:+
      (fix go (l : list jsonb) : string :=
         match l with
         | [] => ""
         | [x] => render x
         | x :: rest => render x +:+ ", " +:+ go rest
         end) elements +:+ "]"
  | JObject fields =>
      "{" +:+
      (fix go (l : list (string * jsonb)) : string :=
         match l with
         | [] => ""
         | [(k, x)] => quote +:+ k +:+ quote +:+ ": " +:+ render x
         | (k, x) :: rest => quote +:+ k +:+ quote +:+ ": " +:+ render x +:+ ", " +:+ go rest
         end) fields +:+ "}"
  end.

#[export] Instance engine : Engine := {|
  timestamptz := string;
  numeric := Z;
  jsonb_out := render;
  to_bigint s := integer_literal s ≫= in_range (- 2 ^ 63) (2 ^ 63 - 1);
  to_integer s := integer_literal s ≫= in_range (- 2 ^ 31) (2 ^ 31 - 1);
  to_boolean := boolean_literal;
  to_numeric := integer_literal;
  to_timestamptz s := if timestamp_shape s then Some s else None;
  to_decimal_15_2 z := in_range (- (10 ^ 13 - 1)) (10 ^ 13 - 1) z;
|}.

Definition empty : database :=
  {| creators := ∅; projects := ∅; creator_outreach := ∅ |}.

End Reference.

(** * The vocabulary of the statements *)

(** ** The loop of a bulk function

    The three functions of bulk_upsert.sql share one skeleton: a loop over
    the elements of the array whose body is a block with an exception
    handler that appends to [v_errors].  [bulk] is that skeleton. *)

Section Loop.
Context `{Engine}.

Definition iteration (key : string) (idf : jsonb -> option string)
    (body : jsonb -> plpgsql unit) (x : jsonb) : plpgsql unit :=
  block (body x) (fun sqlerrm => append_error key (idf x) sqlerrm).

Definition bulk (key : string) (idf : jsonb -> option string)
    (body : jsonb -> plpgsql unit) (data : option jsonb)
    : database -> outcome bulk_result * database :=
  call (for_loop (jsonb_array_elements data) (iteration key idf body);; return_query).

(** The frame a call starts in, and the sum of two frames: the counters
    add up, the error lists are appended, the database is the later one. *)
Definition zero (d : database) : frame :=
  {| db := d; v_inserted := 0; v_updated := 0; v_total := 0; v_errors := [] |}.

Definition shift (st acc : frame) : frame :=
  {| db := db acc;
     v_inserted := v_inserted st + v_inserted acc;
     v_updated := v_updated st + v_updated acc;
     v_total := v_total st + v_total acc;
     v_errors := v_errors st ++ v_errors acc |}.

(** A computation is uniform when it reads the counters and the error
    list only to add to them: running it in a frame is running it in the
    fresh frame over the same database and adding the result. *)
Class Uniform {A : Type} (m : plpgsql A) : Prop :=
  uniform : forall st, m st = ((m (zero (db st))).1, shift st (m (zero (db st))).2).

End Loop.

(** What one iteration may do to the counters: exactly one of insert,
    update, skip or fail, and a skip or a failure leaves the database as it
    was at [BEGIN]. *)
Inductive unit_outcome `{Engine} (d : database) : outcome unit * frame -> Prop :=
| unit_inserted d' :
    unit_outcome d (Ok (), {| db := d'; v_inserted := 1; v_updated := 0;
                              v_total := 1; v_errors := [] |})
| unit_updated d' :
    unit_outcome d (Ok (), {| db := d'; v_inserted := 0; v_updated := 1;
                              v_total := 1; v_errors := [] |})
| unit_unchanged :
    unit_outcome d (Ok (), {| db := d; v_inserted := 0; v_updated := 0;
                              v_total := 1; v_errors := [] |})
| unit_failed e d' :
    unit_outcome d (Raise e, {| db := d'; v_inserted := 0; v_updated := 0;
                                v_total := 1; v_errors := [] |}).

Class Counting `{Engine} (body : jsonb -> plpgsql unit) : Prop :=
  counting : forall x d, unit_outcome d (body x (zero d)).

(** How an entity of the batch fared. *)
Inductive fate : Type :=
| Inserted
| Updated
| Unchanged
| Failed (message : sqlerr).

Section Run.
Context `{Engine}.
Variable key : string.
Variable idf : jsonb -> option string.
Variable body : jsonb -> plpgsql unit.

(** The frame one iteration produces from a fresh frame over [d]. *)
Definition single (x : jsonb) (d : database) : frame :=
  (iteration key idf body x (zero d)).2.

(** The frame the whole loop produces from a fresh frame over [d]. *)
Fixpoint run (items : list jsonb) (d : database) : frame :=
  match items with
  | [] => zero d
  | x :: rest => shift (single x d) (run rest (db (single x d)))
  end.

Definition report (st : frame) : bulk_result :=
  {| inserted_count := v_inserted st; updated_count := v_updated st;
     total_count := v_total st; errors := v_errors st |}.

(** The fate of an entity, read off the frame of its iteration, and the
    fates of the entities of a batch, each at the database it meets. *)
Definition fate_of (x : jsonb) (d : database) : fate :=
  match v_errors (single x d) with
  | e :: _ => Failed (error e)
  | [] =>
      if decide (v_inserted (single x d) = 1) then Inserted
      else if decide (v_updated (single x d) = 1) then Updated
      else Unchanged
  end.

Fixpoint fates (items : list jsonb) (d : database) : list (jsonb * fate) :=
  match items with
  | [] => []
  | x :: rest => (x, fate_of x d) :: fates rest (db (single x d))
  end.

Definition tally (p : fate -> bool) (tr : list (jsonb * fate)) : Z :=
  Z.of_nat (length (List.filter (fun xf => p xf.2) tr)).

Definition is_inserted (f : fate) : bool := match f with Inserted => true | _ => false end.
Definition is_updated (f : fate) : bool := match f with Updated => true | _ => false end.
Definition is_unchanged (f : fate) : bool := match f with Unchanged => true | _ => false end.
Definition is_failed (f : fate) : bool := match f with Failed _ => true | _ => false end.

(** The error details of the failed entities, in the order of the batch. *)
Fixpoint failures (tr : list (jsonb * fate)) : list error_entry :=
  match tr with
  | [] => []
  | (x, Failed e) :: rest =>
      {| entity_key := key; entity_id := idf x; error := e |} :: failures rest
  | _ :: rest => failures rest
  end.

End Run.

(** ** The three bulk functions, by name *)

Inductive bulk_function : Type :=
| UpsertCreators
| UpsertProjects
| SyncCreatorOutreach.

Section Named.
Context `{Engine}.

Definition bulk_call (b : bulk_function) (now : timestamptz)
    : option jsonb -> database -> outcome bulk_result * database :=
  match b with
  | UpsertCreators => upsert_creators_bulk now
  | UpsertProjects => upsert_projects_bulk now
  | SyncCreatorOutreach => sync_creator_outreach_bulk now
  end.

(** The statements between [BEGIN] and [EXCEPTION] of the loop of [b]. *)
Definition bulk_body (b : bulk_function) (now : timestamptz) : jsonb -> plpgsql unit :=
  match b with
  | UpsertCreators => creators_body now
  | UpsertProjects => projects_body now
  | SyncCreatorOutreach => outreach_body now
  end.

(** The key and the value of the entity id in an error detail of [b]. *)
Definition id_key (b : bulk_function) : string :=
  match b with
  | UpsertCreators => "creator_id"
  | UpsertProjects => "project_id"
  | SyncCreatorOutreach => "creator_id"
  end.

Definition id_text (b : bulk_function) (x : jsonb) : option string :=
  match b with
  | UpsertCreators => x ->> "id"
  | UpsertProjects => x ->> "id"
  | SyncCreatorOutreach => x ->> "creator_id"
  end.

(** The fates of the entities of a batch under [b], from the database [d]. *)
Definition entity_fates (b : bulk_function) (now : timestamptz)
    (items : list jsonb) (d : database) : list (jsonb * fate) :=
  fates (id_key b) (id_text b) (bulk_body b now) items d.

(** The error details [b] owes for those fates. *)
Definition error_details (b : bulk_function) (tr : list (jsonb * fate)) : list error_entry :=
  failures (id_key b) (id_text b) tr.

(** The id of an entity of a batch, [(x->>'id')::BIGINT], when the cast
    yields one. *)
Definition parsed_id (x : jsonb) : option Z := (x ->> "id") ≫= to_bigint.

(** The same for any of the three functions: the key of the row an
    entity stands for, and whether the table [b] writes has that row. *)
Definition row_key (b : bulk_function) (x : jsonb) : option Z := id_text b x ≫= to_bigint.

Definition has_row (b : bulk_function) (d : database) (k : Z) : bool :=
  match b with
  | UpsertCreators => bool_decide (is_Some (creators d !! k))
  | UpsertProjects => bool_decide (is_Some (projects d !! k))
  | SyncCreatorOutreach => bool_decide (is_Some (creator_outreach d !! k))
  end.

(** The two functions that compare hashes. *)
Definition hash_guarded (b : bulk_function) : Prop :=
  b = UpsertCreators ∨ b = UpsertProjects.

(** The [data_hash] column of the row with id [key] in the table [b]
    writes: [None] when there is no such row, [Some None] when the stored
    hash is NULL. *)
Definition stored_hash (b : bulk_function) (d : database) (key : Z) : option (option string) :=
  match b with
  | UpsertCreators => Creators.data_hash <$> creators d !! key
  | UpsertProjects => Projects.data_hash <$> projects d !! key
  | SyncCreatorOutreach => None
  end.

(** Every entity of [items] finds its own hash stored in [d]. *)
Definition all_stored (b : bulk_function) (items : list jsonb) (d : database) : Prop :=
  forall x, x ∈ items ->
    exists k h, parsed_id x = Some k ∧ x ->> "data_hash" = Some h ∧
                stored_hash b d k = Some (Some h).

End Named.

Section Deeds.
Context `{Engine}.

(** Whether the row an entity stands for is stored in [d]. *)
Definition stored (b : bulk_function) (x : jsonb) (d : database) : bool :=
  match row_key b x with
  | Some k => has_row b d k
  | None => false
  end.

(** Whether the hash guard passes over an entity: its row is stored with
    a hash that is not NULL, and the incoming hash is that hash or is
    missing.  [creator_outreach] has no hash. *)
Definition skipped (b : bulk_function) (x : jsonb) (d : database) : bool :=
  match row_key b x ≫= stored_hash b d with
  | Some (Some h) => bool_decide (x ->> "data_hash" = Some h ∨ x ->> "data_hash" = None)
  | _ => false
  end.

(** The [updated_at] column of the row with id [key] in the table [b]
    writes. *)
Definition updated_stamp (b : bulk_function) (d : database) (key : Z)
    : option (option timestamptz) :=
  match b with
  | UpsertCreators => Creators.updated_at <$> creators d !! key
  | UpsertProjects => Projects.updated_at <$> projects d !! key
  | SyncCreatorOutreach => Outreach.updated_at <$> creator_outreach d !! key
  end.

(** What happens to an entity that the loop meets at the database [d],
    read off the outcome of its statements and the table, not off the
    counters or the error list: it fails when its statements raise; it is
    unchanged when the guard passes over it; otherwise it is updated when
    its row was stored and inserted when it was not. *)
Definition deed (b : bulk_function) (now : timestamptz) (x : jsonb) (d : database) : fate :=
  match (bulk_body b now x (zero d)).1 with
  | Raise e => Failed e
  | Ok _ =>
      if skipped b x d then Unchanged
      else if stored b x d then Updated
      else Inserted
  end.

(** The deeds of a batch: each entity at the database that the call on
    the entities before it leaves. *)
Fixpoint deeds (b : bulk_function) (now : timestamptz) (items : list jsonb) (d : database)
    : list (jsonb * fate) :=
  match items with
  | [] => []
  | x :: rest =>
      (x, deed b now x d) :: deeds b now rest (bulk_call b now (Some (JArray [x])) d).2
  end.

End Deeds.

Section BlocklistRows.
Context `{Engine}.
Import Blocklist.

(** The row a call leaves under its key: the proposed row when the key
    was free, the merge with the stored row on conflict. *)
Definition upserted (now : timestamptz) (key : string)
    (p_reason p_source p_notes : option string) (stored : option row) : row :=
  match stored with
  | None =>
      {| domain := Some key; reason := p_reason; source := p_source; notes := p_notes;
         created_at := Some now; updated_at := Some now |}
  | Some old =>
      {| domain := domain old;
         reason := coalesce p_reason (reason old);
         source := coalesce p_source (source old);
         notes := coalesce p_notes (notes old);
         created_at := created_at old;
         updated_at := Some now |}
  end.

End BlocklistRows.

Section PipelineStateRows.
Context `{Engine}.
Import PipelineState.

(** The invariant the constraints maintain. *)
Definition singleton (t : list row) : Prop :=
  Forall (fun r => id r = Some 1) t ∧ (length t <= 1)%nat.

End PipelineStateRows.

(** ** Tables, constraints and columns *)

Section Footprint.
Context `{Engine}.

(** The result of a call that met no entity. *)
Definition no_entity : bulk_result :=
  {| inserted_count := 0; updated_count := 0; total_count := 0; errors := [] |}.

(** The number of rows of the table [b] writes. *)
Definition table_size (b : bulk_function) (d : database) : nat :=
  match b with
  | UpsertCreators => size (creators d)
  | UpsertProjects => size (projects d)
  | SyncCreatorOutreach => size (creator_outreach d)
  end.

(** [d'] is [d] with one row written under [k] in the table of [b]. *)
Definition written (b : bulk_function) (k : Z) (d d' : database) : Prop :=
  match b with
  | UpsertCreators => exists row, d' = set_creators (<[k := row]> (creators d)) d
  | UpsertProjects => exists row, d' = set_projects (<[k := row]> (projects d)) d
  | SyncCreatorOutreach =>
      exists row, d' = set_creator_outreach (<[k := row]> (creator_outreach d)) d
  end.

End Footprint.

Section Constraints.
Context `{Engine}.

(** A text fits a [VARCHAR(n)] column: it has [n] characters at most. *)
Definition fits (n : nat) (x : option string) : Prop :=
  forall s, x = Some s -> (char_length s <= n)%nat.

(** A unique index on [slug]: no two rows carry the same slug (NULLs are
    never equal). *)
Definition unique_slugs {R : Type} (slug : R -> option string) (t : gmap Z R) : Prop :=
  forall k1 k2 r1 r2 s,
    t !! k1 = Some r1 -> t !! k2 = Some r2 ->
    slug r1 = Some s -> slug r2 = Some s -> k1 = k2.

(** The declarations of [creators]: the primary key, [name NOT NULL] and
    the lengths of the [VARCHAR] columns. *)
Definition creators_row_ok (k : Z) (r : Creators.row) : Prop :=
  Creators.id r = Some k ∧ is_Some (Creators.name r) ∧
  fits 255 (Creators.slug r) ∧ fits 500 (Creators.name r) ∧
  fits 3 (Creators.chosen_currency r).

(** The declarations of [projects]: the primary key, the [NOT NULL]
    columns, [fk_creator] and the lengths of the [VARCHAR] columns. *)
Definition projects_row_ok (cs : gmap Z Creators.row) (k : Z) (r : Projects.row) : Prop :=
  Projects.id r = Some k ∧
  is_Some (Projects.slug r) ∧ is_Some (Projects.name r) ∧ is_Some (Projects.goal r) ∧
  is_Some (Projects.currency r) ∧ is_Some (Projects.country r) ∧
  is_Some (Projects.state r) ∧ is_Some (Projects.created_at_ks r) ∧
  (exists c, Projects.creator_id r = Some c ∧ is_Some (cs !! c)) ∧
  fits 500 (Projects.slug r) ∧ fits 1000 (Projects.name r) ∧
  fits 3 (Projects.currency r) ∧ fits 2 (Projects.country r) ∧
  fits 255 (Projects.country_displayable_name r) ∧ fits 50 (Projects.state r).

(** The declarations of [creator_outreach]: the primary key,
    [outreach_status NOT NULL], [fk_creator_outreach] and the lengths of
    the [VARCHAR] columns. *)
Definition outreach_row_ok (cs : gmap Z Creators.row) (k : Z) (r : Outreach.row) : Prop :=
  Outreach.creator_id r = Some k ∧ is_Some (Outreach.outreach_status r) ∧
  is_Some (cs !! k) ∧
  fits 50 (Outreach.outreach_status r) ∧ fits 50 (Outreach.contact_status r) ∧
  fits 50 (Outreach.contact_method r).

(** A database in which every declared constraint of the three tables
    holds. *)
Definition well_formed (d : database) : Prop :=
  map_Forall creators_row_ok (creators d) ∧
  unique_slugs Creators.slug (creators d) ∧
  map_Forall (projects_row_ok (creators d)) (projects d) ∧
  unique_slugs Projects.slug (projects d) ∧
  map_Forall (outreach_row_ok (creators d)) (creator_outreach d).

End Constraints.

Section OutreachColumns.
Context `{Engine}.

(** The columns of [creator_outreach] that neither the [SET] list of
    [sync_creator_outreach_bulk] nor a trigger names: the contact
    history, the tags, the follow-up and the profile URLs an operator
    keeps, and [created_at].  ([notes] is the eleventh; see C1.) *)
Definition operator_columns (r : Outreach.row) :=
  (Outreach.first_contacted_at r, Outreach.last_contacted_at r,
   Outreach.response_received_at r, Outreach.contact_method r, Outreach.tags r,
   Outreach.priority r, Outreach.follow_up_date r,
   (Outreach.instagram_url r, Outreach.facebook_url r, Outreach.twitter_url r,
    Outreach.linkedin_url r, Outreach.youtube_url r, Outreach.tiktok_url r,
    Outreach.other_urls r),
   Outreach.created_at r).

(** The creator a project or an outreach payload refers to. *)
Definition referenced_creator (x : jsonb) : option Z := (x ->> "creator_id") ≫= to_bigint.

End OutreachColumns.

Section OutreachMerge.
Context `{Engine}.

(** The five text columns a contact check fills. *)
Definition discovered_text (r : Outreach.row) :=
  (Outreach.email r, Outreach.email_source_url r, Outreach.contact_form_url r,
   Outreach.contact_error r, Outreach.site_hash r).

(** The same five, as a payload carries them. *)
Definition incoming_text (x : jsonb) :=
  (x ->> "email", x ->> "email_source_url", x ->> "contact_form_url",
   x ->> "contact_error", x ->> "site_hash").

(** [COALESCE], column by column. *)
Definition coalesce5 {A B C D E : Type}
    (new old : option A * option B * option C * option D * option E) :=
  let '(a, b, c, d, e) := new in
  let '(a', b', c', d', e') := old in
  (coalesce a a', coalesce b b', coalesce c c', coalesce d d', coalesce e e').

End OutreachMerge.

Section Restamp.
Context `{Engine}.


End Restamp.

Section Totals.

(** The total of a column of counts. *)
Definition total (counts : list Z) : Z := foldr Z.add 0 counts.

End Totals.

Section Ready.
Context `{Engine}.

(** An outreach row with a contact on record (an email that is not NULL,
    or a contact form) that nobody has contacted yet. *)
Definition ready (o : Outreach.row) : Prop :=
  (is_Some (Outreach.email o) ∨ Outreach.has_contact_form o = Some true) ∧
  Outreach.outreach_status o = Some "not_contacted".

#[global] Instance ready_dec (o : Outreach.row) : Decision (ready o).
Proof. unfold ready. apply _. Defined.

End Ready.

Section JsonColumns.
Context `{Engine}.

(** The [JSONB] columns of the row stored under [k] in the table [b]
    writes, and what a payload proposes for them. *)
Definition json_columns (b : bulk_function) (d : database) (k : Z)
    : option (list (option jsonb)) :=
  match b with
  | UpsertCreators =>
      (fun r => [Creators.avatar r; Creators.urls r; Creators.websites r]) <$> creators d !! k
  | UpsertProjects =>
      (fun r => [Projects.photo r; Projects.category r; Projects.location r;
                 Projects.profile r; Projects.urls r]) <$> projects d !! k
  | SyncCreatorOutreach => None
  end.

Definition incoming_json (b : bulk_function) (x : jsonb) : list (option jsonb) :=
  match b with
  | UpsertCreators =>
      [jget x "avatar"; jget x "urls"; coalesce (jget x "websites") (Some (JArray []))]
  | UpsertProjects =>
      [jget x "photo"; jget x "category"; jget x "location"; jget x "profile"; jget x "urls"]
  | SyncCreatorOutreach => []
  end.

End JsonColumns.

Section BlocklistKeys.
Context `{Engine}.

(** Every row of the blocklist is stored under its [domain], and that
    domain is in lower case. *)
Definition lower_case_keys (t : gmap string Blocklist.row) : Prop :=
  forall k r, t !! k = Some r -> Blocklist.domain r = Some k ∧ Blocklist.lower k = k.

End BlocklistKeys.

Section Stamps.
Context `{Engine}.

(** A row without the two time stamps a call takes from
    [CURRENT_TIMESTAMP], [created_at] and [updated_at]. *)
Definition unstamped_creator (r : Creators.row) : Creators.row :=
  {| Creators.id := Creators.id r;
     Creators.slug := Creators.slug r;
     Creators.name := Creators.name r;
     Creators.is_registered := Creators.is_registered r;
     Creators.is_email_verified := Creators.is_email_verified r;
     Creators.chosen_currency := Creators.chosen_currency r;
     Creators.is_superbacker := Creators.is_superbacker r;
     Creators.has_admin_message_badge := Creators.has_admin_message_badge r;
     Creators.ppo_has_action := Creators.ppo_has_action r;
     Creators.backing_action_count := Creators.backing_action_count r;
     Creators.avatar := Creators.avatar r;
     Creators.urls := Creators.urls r;
     Creators.websites := Creators.websites r;
     Creators.data_hash := Creators.data_hash r;
     Creators.created_at := None;
     Creators.updated_at := None |}.

Definition unstamped_project (r : Projects.row) : Projects.row :=
  {| Projects.id := Projects.id r;
     Projects.slug := Projects.slug r;
     Projects.name := Projects.name r;
     Projects.blurb := Projects.blurb r;
     Projects.goal := Projects.goal r;
     Projects.pledged := Projects.pledged r;
     Projects.backers_count := Projects.backers_count r;
     Projects.currency := Projects.currency r;
     Projects.country := Projects.country r;
     Projects.country_displayable_name := Projects.country_displayable_name r;
     Projects.location := Projects.location r;
     Projects.state := Projects.state r;
     Projects.state_changed_at := Projects.state_changed_at r;
     Projects.created_at_ks := Projects.created_at_ks r;
     Projects.launched_at := Projects.launched_at r;
     Projects.deadline := Projects.deadline r;
     Projects.creator_id := Projects.creator_id r;
     Projects.photo := Projects.photo r;
     Projects.category := Projects.category r;
     Projects.profile := Projects.profile r;
     Projects.urls := Projects.urls r;
     Projects.data_hash := Projects.data_hash r;
     Projects.created_at := None;
     Projects.updated_at := None |}.

Definition unstamped_outreach (r : Outreach.row) : Outreach.row :=
  {| Outreach.creator_id := Outreach.creator_id r;
     Outreach.outreach_status := Outreach.outreach_status r;
     Outreach.has_instagram := Outreach.has_instagram r;
     Outreach.has_facebook := Outreach.has_facebook r;
     Outreach.has_twitter := Outreach.has_twitter r;
     Outreach.has_youtube := Outreach.has_youtube r;
     Outreach.has_tiktok := Outreach.has_tiktok r;
     Outreach.has_linkedin := Outreach.has_linkedin r;
     Outreach.has_patreon := Outreach.has_patreon r;
     Outreach.has_discord := Outreach.has_discord r;
     Outreach.has_twitch := Outreach.has_twitch r;
     Outreach.has_bluesky := Outreach.has_bluesky r;
     Outreach.has_other_website := Outreach.has_other_website r;
     Outreach.email := Outreach.email r;
     Outreach.email_source_url := Outreach.email_source_url r;
     Outreach.has_contact_form := Outreach.has_contact_form r;
     Outreach.contact_form_url := Outreach.contact_form_url r;
     Outreach.last_contact_check_at := Outreach.last_contact_check_at r;
     Outreach.contact_status := Outreach.contact_status r;
     Outreach.contact_error := Outreach.contact_error r;
     Outreach.contact_attempts := Outreach.contact_attempts r;
     Outreach.site_hash := Outreach.site_hash r;
     Outreach.instagram_url := Outreach.instagram_url r;
     Outreach.facebook_url := Outreach.facebook_url r;
     Outreach.twitter_url := Outreach.twitter_url r;
     Outreach.linkedin_url := Outreach.linkedin_url r;
     Outreach.youtube_url := Outreach.youtube_url r;
     Outreach.tiktok_url := Outreach.tiktok_url r;
     Outreach.other_urls := Outreach.other_urls r;
     Outreach.first_contacted_at := Outreach.first_contacted_at r;
     Outreach.last_contacted_at := Outreach.last_contacted_at r;
     Outreach.response_received_at := Outreach.response_received_at r;
     Outreach.contact_method := Outreach.contact_method r;
     Outreach.notes := Outreach.notes r;
     Outreach.tags := Outreach.tags r;
     Outreach.priority := Outreach.priority r;
     Outreach.follow_up_date := Outreach.follow_up_date r;
     Outreach.created_at := None;
     Outreach.updated_at := None |}.

(** The database without those time stamps: two databases with the same
    [unstamped] hold the same rows up to [created_at] and [updated_at]. *)
Definition unstamped (d : database) : database :=
  {| creators := unstamped_creator <$> creators d;
     projects := unstamped_project <$> projects d;
     creator_outreach := unstamped_outreach <$> creator_outreach d |}.


End Stamps.

(** ** The data of the worked examples, on the reference engine *)

Section ExampleData.
Import Reference.

Definition t0 : timestamptz := "2026-01-01T00:00:00Z" : string.
Definition t1 : timestamptz := "2026-01-02T00:00:00Z" : string.

Definition creator (id name slug hash : string) : jsonb :=
  JObject [("id", JNumber id); ("name", JString name); ("slug", JString slug);
           ("data_hash", JString hash)].

(** A database with the creators 42 and 43 and no outreach row. *)
Definition two_creators : database :=
  (upsert_creators_bulk t0
     (Some (JArray [creator "42" "Ann" "ann" "h42"; creator "43" "Bob" "bob" "h43"]))
     Reference.empty).2.

(** The outreach row of creator 42 after a first contact check and an
    operator's edit of [outreach_status] and [notes]. *)
Definition partnership_row : Outreach.row :=
  {| Outreach.creator_id := Some 42;
     Outreach.outreach_status := Some "partnership";
     Outreach.has_instagram := Some false;
     Outreach.has_facebook := Some false;
     Outreach.has_twitter := Some false;
     Outreach.has_youtube := Some false;
     Outreach.has_tiktok := Some false;
     Outreach.has_linkedin := Some false;
     Outreach.has_patreon := Some false;
     Outreach.has_discord := Some false;
     Outreach.has_twitch := Some false;
     Outreach.has_bluesky := Some false;
     Outreach.has_other_website := Some true;
     Outreach.email := None;
     Outreach.email_source_url := None;
     Outreach.has_contact_form := Some true;
     Outreach.contact_form_url := Some "https://x.com/contact";
     Outreach.last_contact_check_at := Some t0;
     Outreach.contact_status := Some "completed";
     Outreach.contact_error := None;
     Outreach.contact_attempts := Some 1;
     Outreach.site_hash := Some "s1";
     Outreach.instagram_url := None;
     Outreach.facebook_url := None;
     Outreach.twitter_url := None;
     Outreach.linkedin_url := None;
     Outreach.youtube_url := None;
     Outreach.tiktok_url := None;
     Outreach.other_urls := None;
     Outreach.first_contacted_at := None;
     Outreach.last_contacted_at := None;
     Outreach.response_received_at := None;
     Outreach.contact_method := None;
     Outreach.notes := Some "call Tuesday";
     Outreach.tags := Some [];
     Outreach.priority := Some 0;
     Outreach.follow_up_date := None;
     Outreach.created_at := Some t0;
     Outreach.updated_at := Some t0 |}.

Definition with_partnership : database :=
  set_creator_outreach {[ 42 := partnership_row ]} two_creators.

(** A sync payload for creator 42: the default status, an email, no
    notes, no contact form. *)
Definition email_only : jsonb :=
  JObject [("creator_id", JNumber "42"); ("outreach_status", JString "not_contacted");
           ("email", JString "a@b.com")].

(** A batch that carries the creator 1 twice, with two hashes. *)
Definition twice_creator_1 : option jsonb :=
  Some (JArray [creator "1" "Ann" "ann" "h1"; creator "1" "Ann B" "ann" "h2"]).

(** A creator without a [name]. *)
Definition nameless : jsonb := JObject [("id", JNumber "2"); ("data_hash", JString "h2")].

(** A project payload with the columns [projects] requires. *)
Definition project (id creator_id name slug hash : string) : jsonb :=
  JObject [("id", JNumber id); ("creator_id", JNumber creator_id);
           ("name", JString name); ("slug", JString slug); ("state", JString "live");
           ("country", JString "US"); ("currency", JString "USD");
           ("goal", JNumber "1000"); ("created_at_ks", JString "2026-01-01T00:00:00Z");
           ("data_hash", JString hash)].

(** The database of the partnership example with two projects of
    creator 42. *)
Definition with_projects : database :=
  (upsert_projects_bulk t0
     (Some (JArray [project "7" "42" "Lamp" "lamp" "p7"; project "8" "42" "Desk" "desk" "p8"]))
     with_partnership).2.

(** A first contact check for creator 43 that found an email. *)
Definition found_email : jsonb :=
  JObject [("creator_id", JNumber "43"); ("email", JString "bob@example.org");
           ("contact_status", JString "completed")].

Definition with_found_email : database :=
  (sync_creator_outreach_bulk t1 (Some (JArray [found_email])) with_projects).2.

(** A creator payload without an id, one without a hash for creator 42,
    and one whose [websites] is JSON null. *)
Definition without_id : jsonb := JObject [("name", JString "Ann")].

Definition without_hash : jsonb := JObject [("id", JNumber "42"); ("name", JString "Zed")].

Definition null_websites : jsonb :=
  JObject [("id", JNumber "42"); ("name", JString "Ann"); ("slug", JString "ann");
           ("data_hash", JString "h99"); ("websites", JNull)].

(** An outreach payload with a contact history and tags of its own. *)
Definition with_history : jsonb :=
  JObject [("creator_id", JNumber "42"); ("tags", JArray [JString "vip"]);
           ("first_contacted_at", JString "2026-01-05T00:00:00Z")].

(** A batch for the database [two_creators]: a new creator, creator 42
    with a new hash, creator 43 with the stored hash, and a creator
    without a name. *)
Definition mixed_batch : list jsonb :=
  [creator "44" "Cy" "cy" "h44"; creator "42" "Ann" "ann" "new";
   creator "43" "Bob" "bob" "h43"; nameless].

End ExampleData.

(** * Properties *)

(** Two proof steps used throughout: running the statements of a loop
    body from a fresh frame, and splitting a chain of binds in [outcome]
    at every expression that may raise. *)
Ltac run_body :=
  unfold mbind, plpgsql_bind, mret, plpgsql_ret, incr_total, incr_inserted,
    incr_updated, eval, query, exec, zero; simpl.

Ltac split_binds :=
  unfold mbind, outcome_bind, mret, outcome_ret;
  repeat match goal with
         | |- context [match ?o with Ok _ => _ | Raise _ => _ end] =>
             destruct o eqn:?; try discriminate
         end.


(** ** The loop of a bulk function *)

Section LoopFacts.
Context `{Engine}.

Lemma upsert_creators_bulk_loop now :
  upsert_creators_bulk now = bulk "creator_id" (fun c => c ->> "id") (creators_body now).
Proof. reflexivity. Qed.

Lemma upsert_projects_bulk_loop now :
  upsert_projects_bulk now = bulk "project_id" (fun p => p ->> "id") (projects_body now).
Proof. reflexivity. Qed.

Lemma sync_creator_outreach_bulk_loop now :
  sync_creator_outreach_bulk now =
  bulk "creator_id" (fun o => o ->> "creator_id") (outreach_body now).
Proof. reflexivity. Qed.

Lemma frame_eq (s t : frame) :
  db s = db t -> v_inserted s = v_inserted t -> v_updated s = v_updated t ->
  v_total s = v_total t -> v_errors s = v_errors t -> s = t.
Proof. destruct s, t; simpl; intros; subst; reflexivity. Qed.

Lemma shift_zero st : shift st (zero (db st)) = st.
Proof. apply frame_eq; simpl; auto using app_nil_r with lia. Qed.

Lemma shift_assoc a b c : shift (shift a b) c = shift a (shift b c).
Proof. apply frame_eq; simpl; auto using app_assoc with lia. Qed.

Lemma zero_shift d acc : shift (zero d) acc = acc.
Proof. apply frame_eq; simpl; auto with lia. Qed.

#[local] Ltac uniform_atom :=
  intros st; unfold mret, plpgsql_ret; simpl; f_equal;
  apply frame_eq; simpl; auto using app_nil_r with lia.

#[global] Instance uniform_ret {A : Type} (a : A) : Uniform (mret a).
Proof. uniform_atom. Qed.

#[global] Instance uniform_eval {A : Type} (o : outcome A) : Uniform (eval o).
Proof. unfold eval. uniform_atom. Qed.

#[global] Instance uniform_query {A : Type} (q : database -> A) : Uniform (query q).
Proof. unfold query. uniform_atom. Qed.

#[global] Instance uniform_exec stmt : Uniform (exec stmt).
Proof.
  intros st. unfold exec. simpl. destruct (stmt (db st)); simpl; f_equal;
    apply frame_eq; simpl; auto using app_nil_r with lia.
Qed.

#[global] Instance uniform_incr_total : Uniform incr_total.
Proof. unfold incr_total. uniform_atom. Qed.

#[global] Instance uniform_incr_inserted : Uniform incr_inserted.
Proof. unfold incr_inserted. uniform_atom. Qed.

#[global] Instance uniform_incr_updated : Uniform incr_updated.
Proof. unfold incr_updated. uniform_atom. Qed.

#[global] Instance uniform_append_error key id e : Uniform (append_error key id e).
Proof. unfold append_error. uniform_atom. Qed.

#[global] Instance uniform_bind {A B : Type} (m : plpgsql A) (f : A -> plpgsql B) :
  Uniform m -> (forall a, Uniform (f a)) -> Uniform (m ≫= f).
Proof.
  intros Hm Hf st. unfold mbind, plpgsql_bind.
  rewrite (Hm st). destruct (m (zero (db st))) as [[a|e] z1]; simpl; [|reflexivity].
  rewrite (Hf a (shift st z1)), (Hf a z1). simpl.
  by rewrite shift_assoc.
Qed.

#[global] Instance uniform_if {A : Type} (b : bool) (m1 m2 : plpgsql A) :
  Uniform m1 -> Uniform m2 -> Uniform (if b then m1 else m2).
Proof. by destruct b. Qed.

#[global] Instance uniform_block body handler :
  Uniform body -> (forall e, Uniform (handler e)) -> Uniform (block body handler).
Proof.
  intros Hb Hh st. unfold block.
  rewrite (Hb st). destruct (body (zero (db st))) as [[a|e] z1]; simpl; [reflexivity|].
  match goal with |- handler e ?F = (?o, shift st (handler e ?G).2) =>
    rewrite (Hh e F), (Hh e G); simpl; f_equal; rewrite <- shift_assoc; f_equal
  end.
Qed.

#[global] Instance uniform_for_each items body :
  (forall x, Uniform (body x)) -> Uniform (for_each items body).
Proof. intros Hb. induction items; simpl; apply _. Qed.

#[global] Instance uniform_iteration key idf body x :
  (forall y, Uniform (body y)) -> Uniform (iteration key idf body x).
Proof. intros Hb. unfold iteration. apply _. Qed.

#[global] Instance uniform_creators_body now creator : Uniform (creators_body now creator).
Proof. unfold creators_body. cbv zeta. apply _. Qed.

#[global] Instance uniform_projects_body now project : Uniform (projects_body now project).
Proof. unfold projects_body. cbv zeta. apply _. Qed.

#[global] Instance uniform_outreach_body now outreach : Uniform (outreach_body now outreach).
Proof. unfold outreach_body. apply _. Qed.

End LoopFacts.

Section RunFacts.
Context `{Engine}.
Variable key : string.
Variable idf : jsonb -> option string.
Variable body : jsonb -> plpgsql unit.
Context {body_uniform : forall x, Uniform (body x)}.

Lemma iteration_ok x st : (iteration key idf body x st).1 = Ok ().
Proof.
  unfold iteration, block. destruct (body x st) as [[[]|e] st']; reflexivity.
Qed.

Lemma iteration_shift x st :
  iteration key idf body x st = (Ok (), shift st (single key idf body x (db st))).
Proof.
  rewrite (uniform (m := iteration key idf body x) st). unfold single.
  by rewrite iteration_ok.
Qed.

Lemma for_each_shift items st :
  for_each items (iteration key idf body) st
  = (Ok (), shift st (run key idf body items (db st))).
Proof.
  revert st. induction items as [|x rest IH]; intros st; simpl.
  - unfold mret, plpgsql_ret. by rewrite shift_zero.
  - unfold mbind, plpgsql_bind. rewrite iteration_shift, IH. simpl.
    by rewrite shift_assoc.
Qed.

Lemma bulk_array data items d :
  jsonb_array_elements data = Ok items ->
  bulk key idf body data d
  = (Ok (report (run key idf body items d)), db (run key idf body items d)).
Proof.
  intros Hdata. unfold bulk, call, for_loop, eval, return_query, mbind, plpgsql_bind.
  rewrite Hdata. fold (zero d). rewrite for_each_shift. simpl.
  by rewrite !Z.add_0_l.
Qed.

Lemma bulk_not_array data e d :
  jsonb_array_elements data = Raise e -> bulk key idf body data d = (Raise e, d).
Proof.
  intros Hdata. unfold bulk, call, for_loop, eval, return_query, mbind, plpgsql_bind.
  by rewrite Hdata.
Qed.

Lemma run_app xs ys d :
  run key idf body (xs ++ ys) d
  = shift (run key idf body xs d) (run key idf body ys (db (run key idf body xs d))).
Proof.
  revert d. induction xs as [|x xs IH]; intros d; simpl.
  - by rewrite zero_shift.
  - by rewrite IH, shift_assoc.
Qed.

Lemma run_single x d : run key idf body [x] d = single key idf body x d.
Proof. simpl. by rewrite shift_zero. Qed.

Context {body_counting : Counting body}.

Lemma single_cases x d :
  (exists d', single key idf body x d = {| db := d'; v_inserted := 1; v_updated := 0;
                             v_total := 1; v_errors := [] |}) ∨
  (exists d', single key idf body x d = {| db := d'; v_inserted := 0; v_updated := 1;
                             v_total := 1; v_errors := [] |}) ∨
  single key idf body x d = {| db := d; v_inserted := 0; v_updated := 0;
                  v_total := 1; v_errors := [] |} ∨
  (exists e, (body x (zero d)).1 = Raise e ∧
     single key idf body x d = {| db := d; v_inserted := 0; v_updated := 0; v_total := 1;
                     v_errors := [{| entity_key := key; entity_id := idf x; error := e |}] |}).
Proof.
  unfold single, iteration, block. destruct (counting x d); simpl; eauto 6.
Qed.

(** The report of a batch is the tally of the fates of its entities. *)
Lemma run_tally items d :
  let st := run key idf body items d in
  let tr := fates key idf body items d in
  v_inserted st = tally is_inserted tr ∧
  v_updated st = tally is_updated tr ∧
  v_total st = Z.of_nat (length items) ∧
  v_errors st = failures key idf tr ∧
  v_total st - v_inserted st - v_updated st - Z.of_nat (length (v_errors st))
    = tally is_unchanged tr ∧
  Z.of_nat (length (v_errors st)) = tally is_failed tr.
Proof.
  cbn zeta.
  revert d. induction items as [|x rest IH]; intros d.
  - unfold tally. simpl. repeat split; reflexivity.
  - specialize (IH (db (single key idf body x d))).
    destruct IH as (Hi & Hu & Ht & He & Hn & Hf).
    rewrite He in Hn, Hf. rewrite Hi, Hu, Ht in Hn.
    cbn [run fates failures]. unfold fate_of, tally in *.
    destruct (single_cases x d) as [[d' Hs]|[[d' Hs]|[Hs|[e [_ Hs]]]]];
      rewrite Hs in *; cbn -[Z.of_nat] in *;
      repeat (case_decide; try lia); cbn -[Z.of_nat] in *;
      rewrite ?Hi, ?Hu, ?Ht, ?He; repeat split; try reflexivity; lia.
Qed.

End RunFacts.

Section Bodies.
Context `{Engine}.

#[global] Instance counting_creators_body now : Counting (creators_body now).
Proof.
  intros x d. unfold creators_body. run_body.
  destruct (cast "bigint" to_bigint (x ->> "id")) as [k|e]; [|apply unit_failed].
  destruct (changed _ _ _); simpl; [|apply unit_unchanged].
  destruct (creators_insert now x _ d) as [d'|e]; simpl; [|apply unit_failed].
  destruct (holds _); [apply unit_updated|apply unit_inserted].
Qed.

#[global] Instance counting_projects_body now : Counting (projects_body now).
Proof.
  intros x d. unfold projects_body. run_body.
  destruct (cast "bigint" to_bigint (x ->> "id")) as [k|e]; [|apply unit_failed].
  destruct (changed _ _ _); simpl; [|apply unit_unchanged].
  destruct (projects_insert now x _ d) as [d'|e]; simpl; [|apply unit_failed].
  destruct (holds _); [apply unit_updated|apply unit_inserted].
Qed.

#[global] Instance counting_outreach_body now : Counting (outreach_body now).
Proof.
  intros x d. unfold outreach_body. run_body.
  destruct (cast "bigint" to_bigint (x ->> "creator_id")) as [k|e]; [|apply unit_failed].
  destruct (outreach_insert now x d) as [d'|e]; simpl; [|apply unit_failed].
  destruct (bool_decide _); [apply unit_updated|apply unit_inserted].
Qed.

End Bodies.

Section Isolation.
Context `{Engine}.
Variable key : string.
Variable idf : jsonb -> option string.
Variable body : jsonb -> plpgsql unit.
Context {body_uniform : forall x, Uniform (body x)}.
Context {body_counting : Counting body}.

Lemma single_failed x d e :
  (body x (zero d)).1 = Raise e ->
  single key idf body x d =
  {| db := d; v_inserted := 0; v_updated := 0; v_total := 1;
     v_errors := [{| entity_key := key; entity_id := idf x; error := e |}] |}.
Proof.
  intros Hraise. unfold single, iteration, block.
  destruct (counting x d); simpl in *; try discriminate.
  by injection Hraise as ->.
Qed.

Lemma fate_failed x d e :
  (body x (zero d)).1 = Raise e -> fate_of key idf body x d = Failed e.
Proof. intros Hraise. unfold fate_of. by rewrite (single_failed x d e Hraise). Qed.

(** A batch with a failing entity in the middle: the entity is reported,
    and the database and the counts of written entities are those of the
    batch without it. *)
Lemma run_skip_failed pre bad post d e :
  (body bad (zero (db (run key idf body pre d)))).1 = Raise e ->
  let with_bad := run key idf body (pre ++ bad :: post) d in
  let without := run key idf body (pre ++ post) d in
  db with_bad = db without ∧
  v_inserted with_bad = v_inserted without ∧
  v_updated with_bad = v_updated without ∧
  v_total with_bad = v_total without + 1 ∧
  v_errors with_bad =
    v_errors (run key idf body pre d)
    ++ {| entity_key := key; entity_id := idf bad; error := e |}
    :: v_errors (run key idf body post (db (run key idf body pre d))).
Proof.
  intros Hraise. cbn zeta. rewrite !(run_app key idf body). cbn [run].
  rewrite (single_failed _ _ _ Hraise). simpl. repeat split; lia.
Qed.

End Isolation.

Section NamedFacts.
Context `{Engine}.

Lemma bulk_call_loop b now :
  bulk_call b now = bulk (id_key b) (id_text b) (bulk_body b now).
Proof. destruct b; reflexivity. Qed.

#[global] Instance uniform_bulk_body b now x : Uniform (bulk_body b now x).
Proof. destruct b; apply _. Qed.

#[global] Instance counting_bulk_body b now : Counting (bulk_body b now).
Proof. destruct b; apply _. Qed.

Lemma bulk_call_array b now items d :
  bulk_call b now (Some (JArray items)) d =
  (Ok (report (run (id_key b) (id_text b) (bulk_body b now) items d)),
   db (run (id_key b) (id_text b) (bulk_body b now) items d)).
Proof.
  rewrite bulk_call_loop.
  by apply (bulk_array (id_key b) (id_text b) (bulk_body b now)).
Qed.

(** A call on anything but an array (or NULL, which is an empty batch)
    raises before the first iteration and writes nothing. *)
Lemma bulk_call_not_array b now data e d :
  jsonb_array_elements data = Raise e -> bulk_call b now data d = (Raise e, d).
Proof.
  intros. rewrite bulk_call_loop.
  by apply (bulk_not_array (id_key b) (id_text b) (bulk_body b now)).
Qed.

End NamedFacts.

Section Invariants.
Context `{Engine}.

(** A property of the database that every iteration keeps holds after the
    loop, and after the call, whatever the argument. *)
Lemma run_invariant key idf body (P : database -> Prop) :
  (forall x d, P d -> P (db (single key idf body x d))) ->
  forall items d, P d -> P (db (run key idf body items d)).
Proof.
  intros Hstep items. induction items as [|x rest IH]; intros d Hd; simpl; auto.
Qed.

Lemma bulk_call_invariant b now (P : database -> Prop) :
  (forall x d, P d -> P (db (single (id_key b) (id_text b) (bulk_body b now) x d))) ->
  forall data d, P d -> P (bulk_call b now data d).2.
Proof.
  intros Hstep data d Hd.
  destruct (jsonb_array_elements data) as [items|e] eqn:Hdata.
  - rewrite bulk_call_loop, (bulk_array _ _ _ data items d Hdata). simpl.
    by apply run_invariant.
  - by rewrite (bulk_call_not_array b now data e d Hdata).
Qed.

(** The database after one iteration is the one before it, or the one
    the [INSERT ... ON CONFLICT] statement produced. *)
Lemma creators_single_db now x d :
  let d' := db (single "creator_id" (fun c => c ->> "id") (creators_body now) x d) in
  d' = d ∨ creators_insert now x (x ->> "data_hash") d = Ok d'.
Proof.
  unfold single, iteration, block, append_error, creators_body. run_body.
  destruct (cast "bigint" to_bigint (x ->> "id")) as [k|e]; simpl; auto.
  destruct (changed _ _ _); simpl; auto.
  destruct (creators_insert now x _ d) as [d'|e]; simpl; auto.
  destruct (holds _); simpl; auto.
Qed.

Lemma projects_single_db now x d :
  let d' := db (single "project_id" (fun p => p ->> "id") (projects_body now) x d) in
  d' = d ∨ projects_insert now x (x ->> "data_hash") d = Ok d'.
Proof.
  unfold single, iteration, block, append_error, projects_body. run_body.
  destruct (cast "bigint" to_bigint (x ->> "id")) as [k|e]; simpl; auto.
  destruct (changed _ _ _); simpl; auto.
  destruct (projects_insert now x _ d) as [d'|e]; simpl; auto.
  destruct (holds _); simpl; auto.
Qed.

Lemma outreach_single_db now x d :
  let d' := db (single "creator_id" (fun o => o ->> "creator_id") (outreach_body now) x d) in
  d' = d ∨ outreach_insert now x d = Ok d'.
Proof.
  unfold single, iteration, block, append_error, outreach_body. run_body.
  destruct (cast "bigint" to_bigint (x ->> "creator_id")) as [k|e]; simpl; auto.
  destruct (outreach_insert now x d) as [d'|e]; simpl; auto.
  destruct (bool_decide _); simpl; auto.
Qed.

(** What a successful [INSERT ... ON CONFLICT (creator_id) DO UPDATE]
    wrote: one row, the proposed one when the key was free, the merge of
    the stored row with it otherwise. *)
Lemma outreach_insert_inv now x d d' :
  outreach_insert now x d = Ok d' ->
  exists excluded k,
    outreach_values now x = Ok excluded ∧
    Outreach.creator_id excluded = Some k ∧
    d' = set_creator_outreach
           (<[k := match creator_outreach d !! k with
                   | None => excluded
                   | Some old =>
                       Outreach.update_updated_at_column now
                         (outreach_do_update old excluded)
                   end]> (creator_outreach d)) d.
Proof.
  unfold outreach_insert, mbind, outcome_bind, mret, outcome_ret.
  destruct (outreach_values now x) as [excluded|e]; [|discriminate].
  unfold Outreach.check_not_null at 1.
  destruct (Outreach.creator_id excluded) as [k|] eqn:Hk; [|discriminate].
  destruct (Outreach.outreach_status excluded); [|discriminate].
  destruct (creator_outreach d !! k) as [old|] eqn:Hold.
  - destruct (Outreach.check_not_null _); [|discriminate].
    intros [= <-]. exists excluded, k. by rewrite Hold.
  - destruct (Outreach.check_foreign_key _ _); [|discriminate].
    intros [= <-]. exists excluded, k. by rewrite Hold.
Qed.

End Invariants.

Section ManualState.
Context `{Engine}.

Lemma status_is_default (s : option string) :
  holds (eq3 s (Some "not_contacted")) = bool_decide (s = Some "not_contacted").
Proof.
  destruct s as [s|]; simpl; [|done].
  destruct (decide (s = "not_contacted")) as [->|Hne]; [done|].
  rewrite !bool_decide_eq_false_2; congruence.
Qed.

(** The merge of a payload into a stored row. *)
Lemma outreach_do_update_manual (stored excluded : Outreach.row) :
  Outreach.notes (outreach_do_update stored excluded) = Outreach.notes stored ∧
  Outreach.outreach_status (outreach_do_update stored excluded) =
    if decide (Outreach.outreach_status stored = Some "not_contacted")
    then Outreach.outreach_status excluded
    else Outreach.outreach_status stored.
Proof.
  split; [reflexivity|]. simpl. rewrite status_is_default.
  destruct (decide _); [by rewrite bool_decide_eq_true_2|by rewrite bool_decide_eq_false_2].
Qed.

(** What one statement does to a row that is already stored. *)
Lemma outreach_insert_manual now x d d' key stored :
  outreach_insert now x d = Ok d' ->
  creator_outreach d !! key = Some stored ->
  exists row',
    creator_outreach d' !! key = Some row' ∧
    Outreach.notes row' = Outreach.notes stored ∧
    (Outreach.outreach_status stored ≠ Some "not_contacted" ->
     Outreach.outreach_status row' = Outreach.outreach_status stored).
Proof.
  intros (excluded & k & _ & _ & ->)%outreach_insert_inv Hstored. simpl.
  destruct (decide (k = key)) as [->|Hne].
  - rewrite lookup_insert_eq, Hstored. eexists. split; [reflexivity|].
    destruct (outreach_do_update_manual stored excluded) as [Hnotes Hstatus].
    split; [exact Hnotes|]. intros Hmanual.
    change (Outreach.outreach_status (outreach_do_update stored excluded)
            = Outreach.outreach_status stored).
    rewrite Hstatus. by destruct (decide _).
  - rewrite lookup_insert_ne by done. eauto.
Qed.

(** C1: for every row of [creator_outreach] that exists when
    [sync_creator_outreach_bulk] is called, the merge of a payload takes
    the incoming [outreach_status] only when the stored one is
    ['not_contacted'] and never writes [notes]; so after the call, whatever
    the batch, the row is still there with its [notes], and with its
    [outreach_status] when that was anything but ['not_contacted']. *)
Theorem manual_outreach_state_is_preserved (now : timestamptz)
    (outreach_data : option jsonb) (d : database) (key : Z) (stored : Outreach.row) :
  creator_outreach d !! key = Some stored ->
  (forall excluded : Outreach.row,
     Outreach.notes (outreach_do_update stored excluded) = Outreach.notes stored ∧
     Outreach.outreach_status (outreach_do_update stored excluded) =
       if decide (Outreach.outreach_status stored = Some "not_contacted")
       then Outreach.outreach_status excluded
       else Outreach.outreach_status stored) ∧
  exists row' : Outreach.row,
    creator_outreach (sync_creator_outreach_bulk now outreach_data d).2 !! key = Some row' ∧
    Outreach.notes row' = Outreach.notes stored ∧
    (Outreach.outreach_status stored ≠ Some "not_contacted" ->
     Outreach.outreach_status row' = Outreach.outreach_status stored).
Proof.
  intros Hstored. split; [apply outreach_do_update_manual|].
  apply (bulk_call_invariant SyncCreatorOutreach now
    (fun d0 => exists row', creator_outreach d0 !! key = Some row' ∧
       Outreach.notes row' = Outreach.notes stored ∧
       (Outreach.outreach_status stored ≠ Some "not_contacted" ->
        Outreach.outreach_status row' = Outreach.outreach_status stored))).
  - intros x d0 (row0 & Hrow0 & Hnotes0 & Hstatus0).
    change (single _ _ _ x d0)
      with (single "creator_id" (fun o => o ->> "creator_id") (outreach_body now) x d0).
    destruct (outreach_single_db now x d0) as [->|Hins]; [by eauto|].
    destruct (outreach_insert_manual now x d0 _ key row0 Hins Hrow0)
      as (row1 & Hrow1 & Hnotes1 & Hstatus1).
    exists row1. split; [exact Hrow1|]. split; [congruence|].
    intros Hmanual. rewrite <- (Hstatus0 Hmanual). apply Hstatus1.
    by rewrite (Hstatus0 Hmanual).
  - eauto.
Qed.

End ManualState.

(** ** The hash guard of [upsert_creators_bulk] and [upsert_projects_bulk] *)

Section HashGuardInversion.
Context `{Engine}.

Lemma cast_bigint_id x k :
  cast "bigint" to_bigint (x ->> "id") = Ok (Some k) <-> parsed_id x = Some k.
Proof.
  unfold cast, parsed_id. destruct (x ->> "id") as [s|]; simpl; [|split; discriminate].
  destruct (to_bigint s); split; congruence.
Qed.

Lemma creators_values_inv now x h excluded :
  creators_values now x h = Ok excluded ->
  cast "bigint" to_bigint (x ->> "id") = Ok (Creators.id excluded) ∧
  Creators.data_hash excluded = h.
Proof.
  unfold creators_values. split_binds. intros [= <-]. simpl. by split.
Qed.

Lemma projects_values_inv now x h excluded :
  projects_values now x h = Ok excluded ->
  cast "bigint" to_bigint (x ->> "id") = Ok (Projects.id excluded) ∧
  Projects.data_hash excluded = h.
Proof.
  unfold projects_values. split_binds. intros [= <-]. simpl. by split.
Qed.

(** A successful statement wrote one row, under the id of the entity,
    and the row carries the incoming hash. *)
Lemma creators_insert_inv now x h d d' :
  creators_insert now x h d = Ok d' ->
  exists k row,
    parsed_id x = Some k ∧ Creators.data_hash row = h ∧
    d' = set_creators (<[k := row]> (creators d)) d.
Proof.
  unfold creators_insert, mbind, outcome_bind, mret, outcome_ret.
  destruct (creators_values now x h) as [excluded|e] eqn:Hvalues; [|discriminate].
  apply creators_values_inv in Hvalues as [Hid Hhash].
  unfold Creators.check_not_null at 1.
  destruct (Creators.id excluded) as [k|] eqn:Hk; [|discriminate].
  apply cast_bigint_id in Hid.
  destruct (Creators.name excluded); [|discriminate].
  destruct (creators d !! k) as [old|].
  - destruct (Creators.check_not_null _); [|discriminate].
    destruct (Creators.check_unique _ _ _); [|discriminate].
    intros [= <-]. eexists k, _. split; [done|]. split; [|reflexivity]. done.
  - destruct (Creators.check_unique _ _ _); [|discriminate].
    intros [= <-]. eexists k, _. split; [done|]. split; [|reflexivity]. done.
Qed.

Lemma projects_insert_inv now x h d d' :
  projects_insert now x h d = Ok d' ->
  exists k row,
    parsed_id x = Some k ∧ Projects.data_hash row = h ∧
    d' = set_projects (<[k := row]> (projects d)) d.
Proof.
  unfold projects_insert, mbind, outcome_bind, mret, outcome_ret.
  destruct (projects_values now x h) as [excluded|e] eqn:Hvalues; [|discriminate].
  apply projects_values_inv in Hvalues as [Hid Hhash].
  destruct (Projects.check_not_null excluded) as [k|] eqn:Hcheck; [|discriminate].
  assert (Projects.id excluded = Some k) as Hk.
  { unfold Projects.check_not_null, mbind, outcome_bind in Hcheck.
    destruct (Projects.id excluded); [|discriminate].
    repeat match type of Hcheck with
           | match ?o with Ok _ => _ | Raise _ => _ end = _ =>
               destruct o; try discriminate
           end.
    congruence. }
  rewrite Hk in Hid. apply cast_bigint_id in Hid.
  destruct (projects d !! k) as [old|].
  - set (new := Projects.update_updated_at_column now (projects_do_update now old excluded)).
    destruct (Projects.check_not_null new); [|discriminate].
    destruct (Projects.check_unique _ _ new); [|discriminate].
    destruct (Projects.check_foreign_key _ new); [|discriminate].
    intros [= <-]. eexists k, _. split; [done|]. split; [|reflexivity]. done.
  - destruct (Projects.check_unique _ _ _); [|discriminate].
    destruct (Projects.check_foreign_key _ _); [|discriminate].
    intros [= <-]. eexists k, _. split; [done|]. split; [|reflexivity]. done.
Qed.

End HashGuardInversion.

Section HashGuardFacts.
Context `{Engine}.

Lemma changed_same_hash (h : string) :
  changed (Some true) (Some h) (Some h) = false.
Proof. unfold changed. simpl. by rewrite bool_decide_eq_true_2. Qed.

Lemma unchanged_hash (v_exists : option bool) (stored : option string) (h : string) :
  changed v_exists stored (Some h) = false -> stored = Some h.
Proof.
  unfold changed. destruct v_exists as [[]|], stored as [h'|]; simpl; try discriminate;
    (destruct (decide (h' = h)) as [->|Hne]; [done|]);
    by rewrite bool_decide_eq_false_2.
Qed.

(** An entity whose incoming hash is the stored one: the iteration
    writes nothing and counts one more entity in [v_total] only. *)
Lemma single_skip b now x d key h :
  hash_guarded b ->
  parsed_id x = Some key ->
  stored_hash b d key = Some (Some h) ->
  x ->> "data_hash" = Some h ->
  single (id_key b) (id_text b) (bulk_body b now) x d =
  {| db := d; v_inserted := 0; v_updated := 0; v_total := 1; v_errors := [] |}.
Proof.
  intros [-> | ->] Hid%cast_bigint_id Hstored Hhash; simpl in Hstored;
    unfold single, iteration, block, append_error; simpl;
    unfold creators_body, projects_body; run_body;
    rewrite Hid, Hhash; simpl;
    unfold creators_select, projects_select; simpl.
  - destruct (creators d !! key) as [r|]; [|discriminate]. simpl in *.
    injection Hstored as ->. by rewrite changed_same_hash.
  - destruct (projects d !! key) as [r|]; [|discriminate]. simpl in *.
    injection Hstored as ->. by rewrite changed_same_hash.
Qed.

(** An iteration writes at most the row of the id of its entity, and a
    row it writes carries the incoming hash. *)
Lemma single_written b now x d :
  hash_guarded b ->
  let d' := db (single (id_key b) (id_text b) (bulk_body b now) x d) in
  d' = d ∨
  exists k, parsed_id x = Some k ∧
    stored_hash b d' k = Some (x ->> "data_hash") ∧
    forall k', k' ≠ k -> stored_hash b d' k' = stored_hash b d k'.
Proof.
  intros [-> | ->]; cbn zeta.
  - destruct (creators_single_db now x d) as [Hsame|Hins]; [by left|].
    right. apply creators_insert_inv in Hins as (k & row & Hid & Hhash & Hd').
    exists k. split; [done|].
    change (single (id_key UpsertCreators) (id_text UpsertCreators)
              (bulk_body UpsertCreators now) x d)
      with (single "creator_id" (fun c => c ->> "id") (creators_body now) x d).
    rewrite Hd'. simpl. split.
    + by rewrite lookup_insert_eq; simpl; rewrite Hhash.
    + intros k' Hne. by rewrite lookup_insert_ne.
  - destruct (projects_single_db now x d) as [Hsame|Hins]; [by left|].
    right. apply projects_insert_inv in Hins as (k & row & Hid & Hhash & Hd').
    exists k. split; [done|].
    change (single (id_key UpsertProjects) (id_text UpsertProjects)
              (bulk_body UpsertProjects now) x d)
      with (single "project_id" (fun p => p ->> "id") (projects_body now) x d).
    rewrite Hd'. simpl. split.
    + by rewrite lookup_insert_eq; simpl; rewrite Hhash.
    + intros k' Hne. by rewrite lookup_insert_ne.
Qed.

Lemma single_other b now x d k :
  hash_guarded b ->
  parsed_id x ≠ Some k ->
  stored_hash b (db (single (id_key b) (id_text b) (bulk_body b now) x d)) k
  = stored_hash b d k.
Proof.
  intros Hb Hne. destruct (single_written b now x d Hb) as [->|(k0 & Hid & _ & Hother)].
  - reflexivity.
  - apply Hother. congruence.
Qed.

End HashGuardFacts.

Section Rerun.
Context `{Engine}.

(** An iteration that records no error leaves the incoming hash stored
    under the id of its entity: it wrote the row, or the hash was there. *)
Lemma creators_single_no_error now x d h :
  x ->> "data_hash" = Some h ->
  v_errors (single "creator_id" (fun c => c ->> "id") (creators_body now) x d) = [] ->
  exists k, parsed_id x = Some k ∧
    stored_hash UpsertCreators
      (db (single "creator_id" (fun c => c ->> "id") (creators_body now) x d)) k
    = Some (Some h).
Proof.
  intros Hhash. unfold single, iteration, block, append_error, creators_body. run_body.
  rewrite Hhash.
  destruct (cast "bigint" to_bigint (x ->> "id")) as [x_id|e] eqn:Hcast; simpl;
    [|discriminate].
  destruct (changed _ _ _) eqn:Hchanged; simpl.
  - destruct (creators_insert now x (Some h) d) as [d'|e] eqn:Hins; simpl.
    + intros _. apply creators_insert_inv in Hins as (k & row & Hid & Hrow & ->).
      exists k. split; [done|].
      destruct (holds _); simpl; by rewrite lookup_insert_eq; simpl; rewrite Hrow.
    + discriminate.
  - intros _. apply unchanged_hash in Hchanged.
    unfold creators_select in Hchanged.
    destruct x_id as [k|]; simpl in Hchanged; [|discriminate].
    apply cast_bigint_id in Hcast. exists k. split; [done|]. simpl.
    destruct (creators d !! k) as [r|]; simpl in *; [by rewrite Hchanged|discriminate].
Qed.

Lemma projects_single_no_error now x d h :
  x ->> "data_hash" = Some h ->
  v_errors (single "project_id" (fun p => p ->> "id") (projects_body now) x d) = [] ->
  exists k, parsed_id x = Some k ∧
    stored_hash UpsertProjects
      (db (single "project_id" (fun p => p ->> "id") (projects_body now) x d)) k
    = Some (Some h).
Proof.
  intros Hhash. unfold single, iteration, block, append_error, projects_body. run_body.
  rewrite Hhash.
  destruct (cast "bigint" to_bigint (x ->> "id")) as [x_id|e] eqn:Hcast; simpl;
    [|discriminate].
  destruct (changed _ _ _) eqn:Hchanged; simpl.
  - destruct (projects_insert now x (Some h) d) as [d'|e] eqn:Hins; simpl.
    + intros _. apply projects_insert_inv in Hins as (k & row & Hid & Hrow & ->).
      exists k. split; [done|].
      destruct (holds _); simpl; by rewrite lookup_insert_eq; simpl; rewrite Hrow.
    + discriminate.
  - intros _. apply unchanged_hash in Hchanged.
    unfold projects_select in Hchanged.
    destruct x_id as [k|]; simpl in Hchanged; [|discriminate].
    apply cast_bigint_id in Hcast. exists k. split; [done|]. simpl.
    destruct (projects d !! k) as [r|]; simpl in *; [by rewrite Hchanged|discriminate].
Qed.

Lemma single_no_error b now x d h :
  hash_guarded b ->
  x ->> "data_hash" = Some h ->
  v_errors (single (id_key b) (id_text b) (bulk_body b now) x d) = [] ->
  exists k, parsed_id x = Some k ∧
    stored_hash b (db (single (id_key b) (id_text b) (bulk_body b now) x d)) k
    = Some (Some h).
Proof.
  intros [-> | ->]; [apply creators_single_no_error|apply projects_single_no_error].
Qed.

Lemma run_all_stored b now items d :
  hash_guarded b ->
  all_stored b items d ->
  run (id_key b) (id_text b) (bulk_body b now) items d =
  {| db := d; v_inserted := 0; v_updated := 0;
     v_total := Z.of_nat (length items); v_errors := [] |}.
Proof.
  intros Hb. induction items as [|x rest IH]; intros Hall; [reflexivity|].
  cbn [run].
  destruct (Hall x) as (k & h & Hid & Hhash & Hstored); [by left|].
  rewrite (single_skip b now x d k h Hb Hid Hstored Hhash). cbn [db].
  rewrite IH by (intros y Hy; apply Hall; by right).
  apply frame_eq; simpl; try done. lia.
Qed.

Lemma run_stores_hashes b now items d :
  hash_guarded b ->
  NoDup (parsed_id <$> items) ->
  Forall (fun x => is_Some (x ->> "data_hash")) items ->
  v_errors (run (id_key b) (id_text b) (bulk_body b now) items d) = [] ->
  all_stored b items (db (run (id_key b) (id_text b) (bulk_body b now) items d)).
Proof.
  intros Hb. revert d. induction items as [|x rest IH]; intros d Hnodup Hhashes Herrors.
  - intros x Hx. by apply elem_of_nil in Hx.
  - cbn [run] in *. cbn [v_errors shift db] in *.
    apply app_eq_nil in Herrors as [Herr1 Herr2].
    rewrite fmap_cons in Hnodup. apply NoDup_cons in Hnodup as [Hfresh Hnodup].
    apply Forall_cons in Hhashes as [[h Hhash] Hhashes].
    specialize (IH _ Hnodup Hhashes Herr2).
    intros y [->|Hy]%elem_of_cons; [|by apply IH].
    destruct (single_no_error b now x d h Hb Hhash Herr1) as (k & Hid & Hstored).
    exists k, h. split; [done|]. split; [done|].
    rewrite <- Hstored.
    set (d1 := db (single (id_key b) (id_text b) (bulk_body b now) x d)).
    clearbody d1. clear -Hb Hfresh Hid.
    revert d1. induction rest as [|z rest IHrest]; intros d1; [reflexivity|].
    cbn [run shift db].
    rewrite fmap_cons in Hfresh. apply not_elem_of_cons in Hfresh as [Hne Hfresh].
    rewrite (IHrest Hfresh). apply single_other; [done|congruence].
Qed.

End Rerun.

(** ** What the fates mean *)

Section Fates.
Context `{Engine}.

Lemma creators_select_exists x_id d :
  holds (creators_select x_id d).1
  = bool_decide (is_Some (x_id ≫= fun k => creators d !! k)).
Proof.
  unfold creators_select. destruct (x_id ≫= _) as [r|].
  - by rewrite bool_decide_eq_true_2 by eauto.
  - by rewrite bool_decide_eq_false_2 by (by intros [? ?]).
Qed.

Lemma projects_select_exists x_id d :
  holds (projects_select x_id d).1
  = bool_decide (is_Some (x_id ≫= fun k => projects d !! k)).
Proof.
  unfold projects_select. destruct (x_id ≫= _) as [r|].
  - by rewrite bool_decide_eq_true_2 by eauto.
  - by rewrite bool_decide_eq_false_2 by (by intros [? ?]).
Qed.

Lemma outreach_values_id now x excluded :
  outreach_values now x = Ok excluded ->
  cast "bigint" to_bigint (x ->> "creator_id") = Ok (Outreach.creator_id excluded).
Proof.
  unfold outreach_values, mbind, outcome_bind, mret, outcome_ret.
  repeat match goal with
         | |- context [match ?o with Ok _ => _ | Raise _ => _ end] =>
             destruct o eqn:?; try discriminate
         end.
  by intros [= <-].
Qed.

Lemma cast_bigint_key (s : option string) (x_id : option Z) (k : Z) :
  cast "bigint" to_bigint s = Ok x_id -> s ≫= to_bigint = Some k -> x_id = Some k.
Proof.
  unfold cast. destruct s as [t|]; simpl; [|discriminate].
  destruct (to_bigint t); [|discriminate]. congruence.
Qed.

(** The fate of an entity says what its iteration did to the table:
    [Inserted], the row of its id was not there and is there now;
    [Updated], it was there and has been written; [Unchanged] and
    [Failed], the database is as it was, and [Failed] carries the
    condition the statements raised. *)
Lemma fate_meaning b now x d :
  let st := single (id_key b) (id_text b) (bulk_body b now) x d in
  match fate_of (id_key b) (id_text b) (bulk_body b now) x d with
  | Inserted =>
      exists k, row_key b x = Some k ∧ has_row b d k = false ∧ has_row b (db st) k = true
  | Updated =>
      exists k, row_key b x = Some k ∧ has_row b d k = true ∧ has_row b (db st) k = true
  | Unchanged => db st = d
  | Failed e => db st = d ∧ (bulk_body b now x (zero d)).1 = Raise e
  end.
Proof.
  cbn zeta. unfold fate_of, single, iteration, block, append_error, row_key.
  destruct b; simpl; unfold creators_body, projects_body, outreach_body; run_body.
  - destruct (cast "bigint" to_bigint (x ->> "id")) as [x_id|e] eqn:Hcast; simpl; [|done].
    destruct (changed _ _ _); simpl; [|done].
    destruct (creators_insert now x _ d) as [d'|e] eqn:Hins; simpl; [|done].
    apply creators_insert_inv in Hins as (k & row & Hid & _ & ->).
    rewrite (cast_bigint_key _ _ k Hcast Hid) in *.
    rewrite creators_select_exists. simpl.
    destruct (creators d !! k) as [r|] eqn:Hrow.
    + rewrite bool_decide_eq_true_2 by eauto. simpl.
      exists k. split; [exact Hid|]. split; apply bool_decide_eq_true_2;
        [eauto|rewrite lookup_insert_eq; eauto].
    + rewrite bool_decide_eq_false_2 by (by intros [? ?]). simpl.
      exists k. split; [exact Hid|]. split;
        [apply bool_decide_eq_false_2; rewrite Hrow; by intros [? ?]
        |apply bool_decide_eq_true_2; rewrite lookup_insert_eq; eauto].
  - destruct (cast "bigint" to_bigint (x ->> "id")) as [x_id|e] eqn:Hcast; simpl; [|done].
    destruct (changed _ _ _); simpl; [|done].
    destruct (projects_insert now x _ d) as [d'|e] eqn:Hins; simpl; [|done].
    apply projects_insert_inv in Hins as (k & row & Hid & _ & ->).
    rewrite (cast_bigint_key _ _ k Hcast Hid) in *.
    rewrite projects_select_exists. simpl.
    destruct (projects d !! k) as [r|] eqn:Hrow.
    + rewrite bool_decide_eq_true_2 by eauto. simpl.
      exists k. split; [exact Hid|]. split; apply bool_decide_eq_true_2;
        [eauto|rewrite lookup_insert_eq; eauto].
    + rewrite bool_decide_eq_false_2 by (by intros [? ?]). simpl.
      exists k. split; [exact Hid|]. split;
        [apply bool_decide_eq_false_2; rewrite Hrow; by intros [? ?]
        |apply bool_decide_eq_true_2; rewrite lookup_insert_eq; eauto].
  - destruct (cast "bigint" to_bigint (x ->> "creator_id")) as [x_id|e] eqn:Hcast; simpl;
      [|done].
    destruct (outreach_insert now x d) as [d'|e] eqn:Hins; simpl; [|done].
    apply outreach_insert_inv in Hins as (excluded & k & Hvalues & Hk & ->).
    apply outreach_values_id in Hvalues. rewrite Hk, Hcast in Hvalues.
    injection Hvalues as ->. simpl.
    assert ((x ->> "creator_id") ≫= to_bigint = Some k) as Hid.
    { revert Hcast. unfold cast. destruct (x ->> "creator_id") as [t|]; simpl; [|done].
      destruct (to_bigint t); [|done]. congruence. }
    destruct (creator_outreach d !! k) as [r|] eqn:Hrow.
    + rewrite bool_decide_eq_true_2 by eauto. simpl.
      exists k. split; [exact Hid|]. split; apply bool_decide_eq_true_2;
        [eauto|rewrite lookup_insert_eq; eauto].
    + rewrite bool_decide_eq_false_2 by (by intros [? ?]). simpl.
      exists k. split; [exact Hid|]. split;
        [apply bool_decide_eq_false_2; rewrite Hrow; by intros [? ?]
        |apply bool_decide_eq_true_2; rewrite lookup_insert_eq; eauto].
Qed.

End Fates.

Section HashGuardTheorem.
Context `{Engine}.

Lemma run_skip_unchanged b now pre x post d :
  let d_pre := db (run (id_key b) (id_text b) (bulk_body b now) pre d) in
  single (id_key b) (id_text b) (bulk_body b now) x d_pre =
    {| db := d_pre; v_inserted := 0; v_updated := 0; v_total := 1; v_errors := [] |} ->
  let with_x := run (id_key b) (id_text b) (bulk_body b now) (pre ++ x :: post) d in
  let without := run (id_key b) (id_text b) (bulk_body b now) (pre ++ post) d in
  db with_x = db without ∧
  v_inserted with_x = v_inserted without ∧
  v_updated with_x = v_updated without ∧
  v_total with_x = v_total without + 1 ∧
  v_errors with_x = v_errors without.
Proof.
  cbn zeta. intros Hskip.
  rewrite !(run_app (id_key b) (id_text b) (bulk_body b now)). cbn [run].
  rewrite Hskip. simpl. repeat split; lia.
Qed.

(** C3, as the code has it.  In [upsert_creators_bulk] and
    [upsert_projects_bulk], an entity whose incoming [data_hash] equals the
    hash stored under its id is skipped: the call writes nothing for it
    and counts it neither as inserted nor as updated, so the result is that
    of the batch without it, with [total_count] one higher.  Consequently,
    when the ids of a batch are pairwise distinct, every entity carries a
    [data_hash] and the first run records no error, a second run of the
    same batch leaves the stored state as the first run left it and
    reports zero inserted and zero updated. *)
Theorem hash_guard_skips_unchanged (b : bulk_function) (now now' : timestamptz)
    (items : list jsonb) (d : database) :
  hash_guarded b ->
  (forall (pre : list jsonb) (x : jsonb) (post : list jsonb) (key : Z) (h : string),
     items = pre ++ x :: post ->
     let d_pre := (bulk_call b now (Some (JArray pre)) d).2 in
     parsed_id x = Some key ->
     stored_hash b d_pre key = Some (Some h) ->
     x ->> "data_hash" = Some h ->
     exists (r r' : bulk_result) (d' : database),
       bulk_call b now (Some (JArray items)) d = (Ok r, d') ∧
       bulk_call b now (Some (JArray (pre ++ post))) d = (Ok r', d') ∧
       inserted_count r = inserted_count r' ∧
       updated_count r = updated_count r' ∧
       total_count r = total_count r' + 1 ∧
       errors r = errors r') ∧
  (NoDup (parsed_id <$> items) ->
   Forall (fun x => is_Some (x ->> "data_hash")) items ->
   forall (r1 : bulk_result) (d1 : database),
     bulk_call b now (Some (JArray items)) d = (Ok r1, d1) ->
     errors r1 = [] ->
     bulk_call b now' (Some (JArray items)) d1 =
     (Ok {| inserted_count := 0; updated_count := 0;
            total_count := Z.of_nat (length items); errors := [] |}, d1)).
Proof.
  intros Hb. split.
  - intros pre x post key h -> d_pre Hid Hstored Hhash. subst d_pre.
    rewrite !bulk_call_array in *. cbn [snd] in Hstored.
    pose proof (single_skip b now x _ key h Hb Hid Hstored Hhash) as Hskip.
    destruct (run_skip_unchanged b now pre x post d Hskip) as (Hdb & Hi & Hu & Ht & He).
    eexists _, _, _. split; [reflexivity|]. split; [by rewrite Hdb|].
    unfold report. simpl. auto.
  - intros Hnodup Hhashes r1 d1. rewrite !bulk_call_array. intros [= <- <-] Herrors.
    simpl in Herrors.
    pose proof (run_stores_hashes b now items d Hb Hnodup Hhashes Herrors) as Hall.
    by rewrite (run_all_stored b now' items _ Hb Hall).
Qed.

End HashGuardTheorem.

(** ** The blocklist *)

Section BlocklistFacts.
Context `{Engine}.
Import Blocklist.

Lemma blocked_key_lower p_domain k :
  blocked_key p_domain = Some k -> exists s, p_domain = Some s ∧ k = lower s.
Proof.
  unfold blocked_key. destruct (empty_domain p_domain); [discriminate|].
  destruct p_domain as [s|]; [|discriminate]. intros [= <-]. eauto.
Qed.

Lemma block_unfold now p_domain p_reason p_source p_notes t :
  firecrawl_block_domain now p_domain p_reason p_source p_notes t =
  match blocked_key p_domain with
  | None => t
  | Some k => <[k := upserted now k p_reason p_source p_notes (t !! k)]> t
  end.
Proof.
  unfold firecrawl_block_domain, blocked_key.
  destruct (empty_domain p_domain) eqn:Hempty; [reflexivity|].
  destruct p_domain as [s|]; simpl; [|reflexivity].
  destruct (t !! lower s); reflexivity.
Qed.

Lemma block_lookup now p_domain p_reason p_source p_notes t k :
  firecrawl_block_domain now p_domain p_reason p_source p_notes t !! k =
  if decide (blocked_key p_domain = Some k)
  then Some (upserted now k p_reason p_source p_notes (t !! k))
  else t !! k.
Proof.
  rewrite block_unfold. destruct (blocked_key p_domain) as [k0|].
  - destruct (decide (Some k0 = Some k)) as [[= ->]|Hne].
    + by rewrite lookup_insert_eq.
    + rewrite lookup_insert_ne by congruence. done.
  - by destruct (decide _).
Qed.

Lemma block_size_conflict now p_domain p_reason p_source p_notes t :
  (forall k, blocked_key p_domain = Some k -> is_Some (t !! k)) ->
  size (firecrawl_block_domain now p_domain p_reason p_source p_notes t) = size t.
Proof.
  intros Hconflict. rewrite block_unfold.
  destruct (blocked_key p_domain) as [k|]; [|reflexivity].
  apply map_size_insert_Some. by apply Hconflict.
Qed.

Lemma coalesce_coalesce {A : Type} (x y : option A) :
  coalesce x (coalesce x y) = coalesce x y.
Proof. by destruct x. Qed.

Lemma upserted_again now1 now2 k p_reason p_source p_notes stored :
  upserted now2 k p_reason p_source p_notes
    (Some (upserted now1 k p_reason p_source p_notes stored))
  = update_updated_at_column now2 (upserted now1 k p_reason p_source p_notes stored).
Proof.
  destruct stored as [old|]; unfold upserted, update_updated_at_column; simpl.
  - by rewrite !coalesce_coalesce.
  - f_equal; by match goal with |- coalesce ?x ?x = ?x => destruct x end.
Qed.

(** C7: [firecrawl_block_domain] is an idempotent upsert.  A call with a
    domain that is neither NULL nor empty writes exactly one row, under
    the lower-cased domain: the proposed row when the key is free, and on
    conflict the stored row with [reason], [source] and [notes] merged
    and the time stamp refreshed.  Calling it a second time with the same
    arguments changes nothing but that time stamp and adds no row; a
    call with a domain that differs in letter case only hits the same
    row; a NULL or empty domain writes nothing. *)
Theorem firecrawl_block_domain_idempotent_upsert (now1 now2 : timestamptz)
    (p_domain p_reason p_source p_notes : option string) (t : gmap string row) :
  let once := firecrawl_block_domain now1 p_domain p_reason p_source p_notes t in
  let twice := firecrawl_block_domain now2 p_domain p_reason p_source p_notes once in
  (forall k : string,
     once !! k =
     if decide (blocked_key p_domain = Some k)
     then Some (upserted now1 k p_reason p_source p_notes (t !! k))
     else t !! k) ∧
  (forall k : string, blocked_key p_domain = Some k ->
     exists s, p_domain = Some s ∧ k = lower s) ∧
  (forall k : string,
     twice !! k =
     if decide (blocked_key p_domain = Some k)
     then update_updated_at_column now2 <$> once !! k
     else once !! k) ∧
  size twice = size once ∧
  (forall p_domain' p_reason' p_source' p_notes' : option string,
     lower <$> p_domain' = lower <$> p_domain ->
     empty_domain p_domain = false ->
     size (firecrawl_block_domain now2 p_domain' p_reason' p_source' p_notes' once)
     = size once) ∧
  ((p_domain = None ∨ exists s, p_domain = Some s ∧ trim s = "") -> once = t).
Proof.
  cbn zeta. repeat split.
  - intros k. apply block_lookup.
  - intros k. apply blocked_key_lower.
  - intros k. rewrite block_lookup.
    destruct (decide (blocked_key p_domain = Some k)) as [Hk|Hk]; [|done].
    rewrite block_lookup, decide_True by done. by rewrite upserted_again.
  - apply block_size_conflict. intros k Hk. rewrite block_lookup.
    by rewrite decide_True.
  - intros p_domain' p_reason' p_source' p_notes' Hcase Hnonempty.
    apply block_size_conflict. intros k Hk.
    apply blocked_key_lower in Hk as (s' & -> & ->).
    rewrite block_lookup. rewrite decide_True; [done|].
    unfold blocked_key. rewrite Hnonempty. by rewrite <- Hcase.
  - intros Hempty. rewrite block_unfold.
    assert (blocked_key p_domain = None) as ->; [|done].
    unfold blocked_key, empty_domain.
    destruct Hempty as [->|(s & -> & Htrim)]; [done|]. simpl. by rewrite Htrim.
Qed.

End BlocklistFacts.

(** ** The pipeline state *)

Section PipelineStateFacts.
Context `{Engine}.
Import PipelineState.

Lemma check_row_ok r k : check_row r = Ok k -> id r = Some 1 ∧ k = 1.
Proof.
  unfold check_row. destruct (id r) as [i|]; [|discriminate]. simpl.
  destruct (decide (i = 1)) as [->|Hne].
  - rewrite bool_decide_eq_true_2 by done. simpl. by intros [= <-].
  - rewrite bool_decide_eq_false_2 by done. discriminate.
Qed.

Lemma has_key_false t : Forall (fun r => id r = Some 1) t -> has_key 1 t = false -> t = [].
Proof.
  intros Hall. destruct Hall as [|r t Hr _]; [done|].
  simpl. by rewrite bool_decide_eq_true_2.
Qed.

Lemma singleton_insert r t t' : singleton t -> insert r t = Ok t' -> singleton t'.
Proof.
  intros [Hall Hlen]. unfold insert, mbind, outcome_bind.
  destruct (check_row r) as [k|e] eqn:Hcheck; [|discriminate].
  apply check_row_ok in Hcheck as [Hid ->].
  destruct (has_key 1 t) eqn:Hkey; [discriminate|]. intros [= <-].
  rewrite (has_key_false t Hall Hkey). split; [by repeat constructor|simpl; lia].
Qed.

Lemma singleton_insert_do_nothing r t t' :
  singleton t -> insert_on_conflict_do_nothing r t = Ok t' -> singleton t'.
Proof.
  intros [Hall Hlen]. unfold insert_on_conflict_do_nothing, mbind, outcome_bind.
  destruct (check_row r) as [k|e] eqn:Hcheck; [|discriminate].
  apply check_row_ok in Hcheck as [Hid ->].
  destruct (has_key 1 t) eqn:Hkey; intros [= <-]; [by split|].
  rewrite (has_key_false t Hall Hkey). split; [by repeat constructor|simpl; lia].
Qed.

Lemma mapM_check_row (t : list row) keys :
  mapM check_row t = Ok keys -> Forall (fun r => id r = Some 1) t.
Proof.
  revert keys. induction t as [|r t IH]; intros keys; [by constructor|].
  cbn [mapM]. unfold mbind, outcome_bind, mret, outcome_ret.
  destruct (check_row r) as [k|e] eqn:Hcheck; [|discriminate].
  destruct (mapM check_row t) as [ks|e]; [|discriminate].
  intros _. constructor; [by apply check_row_ok in Hcheck as [? _]|by eapply IH].
Qed.

Lemma singleton_update now set where_ t t' :
  singleton t -> update now set where_ t = Ok t' -> singleton t'.
Proof.
  intros [Hall Hlen]. unfold update, mbind, outcome_bind.
  destruct (mapM check_row _) as [keys|e] eqn:Hkeys; [|discriminate].
  destruct (bool_decide (NoDup keys)); [|discriminate]. intros [= <-].
  split; [by eapply mapM_check_row|by rewrite length_fmap].
Qed.

Lemma singleton_delete where_ t : singleton t -> singleton (delete where_ t).
Proof.
  intros [Hall Hlen]. unfold delete. split.
  - clear Hlen. induction Hall as [|r t Hr _ IH]; simpl; [constructor|].
    destruct (negb (where_ r)); [by constructor|done].
  - clear Hall. induction t as [|r t IH]; simpl in *; [lia|].
    destruct t; simpl in *; [destruct (negb (where_ r)); simpl; lia|lia].
Qed.

Lemma reachable_singleton t : reachable t -> singleton t.
Proof.
  induction 1; eauto using singleton_insert, singleton_insert_do_nothing,
    singleton_update, singleton_delete.
  split; [constructor|simpl; lia].
Qed.

(** C8: [pipeline_state] is a singleton.  Whatever statements run
    against it, every row has [id = 1] and there is at most one row; the
    setup script leaves exactly one row, the control row with [id = 1]:
    it creates it when the table is missing or empty, keeps the row that
    is there otherwise, and running it again changes nothing. *)
Theorem pipeline_state_is_singleton :
  (forall t : list row, reachable t ->
     (forall r, r ∈ t -> id r = Some 1) ∧ (length t <= 1)%nat) ∧
  (forall (now : timestamptz) (table : option (list row)),
     (forall t, table = Some t -> reachable t) ->
     exists r : row,
       setup now table = Ok [r] ∧ id r = Some 1 ∧ reachable [r] ∧
       (table = None ∨ table = Some [] -> r = control_row now) ∧
       (forall t, table = Some t -> t ≠ [] -> t = [r]) ∧
       (forall now' : timestamptz, setup now' (Some [r]) = Ok [r])).
Proof.
  split.
  - intros t [Hall Hlen]%reachable_singleton. split; [|done].
    intros r Hr. rewrite Forall_forall in Hall. by apply Hall.
  - intros now table Hreach.
    assert (reachable (default [] table)) as Ht.
    { destruct table as [t|]; [by apply Hreach|constructor]. }
    unfold setup. destruct (default [] table) as [|r0 rest] eqn:Htable.
    + exists (control_row now). repeat split; try done.
      * by apply (reachable_insert_do_nothing (control_row now) [] _ reachable_created).
      * intros t ->. simpl in Htable. by subst.
    + destruct (reachable_singleton _ Ht) as [Hall Hlen].
      destruct rest; [|simpl in Hlen; lia].
      apply Forall_cons in Hall as [Hid _].
      exists r0.
      assert (forall now', insert_on_conflict_do_nothing (control_row now') [r0] = Ok [r0])
        as Hagain.
      { intros now'. unfold insert_on_conflict_do_nothing, has_key. simpl.
        by rewrite Hid. }
      repeat split; try done.
      * intros [->| ->]; discriminate.
      * intros t ->. simpl in Htable. by subst.
Qed.

End PipelineStateFacts.

Section ContactsViewFacts.
Context `{Engine}.
Import ContactsView.

Lemma select_not_null j :
  is_Some (email (select j)) ∧ is_Some (email_source_url (select j)) ∧
  is_Some (contact_form_url (select j)) ∧ is_Some (has_contact_form (select j)).
Proof.
  unfold select. simpl. repeat split;
    match goal with |- is_Some (coalesce ?x _) => destruct x; simpl; eauto end.
Qed.

Lemma where_completed_with_contact c co :
  where_ (c, co) = true ->
  exists o : Outreach.row,
    co = Some o ∧
    Outreach.contact_status o = Some "completed" ∧
    ((exists e, Outreach.email o = Some e ∧ e ≠ "") ∨
     Outreach.has_contact_form o = Some true).
Proof.
  unfold where_. simpl. destruct co as [o|]; simpl; [|discriminate].
  intros Hwhere. exists o. split; [done|]. revert Hwhere.
  destruct (Outreach.contact_status o) as [s|], (Outreach.email o) as [e|],
    (Outreach.has_contact_form o) as [[]|]; simpl;
    repeat case_bool_decide; simpl; intros Hwhere; try discriminate;
    subst; eauto.
Qed.

(** C10, as the code has it.  Every row of the definition of
    [customer_contacts_view] that carries the [WHERE] clause is the row of
    a creator whose outreach row has [contact_status = 'completed'] and a
    contact signal (a non-empty email, or [has_contact_form] true); the
    definition without the clause returns a row for every creator; in
    both, [email], [email_source_url], [contact_form_url] and
    [has_contact_form] are never null. *)
Theorem customer_contacts_view_rows (d : database) :
  (forall r : row, r ∈ customer_contacts_view d ->
     exists (c : Creators.row) (o : Outreach.row),
       (c, Some o) ∈ joined d ∧ r = select (c, Some o) ∧
       Outreach.contact_status o = Some "completed" ∧
       ((exists e, Outreach.email o = Some e ∧ e ≠ "") ∨
        Outreach.has_contact_form o = Some true) ∧
       is_Some (email r) ∧ is_Some (email_source_url r) ∧
       is_Some (contact_form_url r) ∧ is_Some (has_contact_form r)) ∧
  (forall r : row, r ∈ customer_contacts_view_all d ->
     is_Some (email r) ∧ is_Some (email_source_url r) ∧
     is_Some (contact_form_url r) ∧ is_Some (has_contact_form r)) ∧
  length (customer_contacts_view_all d) = size (creators d).
Proof.
  split; [|split].
  - intros r (j & -> & Hj)%list_elem_of_fmap.
    apply list_elem_of_In, filter_In in Hj as [Hj Hwhere].
    destruct j as [c co].
    destruct (where_completed_with_contact c co Hwhere) as (o & -> & Hstatus & Hsignal).
    exists c, o. split; [by apply list_elem_of_In|].
    split; [done|]. split; [done|]. split; [done|]. apply select_not_null.
  - intros r (j & -> & Hj)%list_elem_of_fmap. apply select_not_null.
  - unfold customer_contacts_view_all, joined. by rewrite !length_fmap, length_map_to_list.
Qed.

End ContactsViewFacts.

(** ** The auto-discovered columns of [creator_outreach] *)

Section DiscoveredColumns.
Context `{Engine}.

Lemma flag_is_some x k b : flag x k = Ok b -> is_Some b.
Proof.
  unfold flag, mbind, outcome_bind, mret, outcome_ret.
  destruct (cast "boolean" to_boolean (x ->> k)) as [[v|]|e]; intros [= <-]; simpl; eauto.
Qed.

Lemma varchar_is_some n s v : varchar n (Some s) = Ok v -> is_Some v.
Proof.
  unfold varchar. destruct (decide _); [intros [= <-]; eauto|].
  destruct (all_spaces _); [intros [= <-]; eauto|discriminate].
Qed.

(** What the [VALUES] list makes of a payload: the text columns are the
    payload's, NULL when absent; [has_contact_form], [contact_status] and
    [contact_attempts] are never NULL, an absent value having been replaced
    by [false], ['not_checked'] and [0]. *)
Lemma outreach_values_discovered now x excluded :
  outreach_values now x = Ok excluded ->
  Outreach.email excluded = x ->> "email" ∧
  Outreach.email_source_url excluded = x ->> "email_source_url" ∧
  Outreach.contact_form_url excluded = x ->> "contact_form_url" ∧
  Outreach.contact_error excluded = x ->> "contact_error" ∧
  Outreach.site_hash excluded = x ->> "site_hash" ∧
  (x ->> "last_contact_check_at" = None -> Outreach.last_contact_check_at excluded = None) ∧
  is_Some (Outreach.has_contact_form excluded) ∧
  is_Some (Outreach.contact_status excluded) ∧
  is_Some (Outreach.contact_attempts excluded) ∧
  (x ->> "has_contact_form" = None -> Outreach.has_contact_form excluded = Some false) ∧
  (x ->> "contact_status" = None -> Outreach.contact_status excluded = Some "not_checked") ∧
  (x ->> "contact_attempts" = None -> Outreach.contact_attempts excluded = Some 0).
Proof.
  unfold outreach_values. split_binds. intros [= <-]. simpl.
  repeat match goal with
         | Hflag : flag x "has_contact_form" = Ok ?b |- _ =>
             pose proof (flag_is_some _ _ _ Hflag); revert Hflag
         | Hstatus : varchar 50 (coalesce (x ->> "contact_status") _) = Ok ?v |- _ =>
             revert Hstatus
         | Hattempts : cast "integer" to_integer (x ->> "contact_attempts") = Ok ?v |- _ =>
             revert Hattempts
         | Hcheck : cast _ to_timestamptz (nullif (x ->> "last_contact_check_at") _) = Ok ?v |- _ =>
             revert Hcheck
         end.
  intros Hcheck Hattempts Hstatus Hflag.
  repeat split; try done.
  - intros Habsent. rewrite Habsent in Hcheck. simpl in Hcheck. congruence.
  - unfold coalesce in Hstatus.
    destruct (x ->> "contact_status"); by eapply varchar_is_some.
  - match goal with |- is_Some (coalesce ?a _) => destruct a; simpl; eauto end.
  - intros Habsent. unfold flag, mbind, outcome_bind, mret, outcome_ret in Hflag.
    rewrite Habsent in Hflag. simpl in Hflag. congruence.
  - intros Habsent. rewrite Habsent in Hstatus. simpl in Hstatus.
    unfold varchar in Hstatus. simpl in Hstatus. congruence.
  - intros Habsent. rewrite Habsent in Hattempts. simpl in Hattempts.
    injection Hattempts as <-. reflexivity.
Qed.

(** The merge of a payload into a stored row, column by column: an
    absent text or time stamp keeps the stored value; for
    [has_contact_form], [contact_status] and [contact_attempts] the
    [COALESCE] of the [SET] list always finds a value in [EXCLUDED], so the
    stored value is replaced, by the default when the payload has none. *)
Lemma outreach_merge_discovered now x stored excluded :
  outreach_values now x = Ok excluded ->
  let merged := outreach_do_update stored excluded in
  (x ->> "email" = None -> Outreach.email merged = Outreach.email stored) ∧
  (x ->> "email_source_url" = None ->
   Outreach.email_source_url merged = Outreach.email_source_url stored) ∧
  (x ->> "contact_form_url" = None ->
   Outreach.contact_form_url merged = Outreach.contact_form_url stored) ∧
  (x ->> "contact_error" = None ->
   Outreach.contact_error merged = Outreach.contact_error stored) ∧
  (x ->> "site_hash" = None -> Outreach.site_hash merged = Outreach.site_hash stored) ∧
  (x ->> "last_contact_check_at" = None ->
   Outreach.last_contact_check_at merged = Outreach.last_contact_check_at stored) ∧
  (forall v, x ->> "email" = Some v -> Outreach.email merged = Some v) ∧
  (x ->> "has_contact_form" = None -> Outreach.has_contact_form merged = Some false) ∧
  (x ->> "contact_status" = None -> Outreach.contact_status merged = Some "not_checked") ∧
  (x ->> "contact_attempts" = None -> Outreach.contact_attempts merged = Some 0).
Proof.
  intros (Hemail & Hsource & Hform & Herror & Hhash & Hcheck & _ & _ & _
          & Hflag & Hstatus & Hattempts)%outreach_values_discovered.
  cbn zeta. simpl. rewrite Hemail, Hsource, Hform, Herror, Hhash.
  repeat split; try (by intros ->); try (by intros v ->).
  - intros Habsent. by rewrite (Hcheck Habsent).
  - intros Habsent. by rewrite (Hflag Habsent).
  - intros Habsent. by rewrite (Hstatus Habsent).
  - intros Habsent. by rewrite (Hattempts Habsent).
Qed.

(** The generated column, as the table defines it: it is never NULL, and
    it is true exactly when [email] is not NULL or [has_contact_form] is
    true.  An empty email is not NULL. *)
Lemma has_any_contact_true (r : Outreach.row) :
  is_Some (Outreach.has_any_contact r) ∧
  (Outreach.has_any_contact r = Some true <->
   is_Some (Outreach.email r) ∨ Outreach.has_contact_form r = Some true).
Proof.
  unfold Outreach.has_any_contact.
  destruct (Outreach.email r) as [e|], (Outreach.has_contact_form r) as [[]|]; simpl;
    (split; [eauto|]); split; intros; eauto;
    match goal with
    | Hor : _ ∨ _ |- _ => destruct Hor as [[? ?]|?]; discriminate
    | _ => discriminate
    end.
Qed.

End DiscoveredColumns.

(** * Properties of the calls, the constraints and the views *)

(** ** The argument of a bulk function *)

Section EdgeArguments.
Context `{Engine}.

(** X1: the argument of a bulk function.  SQL NULL and the empty array
    are empty batches: the call returns all counts zero and an empty error
    list and leaves the database as it was.  A JSON value that is not an
    array makes the call raise before the first iteration; nothing is
    written and no result row is returned. *)
Theorem bulk_call_edge_arguments (b : bulk_function) (now : timestamptz) (d : database) :
  bulk_call b now None d = (Ok no_entity, d) ∧
  bulk_call b now (Some (JArray [])) d = (Ok no_entity, d) ∧
  forall data : jsonb, jsonb_typeof data ≠ "array" ->
    exists e : sqlerr, bulk_call b now (Some data) d = (Raise e, d).
Proof.
  split; [by destruct b|]. split; [by destruct b|].
  intros data Hdata.
  destruct data; (by destruct Hdata) || (eexists; by apply bulk_call_not_array).
Qed.

End EdgeArguments.

(** ** What a call writes *)

Section Steps.
Context `{Engine}.

(** One iteration, whatever the function: it leaves the database alone
    and counts nothing as inserted or updated, or it writes one row under
    the id of its entity and counts it as inserted when the id was free and
    as updated when it was taken. *)
Lemma single_step b now x d :
  let st := single (id_key b) (id_text b) (bulk_body b now) x d in
  (db st = d ∧ v_inserted st = 0 ∧ v_updated st = 0) ∨
  (exists k, row_key b x = Some k ∧ written b k d (db st) ∧
     v_inserted st = (if has_row b d k then 0 else 1) ∧
     v_updated st = (if has_row b d k then 1 else 0)).
Proof.
  cbn zeta. unfold single, iteration, block, append_error, row_key.
  destruct b; simpl; unfold creators_body, projects_body, outreach_body; run_body.
  - destruct (cast "bigint" to_bigint (x ->> "id")) as [x_id|e] eqn:Hcast; simpl; [|left; auto].
    destruct (changed _ _ _); simpl; [|left; auto].
    destruct (creators_insert now x _ d) as [d'|e] eqn:Hins; simpl; [|left; auto].
    apply creators_insert_inv in Hins as (k & row & Hid & _ & ->).
    rewrite (cast_bigint_key _ _ k Hcast Hid) in *.
    rewrite creators_select_exists. simpl. right. exists k. split; [exact Hid|].
    destruct (bool_decide _); simpl; (split; [by eexists|done]).
  - destruct (cast "bigint" to_bigint (x ->> "id")) as [x_id|e] eqn:Hcast; simpl; [|left; auto].
    destruct (changed _ _ _); simpl; [|left; auto].
    destruct (projects_insert now x _ d) as [d'|e] eqn:Hins; simpl; [|left; auto].
    apply projects_insert_inv in Hins as (k & row & Hid & _ & ->).
    rewrite (cast_bigint_key _ _ k Hcast Hid) in *.
    rewrite projects_select_exists. simpl. right. exists k. split; [exact Hid|].
    destruct (bool_decide _); simpl; (split; [by eexists|done]).
  - destruct (cast "bigint" to_bigint (x ->> "creator_id")) as [x_id|e] eqn:Hcast; simpl;
      [|left; auto].
    destruct (outreach_insert now x d) as [d'|e] eqn:Hins; simpl; [|left; auto].
    apply outreach_insert_inv in Hins as (excluded & k & Hvalues & Hk & ->).
    apply outreach_values_id in Hvalues. rewrite Hk, Hcast in Hvalues.
    injection Hvalues as ->. simpl.
    assert ((x ->> "creator_id") ≫= to_bigint = Some k) as Hid.
    { revert Hcast. unfold cast. destruct (x ->> "creator_id") as [t|]; simpl; [|done].
      destruct (to_bigint t); [|done]. congruence. }
    right. exists k. split; [exact Hid|].
    destruct (bool_decide _); simpl; (split; [by eexists|done]).
Qed.

Lemma written_frame b k d d' :
  written b k d d' ->
  (b ≠ UpsertCreators -> creators d' = creators d) ∧
  (b ≠ UpsertProjects -> projects d' = projects d) ∧
  (b ≠ SyncCreatorOutreach -> creator_outreach d' = creator_outreach d) ∧
  (forall k', has_row b d k' = true -> has_row b d' k' = true) ∧
  has_row b d' k = true ∧
  table_size b d' = (if has_row b d k then table_size b d else S (table_size b d)).
Proof.
  destruct b; intros [row ->]; simpl; (split; [done|]); (split; [done|]); (split; [done|]).
  all: split;
    [intros k' Hk'; apply bool_decide_eq_true_2; apply bool_decide_eq_true_1 in Hk';
     destruct (decide (k = k')) as [->|Hne];
       [rewrite lookup_insert_eq; eauto|by rewrite lookup_insert_ne]|].
  all: split; [apply bool_decide_eq_true_2; rewrite lookup_insert_eq; eauto|].
  all: case_bool_decide as Hrow;
    [by apply map_size_insert_Some
    |apply map_size_insert_None; by apply eq_None_not_Some].
Qed.

End Steps.

Section Frame.
Context `{Engine}.

(** X3: what a bulk function never does.  Whatever its argument, a call
    leaves the two tables it is not about exactly as they were, and it
    never removes a row from its own: every id that had a row before the
    call has one after it. *)
Theorem bulk_call_writes_one_table (b : bulk_function) (now : timestamptz)
    (data : option jsonb) (d : database) :
  let d' := (bulk_call b now data d).2 in
  (b ≠ UpsertCreators -> creators d' = creators d) ∧
  (b ≠ UpsertProjects -> projects d' = projects d) ∧
  (b ≠ SyncCreatorOutreach -> creator_outreach d' = creator_outreach d) ∧
  (forall k : Z, has_row b d k = true -> has_row b d' k = true).
Proof.
  cbn zeta.
  apply (bulk_call_invariant b now
    (fun d0 =>
       (b ≠ UpsertCreators -> creators d0 = creators d) ∧
       (b ≠ UpsertProjects -> projects d0 = projects d) ∧
       (b ≠ SyncCreatorOutreach -> creator_outreach d0 = creator_outreach d) ∧
       (forall k, has_row b d k = true -> has_row b d0 k = true))); [|done].
  intros x d0 (Hc & Hp & Ho & Hkeys).
  destruct (single_step b now x d0) as [(-> & _)|(k & _ & Hw & _)]; [done|].
  destruct (written_frame b k d0 _ Hw) as (Hc' & Hp' & Ho' & Hkeys' & _).
  split; [intros Hb; by rewrite Hc', Hc|].
  split; [intros Hb; by rewrite Hp', Hp|].
  split; [intros Hb; by rewrite Ho', Ho|].
  intros k' Hk'. by apply Hkeys', Hkeys.
Qed.

(** X4: the table grows by the number of inserted entities.  After a
    call on a batch, the table the function writes has exactly
    [inserted_count] rows more than before; updated, unchanged and failed
    entities add none. *)
Theorem inserted_count_is_table_growth (b : bulk_function) (now : timestamptz)
    (items : list jsonb) (d : database) :
  exists (r : bulk_result) (d' : database),
    bulk_call b now (Some (JArray items)) d = (Ok r, d') ∧
    Z.of_nat (table_size b d') = Z.of_nat (table_size b d) + inserted_count r.
Proof.
  rewrite bulk_call_array. eexists _, _. split; [reflexivity|].
  unfold report. cbn [inserted_count].
  revert d. induction items as [|x rest IH]; intros d; [simpl; lia|].
  cbn [run shift db v_inserted]. rewrite IH.
  destruct (single_step b now x d) as [(-> & -> & _)|(k & _ & Hw & -> & _)]; [lia|].
  destruct (written_frame b k d _ Hw) as (_ & _ & _ & _ & _ & ->).
  destruct (has_row b d k); lia.
Qed.

End Frame.

(** ** When the hash guard skips, and entities without an id *)

Section GuardDecides.
Context `{Engine}.

Lemma changed_cases (stored incoming : option string) :
  changed (Some true) stored incoming = false <->
  exists h, stored = Some h ∧ (incoming = Some h ∨ incoming = None).
Proof.
  unfold changed. destruct stored as [h'|], incoming as [h|]; simpl.
  all: try (split; [discriminate|]; intros (h0 & ? & ?); discriminate).
  - destruct (decide (h' = h)) as [->|Hne].
    + rewrite bool_decide_eq_true_2 by done. simpl. split; [eauto 6|done].
    + rewrite bool_decide_eq_false_2 by done. simpl.
      split; [discriminate|]. intros (h0 & [= ->] & [[= ->]|?]); done.
  - split; [eauto 6|done].
Qed.

(** X5: the hash guard, exactly.  An entity of [upsert_creators_bulk]
    or [upsert_projects_bulk] whose id parses is left unchanged if and only
    if a row is stored under its id with a hash that is not NULL, and the
    incoming [data_hash] is that hash or is missing.  So an entity without
    a [data_hash] never updates a row that has one. *)
Theorem hash_guard_decides (b : bulk_function) (now : timestamptz)
    (x : jsonb) (d : database) (k : Z) :
  hash_guarded b ->
  parsed_id x = Some k ->
  fate_of (id_key b) (id_text b) (bulk_body b now) x d = Unchanged <->
  exists h : string,
    stored_hash b d k = Some (Some h) ∧
    (x ->> "data_hash" = Some h ∨ x ->> "data_hash" = None).
Proof.
  intros Hb Hid. pose proof Hid as Hcast. apply cast_bigint_id in Hcast.
  unfold fate_of, single, iteration, block, append_error.
  destruct Hb as [-> | ->]; simpl; unfold creators_body, projects_body; run_body;
    rewrite Hcast; simpl.
  - unfold creators_select. simpl.
    destruct (creators d !! k) as [r|] eqn:Hrow; simpl.
    + destruct (changed _ _ _) eqn:Hchanged; simpl.
      * assert (¬ exists h, Some (Creators.data_hash r) = Some (Some h) ∧
                  (x ->> "data_hash" = Some h ∨ x ->> "data_hash" = None)) as Hno.
        { intros (h & [= Hh] & Hin).
          assert (changed (Some true) (Creators.data_hash r) (x ->> "data_hash") = false)
            as Hc by (apply changed_cases; eauto 6).
          congruence. }
        destruct (creators_insert now x _ d); simpl; split; try done.
      * apply changed_cases in Hchanged as (h & Hh & Hin).
        split; [|done]. intros _. exists h. by rewrite Hh.
    + destruct (creators_insert now x _ d); simpl; split; try done;
        intros (h & ? & _); discriminate.
  - unfold projects_select. simpl.
    destruct (projects d !! k) as [r|] eqn:Hrow; simpl.
    + destruct (changed _ _ _) eqn:Hchanged; simpl.
      * assert (¬ exists h, Some (Projects.data_hash r) = Some (Some h) ∧
                  (x ->> "data_hash" = Some h ∨ x ->> "data_hash" = None)) as Hno.
        { intros (h & [= Hh] & Hin).
          assert (changed (Some true) (Projects.data_hash r) (x ->> "data_hash") = false)
            as Hc by (apply changed_cases; eauto 6).
          congruence. }
        destruct (projects_insert now x _ d); simpl; split; try done.
      * apply changed_cases in Hchanged as (h & Hh & Hin).
        split; [|done]. intros _. exists h. by rewrite Hh.
    + destruct (projects_insert now x _ d); simpl; split; try done;
        intros (h & ? & _); discriminate.
Qed.

End GuardDecides.

Section Rejected.
Context `{Engine}.

Lemma cast_bigint_none (s : option string) (x_id : option Z) :
  s ≫= to_bigint = None -> cast "bigint" to_bigint s = Ok x_id -> x_id = None.
Proof.
  unfold cast. destruct s as [t|]; simpl; [|by intros _ [= <-]].
  intros ->. discriminate.
Qed.

Lemma creators_insert_no_id now x h d :
  parsed_id x = None -> exists e, creators_insert now x h d = Raise e.
Proof.
  intros Hid. unfold creators_insert, mbind, outcome_bind.
  destruct (creators_values now x h) as [excluded|e] eqn:Hvalues; [|eauto].
  apply creators_values_inv in Hvalues as [Hcast _].
  apply (cast_bigint_none _ _ Hid) in Hcast.
  unfold Creators.check_not_null. rewrite Hcast. eauto.
Qed.

Lemma projects_insert_no_id now x h d :
  parsed_id x = None -> exists e, projects_insert now x h d = Raise e.
Proof.
  intros Hid. unfold projects_insert, mbind, outcome_bind.
  destruct (projects_values now x h) as [excluded|e] eqn:Hvalues; [|eauto].
  apply projects_values_inv in Hvalues as [Hcast _].
  apply (cast_bigint_none _ _ Hid) in Hcast.
  unfold Projects.check_not_null. rewrite Hcast. eauto.
Qed.

Lemma outreach_insert_no_id now x d :
  (x ->> "creator_id") ≫= to_bigint = None -> exists e, outreach_insert now x d = Raise e.
Proof.
  intros Hid. unfold outreach_insert, mbind, outcome_bind.
  destruct (outreach_values now x) as [excluded|e] eqn:Hvalues; [|eauto].
  apply outreach_values_id in Hvalues.
  apply (cast_bigint_none _ _ Hid) in Hvalues.
  unfold Outreach.check_not_null. rewrite Hvalues. eauto.
Qed.

(** X6: an entity without a usable id.  When the id of an entity is
    missing, JSON null, or a text that is not a [BIGINT], the entity
    fails, whichever bulk function it is passed to: it is reported in
    [errors] and nothing is written for it. *)
Theorem entity_without_id_is_rejected (b : bulk_function) (now : timestamptz)
    (x : jsonb) (d : database) :
  row_key b x = None ->
  let st := single (id_key b) (id_text b) (bulk_body b now) x d in
  exists e : sqlerr,
    fate_of (id_key b) (id_text b) (bulk_body b now) x d = Failed e ∧
    v_errors st = [{| entity_key := id_key b; entity_id := id_text b x; error := e |}] ∧
    db st = d.
Proof.
  intros Hid. cbn zeta.
  assert (exists e, (bulk_body b now x (zero d)).1 = Raise e) as [e Hraise].
  { unfold row_key in Hid. destruct b; simpl in *;
      unfold creators_body, projects_body, outreach_body; run_body.
    - destruct (cast "bigint" to_bigint (x ->> "id")) as [x_id|e] eqn:Hcast; simpl; [|eauto].
      rewrite (cast_bigint_none _ _ Hid Hcast). simpl.
      destruct (creators_insert_no_id now x (x ->> "data_hash") d Hid) as [e ->]. simpl. eauto.
    - destruct (cast "bigint" to_bigint (x ->> "id")) as [x_id|e] eqn:Hcast; simpl; [|eauto].
      rewrite (cast_bigint_none _ _ Hid Hcast). simpl.
      destruct (projects_insert_no_id now x (x ->> "data_hash") d Hid) as [e ->]. simpl. eauto.
    - destruct (cast "bigint" to_bigint (x ->> "creator_id")) as [x_id|e] eqn:Hcast; simpl;
        [|eauto].
      destruct (outreach_insert_no_id now x d Hid) as [e ->]. simpl. eauto. }
  exists e. rewrite (fate_failed _ _ _ x d e Hraise), (single_failed _ _ _ x d e Hraise).
  done.
Qed.

End Rejected.

(** ** The declared constraints *)

Section ConstraintFacts.
Context `{Engine}.

Lemma left_chars_length (n : nat) (s : string) : (char_length (left_chars n s) <= n)%nat.
Proof.
  revert n. induction s as [|c s IH]; intros n; simpl; [lia|].
  destruct (continues c) eqn:Hc; simpl.
  - rewrite Hc. apply IH.
  - destruct n as [|m]; simpl; [lia|]. rewrite Hc. specialize (IH m). lia.
Qed.

Lemma varchar_fits n x v : varchar n x = Ok v -> fits n v.
Proof.
  unfold varchar. destruct x as [s|]; [|by intros [= <-] ? [=]].
  destruct (decide _) as [Hle|_]; [by intros [= <-] ? [= <-]|].
  destruct (all_spaces _); [|discriminate].
  intros [= <-] ? [= <-]. apply left_chars_length.
Qed.

Lemma unique_slugs_insert {R : Type} (slug : R -> option string) (t : gmap Z R)
    (key : Z) (new : R) :
  unique_slugs slug t ->
  (forall k r s, t !! k = Some r -> k ≠ key -> slug r = Some s -> slug new ≠ Some s) ->
  unique_slugs slug (<[key := new]> t).
Proof.
  intros Hunique Hfree k1 k2 r1 r2 s.
  destruct (decide (k1 = key)) as [->|Hk1], (decide (k2 = key)) as [->|Hk2];
    rewrite ?lookup_insert_eq, ?lookup_insert_ne by done; try done.
  - intros [= <-] Hr2 Hs1 Hs2. by destruct (Hfree k2 r2 s Hr2 Hk2 Hs2).
  - intros Hr1 [= <-] Hs1 Hs2. by destruct (Hfree k1 r1 s Hr1 Hk1 Hs1).
  - apply Hunique.
Qed.

Lemma creators_slug_free t key s k r v :
  Creators.slug_taken t key s = false ->
  t !! k = Some r -> k ≠ key -> Creators.slug r = Some v -> s ≠ Some v.
Proof.
  intros Htaken Hr Hk Hslug ->. unfold Creators.slug_taken in Htaken.
  apply bool_decide_eq_false_1 in Htaken. apply Htaken. by exists k, r.
Qed.

Lemma projects_slug_free t key s k r v :
  Projects.slug_taken t key s = false ->
  t !! k = Some r -> k ≠ key -> Projects.slug r = Some v -> s ≠ Some v.
Proof.
  intros Htaken Hr Hk Hslug ->. unfold Projects.slug_taken in Htaken.
  apply bool_decide_eq_false_1 in Htaken. apply Htaken. by exists k, r.
Qed.

Lemma projects_row_ok_mono cs cs' k r :
  (forall c, is_Some (cs !! c) -> is_Some (cs' !! c)) ->
  projects_row_ok cs k r -> projects_row_ok cs' k r.
Proof.
  intros Hmono (? & ? & ? & ? & ? & ? & ? & ? & (c & ? & ?) & ? & ? & ? & ? & ? & ?).
  unfold projects_row_ok. split_and!; eauto.
Qed.

Lemma outreach_row_ok_mono cs cs' k r :
  (forall c, is_Some (cs !! c) -> is_Some (cs' !! c)) ->
  outreach_row_ok cs k r -> outreach_row_ok cs' k r.
Proof.
  intros Hmono (? & ? & ? & ? & ? & ?). unfold outreach_row_ok. split_and!; eauto.
Qed.

Lemma creators_values_fits now x h excluded :
  creators_values now x h = Ok excluded ->
  fits 255 (Creators.slug excluded) ∧ fits 500 (Creators.name excluded) ∧
  fits 3 (Creators.chosen_currency excluded).
Proof.
  unfold creators_values. split_binds. intros [= <-]. simpl.
  split_and!; eauto using varchar_fits.
Qed.

Lemma projects_values_fits now x h excluded :
  projects_values now x h = Ok excluded ->
  fits 500 (Projects.slug excluded) ∧ fits 1000 (Projects.name excluded) ∧
  fits 3 (Projects.currency excluded) ∧ fits 2 (Projects.country excluded) ∧
  fits 255 (Projects.country_displayable_name excluded) ∧
  fits 50 (Projects.state excluded).
Proof.
  unfold projects_values. split_binds. intros [= <-]. simpl.
  split_and!; eauto using varchar_fits.
Qed.

Lemma outreach_values_fits now x excluded :
  outreach_values now x = Ok excluded ->
  fits 50 (Outreach.outreach_status excluded) ∧
  fits 50 (Outreach.contact_status excluded) ∧
  fits 50 (Outreach.contact_method excluded).
Proof.
  unfold outreach_values. split_binds. intros [= <-]. simpl.
  split_and!; eauto using varchar_fits. intros ? [=].
Qed.

End ConstraintFacts.

Section WellFormed.
Context `{Engine}.

Lemma insert_is_Some_mono {R : Type} (t : gmap Z R) key new c :
  is_Some (t !! c) -> is_Some (<[key := new]> t !! c).
Proof. intros Hc. apply lookup_insert_is_Some'. by right. Qed.

Lemma well_formed_set_creators d key new :
  well_formed d ->
  creators_row_ok key new ->
  (forall k r s, creators d !! k = Some r -> k ≠ key ->
     Creators.slug r = Some s -> Creators.slug new ≠ Some s) ->
  well_formed (set_creators (<[key := new]> (creators d)) d).
Proof.
  intros (Hc & Hcu & Hp & Hpu & Ho) Hnew Hfree. unfold well_formed. simpl.
  split_and!; try done.
  - by apply map_Forall_insert_2.
  - by apply unique_slugs_insert.
  - intros k r Hr. eapply projects_row_ok_mono; [|by apply Hp].
    intros c. apply insert_is_Some_mono.
  - intros k r Hr. eapply outreach_row_ok_mono; [|by apply Ho].
    intros c. apply insert_is_Some_mono.
Qed.

Lemma well_formed_set_projects d key new :
  well_formed d ->
  projects_row_ok (creators d) key new ->
  (forall k r s, projects d !! k = Some r -> k ≠ key ->
     Projects.slug r = Some s -> Projects.slug new ≠ Some s) ->
  well_formed (set_projects (<[key := new]> (projects d)) d).
Proof.
  intros (Hc & Hcu & Hp & Hpu & Ho) Hnew Hfree. unfold well_formed. simpl.
  split_and!; try done.
  - by apply map_Forall_insert_2.
  - by apply unique_slugs_insert.
Qed.

Lemma well_formed_set_outreach d key new :
  well_formed d ->
  outreach_row_ok (creators d) key new ->
  well_formed (set_creator_outreach (<[key := new]> (creator_outreach d)) d).
Proof.
  intros (Hc & Hcu & Hp & Hpu & Ho) Hnew. unfold well_formed. simpl.
  split_and!; try done. by apply map_Forall_insert_2.
Qed.

Lemma creators_check_not_null_ok r k :
  Creators.check_not_null r = Ok k -> Creators.id r = Some k ∧ is_Some (Creators.name r).
Proof.
  unfold Creators.check_not_null.
  destruct (Creators.id r), (Creators.name r); try discriminate. intros [= <-]. eauto.
Qed.

Lemma projects_check_not_null_ok r k :
  Projects.check_not_null r = Ok k ->
  Projects.id r = Some k ∧
  is_Some (Projects.slug r) ∧ is_Some (Projects.name r) ∧ is_Some (Projects.goal r) ∧
  is_Some (Projects.currency r) ∧ is_Some (Projects.country r) ∧
  is_Some (Projects.state r) ∧ is_Some (Projects.created_at_ks r) ∧
  is_Some (Projects.creator_id r).
Proof.
  unfold Projects.check_not_null, Projects.require, mbind, outcome_bind.
  destruct (Projects.id r), (Projects.slug r), (Projects.name r), (Projects.goal r),
    (Projects.currency r), (Projects.country r), (Projects.state r),
    (Projects.created_at_ks r), (Projects.creator_id r); try discriminate.
  intros [= <-]. split_and!; eauto.
Qed.

Lemma outreach_check_not_null_ok r k :
  Outreach.check_not_null r = Ok k ->
  Outreach.creator_id r = Some k ∧ is_Some (Outreach.outreach_status r).
Proof.
  unfold Outreach.check_not_null.
  destruct (Outreach.creator_id r), (Outreach.outreach_status r); try discriminate.
  intros [= <-]. eauto.
Qed.

Lemma projects_check_foreign_key_ok cs r :
  Projects.check_foreign_key cs r = Ok () ->
  forall c, Projects.creator_id r = Some c -> is_Some (cs !! c).
Proof.
  unfold Projects.check_foreign_key. intros Hcheck c Hc. rewrite Hc in Hcheck.
  case_bool_decide; [done|discriminate].
Qed.

Lemma creators_insert_well_formed now x h d d' :
  well_formed d -> creators_insert now x h d = Ok d' -> well_formed d'.
Proof.
  intros Hwf. unfold creators_insert, mbind, outcome_bind, mret, outcome_ret.
  destruct (creators_values now x h) as [excluded|e] eqn:Hvalues; [|discriminate].
  apply creators_values_fits in Hvalues as (Hslug & Hname & Hcurrency).
  destruct (Creators.check_not_null excluded) as [key|] eqn:Hcheck; [|discriminate].
  apply creators_check_not_null_ok in Hcheck as [Hid Hnn].
  destruct (creators d !! key) as [old|] eqn:Hold.
  - set (new := Creators.update_updated_at_column now (creators_do_update old excluded)).
    destruct (Creators.check_not_null new) as [key'|]; [|discriminate].
    unfold Creators.check_unique.
    destruct (Creators.slug_taken _ _ _) eqn:Htaken; [discriminate|]. intros [= <-].
    apply well_formed_set_creators; [done| |].
    + destruct Hwf as (Hc & _). destruct (Hc key old Hold) as (Hid_old & _).
      unfold creators_row_ok. subst new. simpl. by split_and!.
    + intros k r s Hr Hk Hs. by eapply creators_slug_free.
  - unfold Creators.check_unique.
    destruct (Creators.slug_taken _ _ _) eqn:Htaken; [discriminate|]. intros [= <-].
    apply well_formed_set_creators; [done|by unfold creators_row_ok|].
    intros k r s Hr Hk Hs. by eapply creators_slug_free.
Qed.

Lemma projects_insert_well_formed now x h d d' :
  well_formed d -> projects_insert now x h d = Ok d' -> well_formed d'.
Proof.
  intros Hwf. unfold projects_insert, mbind, outcome_bind, mret, outcome_ret.
  destruct (projects_values now x h) as [excluded|e] eqn:Hvalues; [|discriminate].
  apply projects_values_fits in Hvalues as (Hf1 & Hf2 & Hf3 & Hf4 & Hf5 & Hf6).
  destruct (Projects.check_not_null excluded) as [key|] eqn:Hcheck; [|discriminate].
  apply projects_check_not_null_ok in Hcheck
    as (Hid & Hn1 & Hn2 & Hn3 & Hn4 & Hn5 & Hn6 & Hn7 & [c Hc]).
  destruct (projects d !! key) as [old|] eqn:Hold.
  - set (new := Projects.update_updated_at_column now (projects_do_update now old excluded)).
    destruct (Projects.check_not_null new) as [key'|]; [|discriminate].
    unfold Projects.check_unique.
    destruct (Projects.slug_taken _ _ _) eqn:Htaken; [discriminate|].
    destruct (Projects.check_foreign_key (creators d) new) as [[]|] eqn:Hfk; [|discriminate].
    intros [= <-].
    apply well_formed_set_projects; [done| |].
    + destruct Hwf as (_ & _ & Hp & _). destruct (Hp key old Hold) as (Hid_old & _).
      pose proof (projects_check_foreign_key_ok _ _ Hfk c Hc) as Hcreator.
      unfold projects_row_ok. subst new. simpl. split_and!; eauto.
    + intros k r s Hr Hk Hs. by eapply projects_slug_free.
  - unfold Projects.check_unique.
    destruct (Projects.slug_taken _ _ _) eqn:Htaken; [discriminate|].
    destruct (Projects.check_foreign_key (creators d) excluded) as [[]|] eqn:Hfk;
      [|discriminate].
    intros [= <-].
    apply well_formed_set_projects; [done| |].
    + pose proof (projects_check_foreign_key_ok _ _ Hfk c Hc) as Hcreator.
      unfold projects_row_ok. split_and!; eauto.
    + intros k r s Hr Hk Hs. by eapply projects_slug_free.
Qed.

Lemma outreach_insert_well_formed now x d d' :
  well_formed d -> outreach_insert now x d = Ok d' -> well_formed d'.
Proof.
  intros Hwf. unfold outreach_insert, mbind, outcome_bind, mret, outcome_ret.
  destruct (outreach_values now x) as [excluded|e] eqn:Hvalues; [|discriminate].
  apply outreach_values_fits in Hvalues as (Hf1 & Hf2 & Hf3).
  destruct (Outreach.check_not_null excluded) as [key|] eqn:Hcheck; [|discriminate].
  apply outreach_check_not_null_ok in Hcheck as [Hid Hnn].
  destruct (creator_outreach d !! key) as [old|] eqn:Hold.
  - set (new := Outreach.update_updated_at_column now (outreach_do_update old excluded)).
    destruct (Outreach.check_not_null new) as [key'|] eqn:Hcheck; [|discriminate].
    apply outreach_check_not_null_ok in Hcheck as [_ Hnn'].
    intros [= <-].
    apply well_formed_set_outreach; [done|].
    destruct Hwf as (_ & _ & _ & _ & Ho).
    destruct (Ho key old Hold) as (Hid_old & Hnn_old & Hcreator & Hs_old & Hc_old & Hm_old).
    unfold outreach_row_ok. split_and!; try done.
    + subst new. simpl. destruct (holds _); done.
    + subst new. simpl. intros s. unfold coalesce.
      destruct (Outreach.contact_status excluded); [apply Hf2|apply Hc_old].
  - unfold Outreach.check_foreign_key. case_bool_decide as Hcreator; [|discriminate].
    intros [= <-].
    apply well_formed_set_outreach; [done|]. by unfold outreach_row_ok.
Qed.

(** One iteration keeps the constraints. *)
Lemma single_well_formed b now x d :
  well_formed d -> well_formed (db (single (id_key b) (id_text b) (bulk_body b now) x d)).
Proof.
  intros Hwf. destruct b.
  - change (single _ _ _ x d)
      with (single "creator_id" (fun c => c ->> "id") (creators_body now) x d).
    destruct (creators_single_db now x d) as [->|Hins]; [done|].
    by eapply creators_insert_well_formed.
  - change (single _ _ _ x d)
      with (single "project_id" (fun p => p ->> "id") (projects_body now) x d).
    destruct (projects_single_db now x d) as [->|Hins]; [done|].
    by eapply projects_insert_well_formed.
  - change (single _ _ _ x d)
      with (single "creator_id" (fun o => o ->> "creator_id") (outreach_body now) x d).
    destruct (outreach_single_db now x d) as [->|Hins]; [done|].
    by eapply outreach_insert_well_formed.
Qed.

(** X7: the bulk functions keep the database consistent.  When every
    declared constraint of [creators], [projects] and [creator_outreach]
    holds before a call (primary keys, [NOT NULL] columns, the unique
    indexes on [slug], both foreign keys to [creators], the lengths of
    the [VARCHAR] columns), it holds after the call, whatever the function
    and whatever its argument. *)
Theorem bulk_call_keeps_constraints (b : bulk_function) (now : timestamptz)
    (data : option jsonb) (d : database) :
  well_formed d -> well_formed (bulk_call b now data d).2.
Proof.
  apply (bulk_call_invariant b now well_formed).
  intros x d0. apply single_well_formed.
Qed.

End WellFormed.

(** ** [sync_creator_outreach_bulk], column by column *)

Section OperatorColumns.
Context `{Engine}.

Lemma outreach_insert_operator now x d d' key stored :
  outreach_insert now x d = Ok d' ->
  creator_outreach d !! key = Some stored ->
  exists row',
    creator_outreach d' !! key = Some row' ∧
    operator_columns row' = operator_columns stored.
Proof.
  intros (excluded & k & _ & _ & ->)%outreach_insert_inv Hstored. simpl.
  destruct (decide (k = key)) as [->|Hne].
  - rewrite lookup_insert_eq, Hstored. eauto.
  - rewrite lookup_insert_ne by done. eauto.
Qed.

(** X8: what a sync never touches.  For a row of [creator_outreach]
    that exists when [sync_creator_outreach_bulk] is called, the contact
    history ([first_contacted_at], [last_contacted_at],
    [response_received_at], [contact_method]), [tags], [priority],
    [follow_up_date], the profile URLs and [created_at] are after the call
    what they were before, whatever the batch carries for them: the payload's
    values for these columns are used only when the row is inserted. *)
Theorem sync_keeps_operator_columns (now : timestamptz) (outreach_data : option jsonb)
    (d : database) (key : Z) (stored : Outreach.row) :
  creator_outreach d !! key = Some stored ->
  exists row' : Outreach.row,
    creator_outreach (sync_creator_outreach_bulk now outreach_data d).2 !! key = Some row' ∧
    operator_columns row' = operator_columns stored.
Proof.
  intros Hstored.
  apply (bulk_call_invariant SyncCreatorOutreach now
    (fun d0 => exists row', creator_outreach d0 !! key = Some row' ∧
       operator_columns row' = operator_columns stored)); [|by eauto].
  intros x d0 (row0 & Hrow0 & Hcols0).
  change (single _ _ _ x d0)
    with (single "creator_id" (fun o => o ->> "creator_id") (outreach_body now) x d0).
  destruct (outreach_single_db now x d0) as [->|Hins]; [by eauto|].
  destruct (outreach_insert_operator now x d0 _ key row0 Hins Hrow0) as (row1 & Hrow1 & Hcols1).
  exists row1. split; [exact Hrow1|]. congruence.
Qed.

End OperatorColumns.

Section UnknownCreator.
Context `{Engine}.

Lemma projects_values_creator now x h excluded :
  projects_values now x h = Ok excluded ->
  cast "bigint" to_bigint (x ->> "creator_id") = Ok (Projects.creator_id excluded).
Proof. unfold projects_values. split_binds. by intros [= <-]. Qed.

Lemma cast_bigint_some (s : option string) (x_id : option Z) (k : Z) :
  s ≫= to_bigint = Some k -> cast "bigint" to_bigint s = Ok x_id -> x_id = Some k.
Proof. intros Hk Hcast. by apply (cast_bigint_key s x_id k Hcast Hk). Qed.

Lemma projects_insert_unknown_creator now x h d c :
  referenced_creator x = Some c -> creators d !! c = None ->
  exists e, projects_insert now x h d = Raise e.
Proof.
  intros Href Hnone. unfold projects_insert, mbind, outcome_bind, mret, outcome_ret.
  destruct (projects_values now x h) as [excluded|e] eqn:Hvalues; [|eauto].
  apply projects_values_creator in Hvalues.
  apply (cast_bigint_some _ _ c Href) in Hvalues.
  destruct (Projects.check_not_null excluded) as [key|]; [|eauto].
  destruct (projects d !! key) as [old|].
  - set (new := Projects.update_updated_at_column now (projects_do_update now old excluded)).
    destruct (Projects.check_not_null new); [|eauto].
    destruct (Projects.check_unique _ _ new); [|eauto].
    unfold Projects.check_foreign_key. subst new. simpl. rewrite Hvalues.
    rewrite bool_decide_eq_false_2; [eauto|]. rewrite Hnone. by intros [? ?].
  - destruct (Projects.check_unique _ _ _); [|eauto].
    unfold Projects.check_foreign_key. rewrite Hvalues.
    rewrite bool_decide_eq_false_2; [eauto|]. rewrite Hnone. by intros [? ?].
Qed.

Lemma outreach_insert_unknown_creator now x d c :
  referenced_creator x = Some c -> creators d !! c = None ->
  creator_outreach d !! c = None ->
  exists e, outreach_insert now x d = Raise e.
Proof.
  intros Href Hnone Hrow. unfold outreach_insert, mbind, outcome_bind, mret, outcome_ret.
  destruct (outreach_values now x) as [excluded|e] eqn:Hvalues; [|eauto].
  apply outreach_values_id in Hvalues.
  apply (cast_bigint_some _ _ c Href) in Hvalues.
  destruct (Outreach.check_not_null excluded) as [key|] eqn:Hcheck; [|eauto].
  apply outreach_check_not_null_ok in Hcheck as [Hkey _].
  assert (key = c) as -> by congruence.
  rewrite Hrow. unfold Outreach.check_foreign_key.
  rewrite bool_decide_eq_false_2; [eauto|]. rewrite Hnone. by intros [? ?].
Qed.

(** X9: no row for an unknown creator.  In a database whose constraints
    hold, a project or an outreach payload whose [creator_id] names a
    creator that is not stored is never written, neither as an insert nor
    as an update: the database is as it was and the entity is counted
    neither as inserted nor as updated; an outreach payload always ends
    in [errors]. *)
Theorem unknown_creator_is_never_written (b : bulk_function) (now : timestamptz)
    (x : jsonb) (d : database) (c : Z) :
  well_formed d ->
  b ≠ UpsertCreators ->
  referenced_creator x = Some c ->
  creators d !! c = None ->
  let st := single (id_key b) (id_text b) (bulk_body b now) x d in
  db st = d ∧ v_inserted st = 0 ∧ v_updated st = 0 ∧
  (b = SyncCreatorOutreach -> exists e, v_errors st =
     [{| entity_key := "creator_id"; entity_id := x ->> "creator_id"; error := e |}]).
Proof.
  intros Hwf Hb Href Hnone. cbn zeta. destruct b; [done| |].
  - split_and!; [| | |done].
    all: unfold single, iteration, block, append_error; simpl;
      unfold projects_body; run_body;
      destruct (cast "bigint" to_bigint (x ->> "id")) as [x_id|e]; simpl; [|done];
      destruct (changed _ _ _); simpl; [|done];
      by destruct (projects_insert_unknown_creator now x (x ->> "data_hash") d c Href Hnone)
        as [e ->].
  - assert (creator_outreach d !! c = None) as Hrow.
    { destruct Hwf as (_ & _ & _ & _ & Ho).
      destruct (creator_outreach d !! c) as [r|] eqn:Hr; [|done].
      destruct (Ho c r Hr) as (_ & _ & [? Hcreator] & _). congruence. }
    assert (exists e, (outreach_body now x (zero d)).1 = Raise e) as [e Hraise].
    { unfold outreach_body. run_body.
      destruct (cast "bigint" to_bigint (x ->> "creator_id")) as [x_id|e]; simpl; [|eauto].
      destruct (outreach_insert_unknown_creator now x d c Href Hnone Hrow) as [e ->].
      simpl. eauto. }
    change (single _ _ _ x d)
      with (single "creator_id" (fun o => o ->> "creator_id") (outreach_body now) x d).
    rewrite (single_failed _ _ _ x d e Hraise). simpl. eauto.
Qed.

End UnknownCreator.

Section MergeFacts.
Context `{Engine}.

Lemma outreach_single_ok now x d :
  let st := single "creator_id" (fun o => o ->> "creator_id") (outreach_body now) x d in
  v_errors st = [] ->
  outreach_insert now x d = Ok (db st) ∧
  v_total st = 1 ∧
  v_inserted st =
    (if bool_decide (is_Some (referenced_creator x ≫= fun k => creator_outreach d !! k))
     then 0 else 1) ∧
  v_updated st =
    (if bool_decide (is_Some (referenced_creator x ≫= fun k => creator_outreach d !! k))
     then 1 else 0).
Proof.
  cbn zeta. unfold single, iteration, block, append_error, outreach_body. run_body.
  destruct (cast "bigint" to_bigint (x ->> "creator_id")) as [x_id|e] eqn:Hcast; simpl;
    [|discriminate].
  destruct (outreach_insert now x d) as [d'|e] eqn:Hins; simpl; [|discriminate].
  intros _.
  assert (x_id = referenced_creator x) as ->.
  { revert Hcast. unfold cast, referenced_creator.
    destruct (x ->> "creator_id") as [t|]; simpl; [|congruence].
    destruct (to_bigint t); [congruence|discriminate]. }
  unfold outreach_exists. simpl. by destruct (bool_decide _).
Qed.

Lemma outreach_values_check_at now x excluded :
  outreach_values now x = Ok excluded ->
  cast "timestamp with time zone" to_timestamptz (nullif (x ->> "last_contact_check_at") "")
  = Ok (Outreach.last_contact_check_at excluded).
Proof. unfold outreach_values. split_binds. by intros [= <-]. Qed.

(** X10: how a sync merges what a contact check found.  When a payload
    is merged into a stored row, each of [email], [email_source_url],
    [contact_form_url], [contact_error] and [site_hash] takes the payload's
    value when the payload has one, the empty string included, and keeps
    the stored value when the payload has none or a JSON null;
    [last_contact_check_at] keeps the stored value when the payload has
    none or the empty string. *)
Theorem sync_merges_discovered_text (now : timestamptz) (x : jsonb) (d : database)
    (k : Z) (old : Outreach.row) :
  creator_outreach d !! k = Some old ->
  referenced_creator x = Some k ->
  let d' := (sync_creator_outreach_bulk now (Some (JArray [x])) d).2 in
  (sync_creator_outreach_bulk now (Some (JArray [x])) d).1
    = Ok {| inserted_count := 0; updated_count := 1; total_count := 1; errors := [] |} ->
  exists row' : Outreach.row,
    creator_outreach d' !! k = Some row' ∧
    discovered_text row' = coalesce5 (incoming_text x) (discovered_text old) ∧
    (nullif (x ->> "last_contact_check_at") "" = None ->
     Outreach.last_contact_check_at row' = Outreach.last_contact_check_at old).
Proof.
  intros Hold Href. cbn zeta.
  change (sync_creator_outreach_bulk now) with (bulk_call SyncCreatorOutreach now).
  rewrite (bulk_call_array SyncCreatorOutreach now [x] d).
  change (id_key SyncCreatorOutreach) with "creator_id".
  change (id_text SyncCreatorOutreach) with (fun o : jsonb => o ->> "creator_id").
  change (bulk_body SyncCreatorOutreach now) with (outreach_body now).
  rewrite run_single. cbn [fst snd]. intros [= _ _ _ Herrors].
  destruct (outreach_single_ok now x d Herrors) as (Hins & _).
  apply outreach_insert_inv in Hins as (excluded & k' & Hvalues & Hk' & ->).
  pose proof (outreach_values_id _ _ _ Hvalues) as Hid.
  apply (cast_bigint_some _ _ k Href) in Hid.
  assert (k' = k) as -> by congruence.
  pose proof (outreach_values_check_at _ _ _ Hvalues) as Hcheck.
  apply outreach_values_discovered in Hvalues
    as (Hemail & Hsource & Hform & Herror & Hhash & _).
  simpl. rewrite lookup_insert_eq, Hold. eexists. split; [reflexivity|].
  unfold discovered_text, incoming_text. simpl.
  rewrite Hemail, Hsource, Hform, Herror, Hhash. split; [reflexivity|].
  intros Habsent. rewrite Habsent in Hcheck. simpl in Hcheck.
  injection Hcheck as <-. reflexivity.
Qed.

End MergeFacts.

Section SyncAgain.
Context `{Engine}.








End SyncAgain.

(** ** Counting rows *)

Section CountFacts.
Context {A : Type}.
Implicit Types (p q : A -> bool) (l : list A).

Lemma count_nil p : count p [] = 0.
Proof. reflexivity. Qed.

Lemma count_cons p x l : count p (x :: l) = (if p x then 1 else 0) + count p l.
Proof. unfold count. simpl. destruct (p x); simpl; lia. Qed.

Lemma count_bounds p l : 0 <= count p l <= Z.of_nat (length l).
Proof.
  induction l as [|x l IH]; [by rewrite count_nil|].
  rewrite count_cons. simpl length. destruct (p x); lia.
Qed.

Lemma count_all_rows l : count (fun _ => true) l = Z.of_nat (length l).
Proof. induction l as [|x l IH]; [done|]. rewrite count_cons, IH. simpl length. lia. Qed.

Lemma count_ext p q l : (forall x, x ∈ l -> p x = q x) -> count p l = count q l.
Proof.
  induction l as [|x l IH]; intros Hpq; [done|].
  rewrite !count_cons, (Hpq x) by left. rewrite IH; [done|].
  intros y Hy. apply Hpq. by right.
Qed.

Lemma count_perm p l l' : l ≡ₚ l' -> count p l = count p l'.
Proof.
  induction 1 as [|x l l' _ IH|x y l|l l' l'' _ IH1 _ IH2]; [done| | |congruence].
  - by rewrite !count_cons, IH.
  - rewrite !count_cons. lia.
Qed.

(** Two tests of which exactly one holds on each row split the rows. *)
Lemma count_split p q l :
  (forall x, x ∈ l -> p x = negb (q x)) ->
  count p l + count q l = Z.of_nat (length l).
Proof.
  induction l as [|x l IH]; intros Hpq; [done|].
  rewrite !count_cons, (Hpq x) by left. simpl length.
  specialize (IH (fun y Hy => Hpq y (list_elem_of_further _ _ _ Hy))).
  destruct (q x); simpl; lia.
Qed.

(** Tests that exclude one another count at most all rows. *)
Lemma count_disjoint p q l :
  (forall x, x ∈ l -> p x = true -> q x = false) ->
  count p l + count q l <= Z.of_nat (length l).
Proof.
  induction l as [|x l IH]; intros Hpq; [done|].
  rewrite !count_cons. simpl length.
  specialize (IH (fun y Hy => Hpq y (list_elem_of_further _ _ _ Hy))).
  pose proof (Hpq x (list_elem_of_here _ _)) as Hx.
  destruct (p x); [rewrite Hx by done|destruct (q x)]; lia.
Qed.

Lemma count_filter p q l : count p (List.filter q l) = count (fun x => q x && p x) l.
Proof.
  induction l as [|x l IH]; [done|]. simpl. rewrite count_cons.
  destruct (q x); simpl; [by rewrite count_cons, IH|by rewrite IH].
Qed.

Lemma count_le p q l : (forall x, x ∈ l -> p x = true -> q x = true) -> count p l <= count q l.
Proof.
  induction l as [|x l IH]; intros Hpq; [done|].
  rewrite !count_cons.
  specialize (IH (fun y Hy => Hpq y (list_elem_of_further _ _ _ Hy))).
  pose proof (Hpq x (list_elem_of_here _ _)) as Hx.
  destruct (p x); [rewrite Hx by done|destruct (q x)]; lia.
Qed.

End CountFacts.

Section JoinFacts.

Lemma count_omap {A B : Type} (f : A -> option B) (q : B -> bool) (p : A -> bool)
    (l : list A) :
  (forall x, x ∈ l -> exists y, f x = Some y ∧ q y = p x) ->
  count q (omap f l) = count p l.
Proof.
  induction l as [|x l IH]; intros Hf; [done|].
  destruct (Hf x) as (y & Hy & Hq); [by left|].
  cbn [omap list_omap]. rewrite Hy. rewrite !count_cons, Hq, IH; [done|].
  intros z Hz. apply Hf. by right.
Qed.

Lemma count_fmap {A B : Type} (f : A -> B) (q : B -> bool) (l : list A) :
  count q (f <$> l) = count (fun x => q (f x)) l.
Proof. induction l as [|x l IH]; [done|]. cbn [fmap list_fmap]. by rewrite !count_cons, IH. Qed.

Lemma total_app (xs ys : list Z) : total (xs ++ ys) = total xs + total ys.
Proof. induction xs as [|x xs IH]; simpl; [done|]. unfold total in *. simpl. lia. Qed.

(** Exactly one of the keys of a list without duplicates is a given
    member of it. *)
Lemma total_indicator {B K : Type} `{EqDecision K} (g : B -> K) (a : K) (L : list B) :
  NoDup (g <$> L) -> a ∈ g <$> L ->
  total ((fun b => if bool_decide (a = g b) then 1 else 0) <$> L) = 1.
Proof.
  induction L as [|b L IH]; intros Hnodup Ha; [by apply elem_of_nil in Ha|].
  rewrite fmap_cons in Hnodup, Ha. apply NoDup_cons in Hnodup as [Hfresh Hnodup].
  unfold total in *. cbn [fmap list_fmap foldr].
  case_bool_decide as Hab.
  - subst a.
    assert (foldr Z.add 0 ((fun b0 => if bool_decide (g b = g b0) then 1 else 0) <$> L) = 0)
      as ->; [|lia].
    clear IH Ha Hnodup. induction L as [|b' L IH]; [done|].
    rewrite fmap_cons in Hfresh. apply not_elem_of_cons in Hfresh as [Hne Hfresh].
    cbn [fmap list_fmap foldr]. rewrite bool_decide_eq_false_2 by done.
    by rewrite IH.
  - apply elem_of_cons in Ha as [Ha|Ha]; [done|]. rewrite IH; [lia|done|done].
Qed.

(** Grouping: when every row has its key among the keys of [L], and the
    keys of [L] are pairwise distinct, the sizes of the groups add up to
    the number of rows. *)
Lemma group_sizes {A B K : Type} `{EqDecision K} (f : A -> K) (g : B -> K)
    (l : list A) (L : list B) :
  NoDup (g <$> L) ->
  (forall x, x ∈ l -> f x ∈ g <$> L) ->
  total ((fun b => count (fun x => bool_decide (f x = g b)) l) <$> L) = Z.of_nat (length l).
Proof.
  intros Hnodup. induction l as [|x l IH]; intros Hkeys.
  - clear. unfold total. induction L as [|b L IHL]; [done|].
    cbn [fmap list_fmap foldr]. by rewrite count_nil, IHL.
  - assert (total ((fun b => count (fun x0 => bool_decide (f x0 = g b)) (x :: l)) <$> L)
            = total ((fun b => if bool_decide (f x = g b) then 1 else 0) <$> L)
              + total ((fun b => count (fun x0 => bool_decide (f x0 = g b)) l) <$> L)) as ->.
    { clear. unfold total. induction L as [|b L IHL]; [done|].
      cbn [fmap list_fmap foldr]. rewrite count_cons, IHL. lia. }
    rewrite total_indicator by (done || apply Hkeys; by left).
    rewrite IH by (intros y Hy; apply Hkeys; by right).
    simpl length. lia.
Qed.

(** A left join on a key, counted: when every key of [os] is a key of
    [cs], the rows of [cs] whose partner in [os] passes a test are as many
    as the rows of [os] that pass it. *)
Lemma count_join {C O : Type} (cs : gmap Z C) (os : gmap Z O) (P : O -> bool) :
  (forall k, is_Some (os !! k) -> is_Some (cs !! k)) ->
  count (fun kc : Z * C => match os !! kc.1 with Some o => P o | None => false end)
        (map_to_list cs)
  = count P (rows os).
Proof.
  induction os as [|k o os Hfresh IH] using map_ind; intros Hsub.
  - unfold rows. rewrite map_to_list_empty. simpl. rewrite count_nil.
    induction (map_to_list cs) as [|kc l IHl]; [done|].
    by rewrite count_cons, lookup_empty, IHl.
  - destruct (Hsub k) as [c Hc]; [by rewrite lookup_insert_eq|].
    assert (map_to_list cs ≡ₚ (k, c) :: map_to_list (delete k cs)) as Hperm.
    { rewrite <- map_to_list_insert by apply lookup_delete_eq.
      by rewrite insert_delete_id. }
    rewrite (count_perm _ _ _ Hperm), count_cons. simpl.
    rewrite lookup_insert_eq.
    unfold rows. rewrite (count_perm _ _ _ (fmap_Permutation snd _ _
      (map_to_list_insert os k o Hfresh))).
    cbn [fmap list_fmap]. rewrite count_cons. simpl. f_equal.
    fold (rows os). rewrite <- IH.
    2:{ intros k' Hk'. apply Hsub. rewrite lookup_insert_is_Some'. by right. }
    rewrite (count_perm _ _ _ Hperm), count_cons. simpl. rewrite Hfresh. simpl.
    apply count_ext. intros [k' c'] Hk'. simpl.
    apply elem_of_map_to_list, lookup_delete_Some in Hk' as [Hne _].
    by rewrite lookup_insert_ne.
Qed.

Lemma length_rows {R : Type} (t : gmap Z R) : length (rows t) = size t.
Proof. unfold rows. by rewrite length_fmap, length_map_to_list. Qed.

Lemma elem_of_rows {R : Type} (t : gmap Z R) (r : R) :
  r ∈ rows t <-> exists k, t !! k = Some r.
Proof.
  unfold rows. rewrite list_elem_of_fmap. split.
  - intros ([k r'] & -> & Hin). exists k. by apply elem_of_map_to_list.
  - intros [k Hk]. exists (k, r). split; [done|]. by apply elem_of_map_to_list.
Qed.

End JoinFacts.

(** ** The views and [get_home_stats] *)

Section ViewFacts.
Context `{Engine}.

Lemma count_or {A : Type} (p q : A -> bool) (l : list A) :
  (forall x, x ∈ l -> p x = true -> q x = false) ->
  count p l + count q l = count (fun x => p x || q x) l.
Proof.
  induction l as [|x l IH]; intros Hpq; [done|].
  rewrite !count_cons.
  specialize (IH (fun y Hy => Hpq y (list_elem_of_further _ _ _ Hy))).
  pose proof (Hpq x (list_elem_of_here _ _)) as Hx.
  destruct (p x); [rewrite Hx by done|destruct (q x)]; simpl; lia.
Qed.

Lemma length_omap_le {A B : Type} (f : A -> option B) (l : list A) :
  (length (omap f l) <= length l)%nat.
Proof.
  induction l as [|x l IH]; [done|]. cbn [omap list_omap].
  destruct (f x); simpl; lia.
Qed.

Lemma length_omap_total {A B : Type} (f : A -> option B) (l : list A) :
  (forall x, x ∈ l -> is_Some (f x)) -> length (omap f l) = length l.
Proof.
  induction l as [|x l IH]; intros Hf; [done|]. cbn [omap list_omap].
  destruct (Hf x) as [y ->]; [by left|]. simpl. f_equal. apply IH.
  intros z Hz. apply Hf. by right.
Qed.

(** In a database whose constraints hold, every outreach row and every
    project finds its creator. *)
Lemma outreach_creator d co :
  well_formed d -> co ∈ rows (creator_outreach d) ->
  exists k c, creator_outreach d !! k = Some co ∧ Outreach.creator_id co = Some k ∧
    creators d !! k = Some c.
Proof.
  intros (_ & _ & _ & _ & Ho) [k Hk]%elem_of_rows.
  destruct (Ho k co Hk) as (Hid & _ & [c Hc] & _). eauto.
Qed.

Lemma project_creator d p :
  well_formed d -> p ∈ rows (projects d) ->
  exists k c, Projects.creator_id p = Some k ∧ creators d !! k = Some c.
Proof.
  intros (_ & _ & Hp & _) [k Hk]%elem_of_rows.
  destruct (Hp k p Hk) as (_ & _ & _ & _ & _ & _ & _ & _ & (c & Hc & [r Hr]) & _). eauto.
Qed.

(** X12: the outreach statistics add up.  [vw_outreach_statistics] has
    one row for each status that occurs, no status twice; every row counts
    at least one creator, the counts of all rows add up to the number of
    rows of [creator_outreach], and none of the [with_...] counts of a row
    exceeds its count. *)
Theorem outreach_statistics_add_up (d : database) :
  let v := OutreachViews.vw_outreach_statistics d in
  total (OutreachViews.count_all <$> v) = Z.of_nat (size (creator_outreach d)) ∧
  NoDup (OutreachViews.outreach_status <$> v) ∧
  forall r : OutreachViews.statistics_row, r ∈ v ->
    1 <= OutreachViews.count_all r ∧
    0 <= OutreachViews.with_instagram r <= OutreachViews.count_all r ∧
    0 <= OutreachViews.with_twitter r <= OutreachViews.count_all r ∧
    0 <= OutreachViews.with_linkedin r <= OutreachViews.count_all r ∧
    0 <= OutreachViews.with_facebook r <= OutreachViews.count_all r ∧
    0 <= OutreachViews.with_youtube r <= OutreachViews.count_all r ∧
    0 <= OutreachViews.with_any_contact r <= OutreachViews.count_all r.
Proof.
  cbn zeta. unfold OutreachViews.vw_outreach_statistics.
  set (all := rows (creator_outreach d)).
  set (keys := remove_dups (Outreach.outreach_status <$> all)).
  split_and!.
  - rewrite <- list_fmap_compose.
    rewrite <- length_rows. fold all.
    rewrite <- (group_sizes Outreach.outreach_status id all keys).
    + reflexivity.
    + rewrite list_fmap_id. apply NoDup_remove_dups.
    + intros x Hx. rewrite list_fmap_id. apply elem_of_remove_dups.
      apply list_elem_of_fmap. eauto.
  - rewrite <- list_fmap_compose.
    rewrite (list_fmap_ext _ id keys) by done.
    rewrite list_fmap_id. apply NoDup_remove_dups.
  - intros r (s & -> & Hs)%list_elem_of_fmap.
    apply elem_of_remove_dups, list_elem_of_fmap in Hs as (x & -> & Hx).
    unfold OutreachViews.statistics_of. simpl.
    set (group := List.filter _ all).
    assert (1 <= Z.of_nat (length group)) as Hone.
    { assert (x ∈ group) as Hin.
      { apply list_elem_of_In, filter_In. split; [by apply list_elem_of_In|].
        by apply bool_decide_eq_true_2. }
      destruct group; [by apply elem_of_nil in Hin|simpl; lia]. }
    split; [exact Hone|]. split_and!; apply count_bounds.
Qed.

Lemma creators_complete_by_key d :
  well_formed d ->
  OutreachViews.vw_creators_complete d =
  (fun kc : Z * Creators.row =>
     {| OutreachViews.creator := kc.2;
        OutreachViews.outreach := creator_outreach d !! kc.1;
        OutreachViews.project_count :=
          count (fun p => bool_decide (Projects.creator_id p = Some kc.1))
                (rows (projects d)) |})
  <$> map_to_list (creators d).
Proof.
  intros Hwf. unfold OutreachViews.vw_creators_complete.
  change (rows (creators d)) with (snd <$> map_to_list (creators d)).
  rewrite <- list_fmap_compose. apply list_fmap_ext.
  intros i [k c] Hkc%list_elem_of_lookup_2%elem_of_map_to_list. simpl.
  destruct Hwf as (Hc & _ & Hp & _). destruct (Hc k c Hkc) as (-> & _). simpl.
  f_equal. apply count_ext. intros p [kp Hkp]%elem_of_rows.
  destruct (Hp kp p Hkp) as (-> & _). simpl.
  destruct (Projects.creator_id p) as [k'|]; simpl; [|done].
  by repeat case_bool_decide; simplify_eq.
Qed.

(** X13: [vw_creators_complete] counts every project once.  In a
    database whose constraints hold, the view has exactly one row for each
    creator, with the outreach row of that creator when there is one, and
    the [project_count] column adds up to the number of rows of
    [projects]. *)
Theorem creators_complete_counts_projects (d : database) :
  well_formed d ->
  let v := OutreachViews.vw_creators_complete d in
  length v = size (creators d) ∧
  total (OutreachViews.project_count <$> v) = Z.of_nat (size (projects d)) ∧
  forall (k : Z) (c : Creators.row), creators d !! k = Some c ->
    exists row, row ∈ v ∧ OutreachViews.creator row = c ∧
      OutreachViews.outreach row = creator_outreach d !! k ∧
      OutreachViews.project_count row =
        count (fun p => bool_decide (Projects.creator_id p = Some k)) (rows (projects d)).
Proof.
  intros Hwf. cbn zeta. rewrite creators_complete_by_key by done. split_and!.
  - by rewrite length_fmap, length_map_to_list.
  - rewrite <- list_fmap_compose, <- length_rows.
    rewrite <- (group_sizes Projects.creator_id (fun kc : Z * Creators.row => Some kc.1)
                  (rows (projects d)) (map_to_list (creators d))).
    + reflexivity.
    + assert ((fun kc : Z * Creators.row => Some kc.1) <$> map_to_list (creators d)
              = Some <$> (fst <$> map_to_list (creators d))) as ->
        by (by rewrite <- list_fmap_compose).
      apply (NoDup_fmap_2 _), NoDup_fst_map_to_list.
    + intros p Hp. destruct (project_creator d p Hwf Hp) as (k & c & -> & Hc).
      apply list_elem_of_fmap. exists (k, c). split; [done|].
      by apply elem_of_map_to_list.
  - intros k c Hc. eexists. split.
    + apply list_elem_of_fmap. exists (k, c). split; [reflexivity|].
      by apply elem_of_map_to_list.
    + done.
Qed.

(** X14: [vw_projects_with_creators] loses no project.  In a database
    whose constraints hold, the inner join with [creators] finds a creator
    for every project: the view has as many rows as [projects], and every
    project is in it with the name of its creator. *)
Theorem projects_with_creators_is_complete (d : database) :
  well_formed d ->
  let v := ProjectViews.vw_projects_with_creators d in
  length v = size (projects d) ∧
  forall (k : Z) (p : Projects.row), projects d !! k = Some p ->
    exists (ck : Z) (c : Creators.row),
      Projects.creator_id p = Some ck ∧ creators d !! ck = Some c ∧
      ProjectViews.select (p, c) ∈ v.
Proof.
  intros Hwf. cbn zeta. unfold ProjectViews.vw_projects_with_creators, ProjectViews.joined.
  split.
  - rewrite length_fmap, length_omap_total, length_rows; [done|].
    intros p Hp. destruct (project_creator d p Hwf Hp) as (k & c & -> & Hc).
    simpl. rewrite Hc. simpl. eauto.
  - intros k p Hp.
    destruct (project_creator d p Hwf) as (ck & c & Hck & Hc); [apply elem_of_rows; eauto|].
    exists ck, c. split; [done|]. split; [done|].
    apply list_elem_of_fmap. exists (p, c). split; [done|].
    apply list_elem_of_omap. exists p. split; [apply elem_of_rows; eauto|].
    rewrite Hck. simpl. by rewrite Hc.
Qed.

End ViewFacts.

Section ReadyFacts.
Context `{Engine}.

Lemma holds_and3 a b : holds (and3 a b) = holds a && holds b.
Proof. by destruct a as [[]|], b as [[]|]. Qed.

Lemma holds_eq3_true (b : option bool) : holds (eq3 b (Some true)) = bool_decide (b = Some true).
Proof. by destruct b as [[]|]. Qed.

Lemma holds_eq3 (x : option string) (s : string) :
  holds (eq3 x (Some s)) = bool_decide (x = Some s).
Proof.
  destruct x as [t|]; simpl; [|done].
  destruct (decide (t = s)) as [->|Hne]; [by rewrite !bool_decide_eq_true_2|].
  rewrite !bool_decide_eq_false_2; congruence.
Qed.

Lemma ready_to_contact_ready o c :
  OutreachViews.ready_to_contact (o, c) = bool_decide (ready o).
Proof.
  unfold OutreachViews.ready_to_contact, ready. simpl.
  rewrite holds_and3, holds_eq3_true, holds_eq3.
  destruct (has_any_contact_true o) as [_ Hany].
  apply eq_true_iff_eq. rewrite andb_true_iff, !bool_decide_eq_true. by rewrite Hany.
Qed.

(** X15: [vw_creators_ready_to_contact] lists each ready creator once.
    In a database whose constraints hold, the view has exactly one row for
    each row of [creator_outreach] that has a contact on record (an email
    that is not NULL, or [has_contact_form] true) and the status
    ['not_contacted'], with the name and slug of its creator, and no other
    row. *)
Theorem ready_to_contact_lists_each_once (d : database) :
  well_formed d ->
  let v := OutreachViews.vw_creators_ready_to_contact d in
  Z.of_nat (length v) = count (fun o => bool_decide (ready o)) (rows (creator_outreach d)) ∧
  (forall row : OutreachViews.contact_row, row ∈ v ->
     ready (OutreachViews.co row) ∧
     exists (k : Z) (c : Creators.row),
       creator_outreach d !! k = Some (OutreachViews.co row) ∧
       creators d !! k = Some c ∧
       OutreachViews.creator_name row = Creators.name c ∧
       OutreachViews.creator_slug row = Creators.slug c) ∧
  (forall (k : Z) (o : Outreach.row),
     creator_outreach d !! k = Some o -> ready o ->
     exists row, row ∈ v ∧ OutreachViews.co row = o).
Proof.
  intros Hwf. cbn zeta. unfold OutreachViews.vw_creators_ready_to_contact. split_and!.
  - rewrite length_fmap.
    change (Z.of_nat (length (List.filter OutreachViews.ready_to_contact
                                (OutreachViews.joined d))))
      with (count OutreachViews.ready_to_contact (OutreachViews.joined d)).
    unfold OutreachViews.joined. apply count_omap.
    intros o Ho. destruct (outreach_creator d o Hwf Ho) as (k & c & _ & -> & Hc).
    simpl. rewrite Hc. simpl. eexists. split; [reflexivity|].
    apply ready_to_contact_ready.
  - intros row ([o c] & -> & Hin)%list_elem_of_fmap.
    apply list_elem_of_In, filter_In in Hin as [Hin Hready].
    rewrite ready_to_contact_ready in Hready. apply bool_decide_eq_true in Hready.
    split; [exact Hready|].
    apply list_elem_of_In, list_elem_of_omap in Hin as (o' & Ho' & Hjoin).
    destruct (outreach_creator d o' Hwf Ho') as (k & c' & Hk & Hid & Hc').
    rewrite Hid in Hjoin. simpl in Hjoin. rewrite Hc' in Hjoin. simpl in Hjoin.
    injection Hjoin as <- <-. exists k, c'. done.
  - intros k o Ho Hready.
    destruct (outreach_creator d o Hwf) as (k' & c & _ & Hid & Hc); [apply elem_of_rows; eauto|].
    exists (OutreachViews.select (o, c)). split; [|done].
    apply list_elem_of_fmap. exists (o, c). split; [done|].
    apply list_elem_of_In, filter_In. split.
    + apply list_elem_of_In, list_elem_of_omap. exists o.
      split; [apply elem_of_rows; eauto|]. rewrite Hid. simpl. by rewrite Hc.
    + rewrite ready_to_contact_ready. by apply bool_decide_eq_true_2.
Qed.

End ReadyFacts.

Section HomeStatsFacts.
Context `{Engine}.
Import HomeStats.

Lemma joined_by_key d :
  well_formed d ->
  ContactsView.joined d
  = (fun kc : Z * Creators.row => (kc.2, creator_outreach d !! kc.1))
    <$> map_to_list (creators d).
Proof.
  intros (Hc & _). unfold ContactsView.joined. rewrite <- list_fmap_compose.
  apply list_fmap_ext. intros i [k c] Hi. simpl.
  apply list_elem_of_lookup_2, elem_of_map_to_list in Hi.
  destruct (Hc k c Hi) as (-> & _). done.
Qed.

(** X16: the numbers of the home page add up.  In a database whose
    constraints hold, [get_home_stats] returns the sizes of [projects] and
    [creators] as totals; every creator is counted either in
    [creators_with_contact] (its outreach status is not
    ['not_contacted']) or in [creators_not_contacted] (no outreach row, or
    that status), never in both; the three project states counted are at most
    all projects; partnerships and interested creators are among those
    with contact; and no count exceeds its total. *)
Theorem home_stats_add_up (d : database) :
  well_formed d ->
  let s := get_home_stats d in
  total_projects s = Z.of_nat (size (projects d)) ∧
  total_creators s = Z.of_nat (size (creators d)) ∧
  creators_with_contact s + creators_not_contacted s = total_creators s ∧
  0 <= active_projects s ∧ 0 <= successful_projects s ∧ 0 <= failed_projects s ∧
  active_projects s + successful_projects s + failed_projects s <= total_projects s ∧
  0 <= creators_partnership s ∧ 0 <= creators_interested s ∧
  creators_partnership s + creators_interested s <= creators_with_contact s ∧
  0 <= projects_by_superbacker s <= total_projects s.
Proof.
  intros Hwf. cbn zeta. unfold get_home_stats. simpl.
  rewrite !count_all_rows, !length_rows. split_and!; try done; try apply count_bounds.
  - rewrite (joined_by_key d Hwf), count_fmap. simpl.
    rewrite <- (count_join (creators d) (creator_outreach d)).
    2:{ intros k [o Ho]. destruct Hwf as (_ & _ & _ & _ & Hout).
        by destruct (Hout k o Ho) as (_ & _ & Hc & _). }
    rewrite Z.add_comm, <- length_map_to_list. apply count_split.
    intros [k c] Hkc. simpl.
    destruct (creator_outreach d !! k) as [o|] eqn:Ho; simpl; [|done].
    destruct Hwf as (_ & _ & _ & _ & Hout).
    destruct (Hout k o Ho) as (-> & [s ->] & _). simpl.
    by destruct (bool_decide _).
  - rewrite count_or.
    + rewrite <- length_rows. apply count_disjoint.
      intros p _. unfold state_is, in3.
      destruct (Projects.state p) as [s|]; simpl; [|done].
      repeat case_bool_decide; subst; simpl; done.
    + intros p _. unfold state_is, in3.
      destruct (Projects.state p) as [s|]; simpl; [|done].
      repeat case_bool_decide; subst; simpl; done.
  - rewrite count_or.
    + apply count_le. intros o _. unfold status_is.
      destruct (Outreach.outreach_status o) as [s|]; simpl; [|done].
      repeat case_bool_decide; subst; simpl; done.
    + intros o _. unfold status_is.
      destruct (Outreach.outreach_status o) as [s|]; simpl; [|done].
      repeat case_bool_decide; subst; simpl; done.
  - etrans; [apply count_bounds|]. apply inj_le.
    rewrite <- length_rows. apply length_omap_le.
Qed.

End HomeStatsFacts.

(** ** The [JSONB] columns *)

Section WebsitesFacts.
Context `{Engine}.
Import Websites.

Lemma string_agg_none sep values :
  string_agg sep values = None <-> forall v, v ∈ values -> v = None.
Proof.
  unfold string_agg. induction values as [|[s|] values IH]; cbn [omap list_omap]; simpl.
  - split; [|done]. intros _ v Hv. by apply elem_of_nil in Hv.
  - split; [discriminate|]. intros Hall. by specialize (Hall (Some s) (list_elem_of_here _ _)).
  - rewrite IH. split.
    + intros Hall v [->|Hv]%elem_of_cons; [done|by apply Hall].
    + intros Hall v Hv. apply Hall. by right.
Qed.

Lemma usable_spec url : usable url = true <-> exists u, url = Some u ∧ u ≠ "".
Proof.
  unfold usable. destruct url as [u|]; simpl.
  - destruct (decide (u = "")) as [->|Hne].
    + rewrite bool_decide_eq_true_2 by done. simpl. split; [discriminate|].
      by intros (u & [= <-] & ?).
    + rewrite bool_decide_eq_false_2 by congruence. simpl. split; [eauto|done].
  - split; [discriminate|]. by intros (u & ? & _).
Qed.

(** X17: the [creator_websites] column of the client view.  The
    sub-query that computes it succeeds when [websites] is NULL or a JSON
    array and raises on every other JSON value, JSON null included.  On an
    array it is NULL exactly when no element has a [url] that is a
    non-empty text; on NULL it is NULL. *)
Theorem creator_websites_needs_an_array (c : Creators.row) :
  match Creators.websites c with
  | None => creator_websites c = Ok None
  | Some (JArray sites) =>
      exists lines : option string,
        creator_websites c = Ok lines ∧
        (lines = None <->
         forall site, site ∈ sites -> site ->> "url" = None ∨ site ->> "url" = Some "")
  | Some _ => exists e : sqlerr, creator_websites c = Raise e
  end.
Proof.
  unfold creator_websites. destruct (Creators.websites c) as [[]|]; simpl; eauto.
  eexists. split; [reflexivity|]. rewrite string_agg_none. unfold urls. split.
  - intros Hall site Hsite.
    destruct (site ->> "url") as [u|] eqn:Hurl; [|by left]. right.
    destruct (decide (u = "")) as [->|Hne]; [done|].
    assert (Some u = None) as Hcontra; [|done].
    apply Hall, list_elem_of_In, filter_In. split.
    + apply list_elem_of_In, list_elem_of_fmap. eauto.
    + apply usable_spec. eauto.
  - intros Hall v Hv. apply list_elem_of_In, filter_In in Hv as [Hv Husable].
    apply list_elem_of_In, list_elem_of_fmap in Hv as (site & -> & Hsite).
    apply usable_spec in Husable as (u & Hu & Hne).
    destruct (Hall site Hsite) as [Hurl|Hurl]; congruence.
Qed.

End WebsitesFacts.

Section JsonFacts.
Context `{Engine}.

Lemma creators_values_json now x h excluded :
  creators_values now x h = Ok excluded ->
  [Creators.avatar excluded; Creators.urls excluded; Creators.websites excluded]
  = incoming_json UpsertCreators x.
Proof. unfold creators_values. split_binds. by intros [= <-]. Qed.

Lemma projects_values_json now x h excluded :
  projects_values now x h = Ok excluded ->
  [Projects.photo excluded; Projects.category excluded; Projects.location excluded;
   Projects.profile excluded; Projects.urls excluded]
  = incoming_json UpsertProjects x.
Proof. unfold projects_values. split_binds. by intros [= <-]. Qed.

Lemma creators_insert_json now x h d d' :
  creators_insert now x h d = Ok d' ->
  exists k, parsed_id x = Some k ∧
    json_columns UpsertCreators d' k = Some (incoming_json UpsertCreators x).
Proof.
  unfold creators_insert, mbind, outcome_bind, mret, outcome_ret.
  destruct (creators_values now x h) as [excluded|e] eqn:Hvalues; [|discriminate].
  pose proof (creators_values_json _ _ _ _ Hvalues) as Hjson.
  apply creators_values_inv in Hvalues as [Hid _].
  destruct (Creators.check_not_null excluded) as [k|] eqn:Hcheck; [|discriminate].
  apply creators_check_not_null_ok in Hcheck as [Hk _].
  rewrite Hk in Hid. apply cast_bigint_id in Hid.
  destruct (creators d !! k) as [old|].
  - destruct (Creators.check_not_null _); [|discriminate].
    destruct (Creators.check_unique _ _ _); [|discriminate].
    intros [= <-]. exists k. split; [done|]. simpl in Hjson |- *.
    rewrite lookup_insert_eq. simpl. by f_equal.
  - destruct (Creators.check_unique _ _ _); [|discriminate].
    intros [= <-]. exists k. split; [done|]. simpl in Hjson |- *.
    rewrite lookup_insert_eq. simpl. by f_equal.
Qed.

Lemma projects_insert_json now x h d d' :
  projects_insert now x h d = Ok d' ->
  exists k, parsed_id x = Some k ∧
    json_columns UpsertProjects d' k = Some (incoming_json UpsertProjects x).
Proof.
  unfold projects_insert, mbind, outcome_bind, mret, outcome_ret.
  destruct (projects_values now x h) as [excluded|e] eqn:Hvalues; [|discriminate].
  pose proof (projects_values_json _ _ _ _ Hvalues) as Hjson.
  apply projects_values_inv in Hvalues as [Hid _].
  destruct (Projects.check_not_null excluded) as [k|] eqn:Hcheck; [|discriminate].
  apply projects_check_not_null_ok in Hcheck as [Hk _].
  rewrite Hk in Hid. apply cast_bigint_id in Hid.
  destruct (projects d !! k) as [old|].
  - set (new := Projects.update_updated_at_column now (projects_do_update now old excluded)).
    destruct (Projects.check_not_null new); [|discriminate].
    destruct (Projects.check_unique _ _ new); [|discriminate].
    destruct (Projects.check_foreign_key _ new); [|discriminate].
    intros [= <-]. exists k. split; [done|]. simpl in Hjson |- *.
    rewrite lookup_insert_eq. simpl. by f_equal.
  - destruct (Projects.check_unique _ _ _); [|discriminate].
    destruct (Projects.check_foreign_key _ _); [|discriminate].
    intros [= <-]. exists k. split; [done|]. simpl in Hjson |- *.
    rewrite lookup_insert_eq. simpl. by f_equal.
Qed.

Lemma creators_single_written now x d :
  let st := single "creator_id" (fun c => c ->> "id") (creators_body now) x d in
  v_inserted st + v_updated st = 1 ->
  creators_insert now x (x ->> "data_hash") d = Ok (db st).
Proof.
  cbn zeta. unfold single, iteration, block, append_error, creators_body. run_body.
  destruct (cast "bigint" to_bigint (x ->> "id")); simpl; [|discriminate].
  destruct (changed _ _ _); simpl; [|discriminate].
  destruct (creators_insert now x _ d) as [d'|]; simpl; [|discriminate].
  by destruct (holds _).
Qed.

Lemma projects_single_written now x d :
  let st := single "project_id" (fun p => p ->> "id") (projects_body now) x d in
  v_inserted st + v_updated st = 1 ->
  projects_insert now x (x ->> "data_hash") d = Ok (db st).
Proof.
  cbn zeta. unfold single, iteration, block, append_error, projects_body. run_body.
  destruct (cast "bigint" to_bigint (x ->> "id")); simpl; [|discriminate].
  destruct (changed _ _ _); simpl; [|discriminate].
  destruct (projects_insert now x _ d) as [d'|]; simpl; [|discriminate].
  by destruct (holds _).
Qed.

(** X18: an upsert replaces the JSON columns.  When
    [upsert_creators_bulk] or [upsert_projects_bulk] writes an entity, as
    an insert or as an update, the [JSONB] columns of the stored row are
    the payload's, whatever was stored before: a column the payload lacks
    becomes NULL ([websites] of a creator becomes the empty array), and a
    value of any JSON type, JSON null included, is stored as it comes. *)
Theorem upsert_replaces_json_columns (b : bulk_function) (now : timestamptz)
    (x : jsonb) (d : database) (r : bulk_result) :
  hash_guarded b ->
  let call := bulk_call b now (Some (JArray [x])) d in
  call.1 = Ok r ->
  inserted_count r + updated_count r = 1 ->
  exists k : Z,
    parsed_id x = Some k ∧
    json_columns b call.2 k = Some (incoming_json b x).
Proof.
  intros Hb. cbn zeta. rewrite bulk_call_array, run_single. cbn [fst snd].
  intros [= <-]. cbn [inserted_count updated_count report]. intros Hwritten.
  destruct Hb as [-> | ->].
  - apply (creators_insert_json now x (x ->> "data_hash") d).
    by apply creators_single_written.
  - apply (projects_insert_json now x (x ->> "data_hash") d).
    by apply projects_single_written.
Qed.

End JsonFacts.

(** ** The keys of the blocklist *)

Section BlocklistKeyFacts.
Context `{Engine}.
Import Blocklist.

Lemma lower_char_idempotent (c : ascii) : lower_char (lower_char c) = lower_char c.
Proof. by destruct c as [[] [] [] [] [] [] [] []]. Qed.

Lemma lower_idempotent (s : string) : lower (lower s) = lower s.
Proof. induction s as [|c s IH]; simpl; [done|]. by rewrite lower_char_idempotent, IH. Qed.

(** X19: the blocklist holds lower-case domains only.  When every row
    of [firecrawl_blocked_domains] is stored under its own [domain] and
    that domain is in lower case, the same is true after any call of
    [firecrawl_block_domain], whatever the letter case of its argument. *)
Theorem block_domain_keeps_lower_case (now : timestamptz)
    (p_domain p_reason p_source p_notes : option string) (t : gmap string row) :
  lower_case_keys t ->
  lower_case_keys (firecrawl_block_domain now p_domain p_reason p_source p_notes t).
Proof.
  intros Hkeys k r. rewrite block_lookup.
  destruct (decide (blocked_key p_domain = Some k)) as [Hk|_]; [|apply Hkeys].
  apply blocked_key_lower in Hk as (s & _ & ->). intros [= <-].
  unfold upserted. destruct (t !! lower s) as [old|] eqn:Hold; simpl.
  - by destruct (Hkeys _ _ Hold).
  - split; [done|apply lower_idempotent].
Qed.

End BlocklistKeyFacts.

(** ** The work lists *)

Section WorkLists.
Context `{Engine}.
Import OutreachViews.

Lemma elem_of_selected (test : Outreach.row * Creators.row -> bool) d row :
  row ∈ select <$> List.filter test (joined d) ->
  exists c, test (co row, c) = true.
Proof.
  intros ([o c] & -> & Hin)%list_elem_of_fmap.
  apply list_elem_of_In, filter_In in Hin as [_ Htest]. by exists c.
Qed.

(** X20: the three work lists.  A row of [vw_creators_ready_to_contact]
    has the status ['not_contacted'], a row of [vw_creators_no_contact]
    the status ['no_contact_info'], a row of [vw_creators_follow_up] the
    status ['contacted'] or ['no_response'] and a follow-up date that is
    not after the day of the query: no outreach row is in two of the
    lists, and a creator due for follow-up on one day is still due on every
    later day. *)
Theorem work_lists_are_disjoint (current_date : Z) (d : database) :
  (forall row, row ∈ vw_creators_ready_to_contact d ->
     Outreach.outreach_status (co row) = Some "not_contacted") ∧
  (forall row, row ∈ vw_creators_no_contact d ->
     Outreach.outreach_status (co row) = Some "no_contact_info") ∧
  (forall row, row ∈ vw_creators_follow_up current_date d ->
     (Outreach.outreach_status (co row) = Some "contacted" ∨
      Outreach.outreach_status (co row) = Some "no_response") ∧
     exists day, Outreach.follow_up_date (co row) = Some day ∧ day <= current_date) ∧
  (forall r1 r2,
     (r1 ∈ vw_creators_ready_to_contact d ->
      r2 ∈ vw_creators_no_contact d ∨ r2 ∈ vw_creators_follow_up current_date d ->
      co r1 ≠ co r2) ∧
     (r1 ∈ vw_creators_no_contact d -> r2 ∈ vw_creators_follow_up current_date d ->
      co r1 ≠ co r2)) ∧
  (forall later row, current_date <= later ->
     row ∈ vw_creators_follow_up current_date d -> row ∈ vw_creators_follow_up later d).
Proof.
  assert (forall row, row ∈ vw_creators_ready_to_contact d ->
            Outreach.outreach_status (co row) = Some "not_contacted") as Hready.
  { intros row [c Htest]%elem_of_selected.
    rewrite ready_to_contact_ready in Htest. by apply bool_decide_eq_true in Htest as [_ ?]. }
  assert (forall row, row ∈ vw_creators_no_contact d ->
            Outreach.outreach_status (co row) = Some "no_contact_info") as Hnone.
  { intros row [c Htest]%elem_of_selected. simpl in Htest.
    rewrite holds_eq3 in Htest. by apply bool_decide_eq_true in Htest. }
  assert (forall day row, row ∈ vw_creators_follow_up day d ->
            (Outreach.outreach_status (co row) = Some "contacted" ∨
             Outreach.outreach_status (co row) = Some "no_response") ∧
            exists day', Outreach.follow_up_date (co row) = Some day' ∧ day' <= day) as Hdue.
  { intros day row [c Htest]%elem_of_selected. simpl in Htest.
    rewrite !holds_and3 in Htest. apply andb_true_iff in Htest as [Hdate Hstatus].
    apply andb_true_iff in Hdate as [_ Hdate]. split.
    - unfold in3 in Hstatus.
      destruct (Outreach.outreach_status (co row)) as [s|]; simpl in Hstatus; [|done].
      repeat case_bool_decide; subst; simpl in *; auto; done.
    - destruct (Outreach.follow_up_date (co row)) as [day'|]; simpl in Hdate; [|done].
      exists day'. split; [done|]. by case_bool_decide. }
  split_and!; [exact Hready|exact Hnone|apply Hdue| |].
  - intros r1 r2. split.
    + intros H1%Hready [H2%Hnone|[[H2|H2] _]%Hdue] Heq; rewrite Heq in H1; congruence.
    + intros H1%Hnone [[H2|H2] _]%Hdue Heq; rewrite Heq in H1; congruence.
  - intros later row Hlater Hrow.
    destruct (Hdue _ _ Hrow) as (Hstatus & day & Hday & Hle).
    unfold vw_creators_follow_up in *.
    apply list_elem_of_fmap in Hrow as (j & -> & Hj).
    apply list_elem_of_fmap. exists j. split; [done|].
    apply list_elem_of_In, filter_In in Hj as [Hj Htest].
    apply list_elem_of_In, filter_In. split; [done|].
    simpl in Hday, Htest |- *. rewrite !holds_and3 in Htest |- *.
    apply andb_true_iff in Htest as [Hdate Hs]. rewrite Hs, andb_true_r.
    rewrite Hday. simpl. rewrite bool_decide_eq_true_2 by lia. done.
Qed.

End WorkLists.

(** ** The report of a call *)

Section Report.
Context `{Engine}.

Lemma cast_bigint_parsed (s : option string) (x_id : option Z) :
  cast "bigint" to_bigint s = Ok x_id -> x_id = s ≫= to_bigint.
Proof.
  unfold cast. destruct s as [t|]; simpl; [|congruence].
  destruct (to_bigint t); [congruence|discriminate].
Qed.

Lemma changed_no_row (incoming : option string) : changed None None incoming = true.
Proof. reflexivity. Qed.

Lemma changed_skip (stored_h incoming : option string) :
  changed (Some true) stored_h incoming =
  negb match stored_h with
       | Some h => bool_decide (incoming = Some h ∨ incoming = None)
       | None => false
       end.
Proof.
  destruct (changed (Some true) stored_h incoming) eqn:Hchanged.
  - destruct stored_h as [h|]; [|done]. symmetry. apply negb_true_iff.
    apply bool_decide_eq_false_2. intros Hin.
    assert (changed (Some true) (Some h) incoming = false) as Hc
      by (apply changed_cases; eauto).
    congruence.
  - apply changed_cases in Hchanged as (h & -> & Hin). symmetry. apply negb_false_iff.
    by apply bool_decide_eq_true_2.
Qed.

(** The counters and the error list of an iteration say what happened to
    its entity. *)
Lemma fate_is_deed b now x d :
  fate_of (id_key b) (id_text b) (bulk_body b now) x d = deed b now x d.
Proof.
  unfold deed, skipped, stored, fate_of, single, iteration, block, append_error, row_key.
  destruct b; simpl; unfold creators_body, projects_body, outreach_body; run_body.
  - destruct (cast "bigint" to_bigint (x ->> "id")) as [x_id|e] eqn:Hcast; simpl; [|done].
    apply cast_bigint_parsed in Hcast as ->. unfold creators_select, mbind.
    destruct (option_bind _ _ to_bigint (x ->> "id")) as [k|]; simpl.
    + destruct (creators d !! k) as [r|] eqn:Hrow; simpl.
      * rewrite changed_skip.
        destruct (Creators.data_hash r) as [h|]; simpl.
        -- destruct (bool_decide _); simpl; [done|].
           by destruct (creators_insert now x _ d).
        -- by destruct (creators_insert now x _ d).
      * by destruct (creators_insert now x _ d).
    + by destruct (creators_insert now x _ d).
  - destruct (cast "bigint" to_bigint (x ->> "id")) as [x_id|e] eqn:Hcast; simpl; [|done].
    apply cast_bigint_parsed in Hcast as ->. unfold projects_select, mbind.
    destruct (option_bind _ _ to_bigint (x ->> "id")) as [k|]; simpl.
    + destruct (projects d !! k) as [r|] eqn:Hrow; simpl.
      * rewrite changed_skip.
        destruct (Projects.data_hash r) as [h|]; simpl.
        -- destruct (bool_decide _); simpl; [done|].
           by destruct (projects_insert now x _ d).
        -- by destruct (projects_insert now x _ d).
      * by destruct (projects_insert now x _ d).
    + by destruct (projects_insert now x _ d).
  - destruct (cast "bigint" to_bigint (x ->> "creator_id")) as [x_id|e] eqn:Hcast; simpl;
      [|done].
    apply cast_bigint_parsed in Hcast as ->. unfold outreach_exists, mbind.
    destruct (outreach_insert now x d) as [d'|e]; simpl; [|done].
    destruct (option_bind _ _ to_bigint (x ->> "creator_id")) as [k|]; simpl.
    + by destruct (bool_decide _).
    + done.
Qed.

Lemma call_on_one b now x d :
  (bulk_call b now (Some (JArray [x])) d).2
  = db (single (id_key b) (id_text b) (bulk_body b now) x d).
Proof. by rewrite bulk_call_array, run_single. Qed.

Lemma fates_are_deeds b now items d :
  entity_fates b now items d = deeds b now items d.
Proof.
  unfold entity_fates. revert d.
  induction items as [|x rest IH]; intros d; [done|].
  cbn [fates deeds]. by rewrite fate_is_deed, IH, call_on_one.
Qed.

Lemma creators_values_stamp now x h excluded :
  creators_values now x h = Ok excluded -> Creators.updated_at excluded = Some now.
Proof. unfold creators_values. split_binds. by intros [= <-]. Qed.

Lemma projects_values_stamp now x h excluded :
  projects_values now x h = Ok excluded -> Projects.updated_at excluded = Some now.
Proof. unfold projects_values. split_binds. by intros [= <-]. Qed.

Lemma outreach_values_stamp now x excluded :
  outreach_values now x = Ok excluded -> Outreach.updated_at excluded = Some now.
Proof. unfold outreach_values. split_binds. by intros [= <-]. Qed.

(** A successful statement wrote one row, under the id of the entity,
    and the row carries the time of the call in [updated_at]. *)
Lemma creators_insert_stamp now x h d d' :
  creators_insert now x h d = Ok d' ->
  exists k row,
    parsed_id x = Some k ∧ Creators.updated_at row = Some now ∧
    d' = set_creators (<[k := row]> (creators d)) d.
Proof.
  unfold creators_insert, mbind, outcome_bind, mret, outcome_ret.
  destruct (creators_values now x h) as [excluded|e] eqn:Hvalues; [|discriminate].
  pose proof (creators_values_stamp _ _ _ _ Hvalues) as Hstamp.
  apply creators_values_inv in Hvalues as [Hid _].
  destruct (Creators.check_not_null excluded) as [k|] eqn:Hcheck; [|discriminate].
  apply creators_check_not_null_ok in Hcheck as [Hk _].
  rewrite Hk in Hid. apply cast_bigint_id in Hid.
  destruct (creators d !! k) as [old|].
  - destruct (Creators.check_not_null _); [|discriminate].
    destruct (Creators.check_unique _ _ _); [|discriminate].
    intros [= <-]. eexists k, _. split; [done|]. split; [|reflexivity]. done.
  - destruct (Creators.check_unique _ _ _); [|discriminate].
    intros [= <-]. eexists k, _. split; [done|]. split; [|reflexivity]. done.
Qed.

Lemma projects_insert_stamp now x h d d' :
  projects_insert now x h d = Ok d' ->
  exists k row,
    parsed_id x = Some k ∧ Projects.updated_at row = Some now ∧
    d' = set_projects (<[k := row]> (projects d)) d.
Proof.
  unfold projects_insert, mbind, outcome_bind, mret, outcome_ret.
  destruct (projects_values now x h) as [excluded|e] eqn:Hvalues; [|discriminate].
  pose proof (projects_values_stamp _ _ _ _ Hvalues) as Hstamp.
  apply projects_values_inv in Hvalues as [Hid _].
  destruct (Projects.check_not_null excluded) as [k|] eqn:Hcheck; [|discriminate].
  apply projects_check_not_null_ok in Hcheck as [Hk _].
  rewrite Hk in Hid. apply cast_bigint_id in Hid.
  destruct (projects d !! k) as [old|].
  - set (new := Projects.update_updated_at_column now (projects_do_update now old excluded)).
    destruct (Projects.check_not_null new); [|discriminate].
    destruct (Projects.check_unique _ _ new); [|discriminate].
    destruct (Projects.check_foreign_key _ new); [|discriminate].
    intros [= <-]. eexists k, _. split; [done|]. split; [|reflexivity]. done.
  - destruct (Projects.check_unique _ _ _); [|discriminate].
    destruct (Projects.check_foreign_key _ _); [|discriminate].
    intros [= <-]. eexists k, _. split; [done|]. split; [|reflexivity]. done.
Qed.

Lemma outreach_insert_stamp now x d d' :
  outreach_insert now x d = Ok d' ->
  exists k row,
    (x ->> "creator_id") ≫= to_bigint = Some k ∧ Outreach.updated_at row = Some now ∧
    d' = set_creator_outreach (<[k := row]> (creator_outreach d)) d.
Proof.
  intros (excluded & k & Hvalues & Hk & ->)%outreach_insert_inv.
  pose proof (outreach_values_stamp _ _ _ Hvalues) as Hstamp.
  apply outreach_values_id in Hvalues. rewrite Hk in Hvalues.
  apply cast_bigint_parsed in Hvalues.
  eexists k, _. split; [done|]. split; [|reflexivity].
  by destruct (creator_outreach d !! k).
Qed.

(** An iteration leaves the database alone, or it writes one row, under
    the id of its entity and with the time of the call in [updated_at]. *)
Lemma single_stamps b now x d :
  let d' := db (single (id_key b) (id_text b) (bulk_body b now) x d) in
  d' = d ∨
  exists k, row_key b x = Some k ∧
    updated_stamp b d' k = Some (Some now) ∧
    forall k', k' ≠ k -> updated_stamp b d' k' = updated_stamp b d k'.
Proof.
  cbn zeta. destruct b.
  - change (single _ _ _ x d)
      with (single "creator_id" (fun c => c ->> "id") (creators_body now) x d).
    destruct (creators_single_db now x d) as [->|Hins]; [by left|]. right.
    apply creators_insert_stamp in Hins as (k & row & Hid & Hstamp & ->).
    exists k. split; [exact Hid|]. simpl. split.
    + by rewrite lookup_insert_eq; simpl; rewrite Hstamp.
    + intros k' Hne. by rewrite lookup_insert_ne.
  - change (single _ _ _ x d)
      with (single "project_id" (fun p => p ->> "id") (projects_body now) x d).
    destruct (projects_single_db now x d) as [->|Hins]; [by left|]. right.
    apply projects_insert_stamp in Hins as (k & row & Hid & Hstamp & ->).
    exists k. split; [exact Hid|]. simpl. split.
    + by rewrite lookup_insert_eq; simpl; rewrite Hstamp.
    + intros k' Hne. by rewrite lookup_insert_ne.
  - change (single _ _ _ x d)
      with (single "creator_id" (fun o => o ->> "creator_id") (outreach_body now) x d).
    destruct (outreach_single_db now x d) as [->|Hins]; [by left|]. right.
    apply outreach_insert_stamp in Hins as (k & row & Hid & Hstamp & ->).
    exists k. split; [exact Hid|]. simpl. split.
    + by rewrite lookup_insert_eq; simpl; rewrite Hstamp.
    + intros k' Hne. by rewrite lookup_insert_ne.
Qed.

(** The row of an entity that is inserted or updated carries the time of
    the call when its iteration is over. *)
Lemma fate_stamp b now x d :
  let st := single (id_key b) (id_text b) (bulk_body b now) x d in
  match fate_of (id_key b) (id_text b) (bulk_body b now) x d with
  | Inserted | Updated =>
      exists k, row_key b x = Some k ∧ updated_stamp b (db st) k = Some (Some now)
  | Unchanged | Failed _ => True
  end.
Proof.
  cbn zeta. unfold fate_of, single, iteration, block, append_error, row_key.
  destruct b; simpl; unfold creators_body, projects_body, outreach_body; run_body.
  - destruct (cast "bigint" to_bigint (x ->> "id")) as [x_id|e] eqn:Hcast; simpl; [|done].
    destruct (changed _ _ _); simpl; [|done].
    destruct (creators_insert now x _ d) as [d'|e] eqn:Hins; simpl; [|done].
    apply creators_insert_stamp in Hins as (k & row & Hid & Hstamp & ->).
    assert (exists k0, (x ->> "id") ≫= to_bigint = Some k0 ∧
              Creators.updated_at <$> <[k := row]> (creators d) !! k0 = Some (Some now)).
    { exists k. split; [exact Hid|]. by rewrite lookup_insert_eq; simpl; rewrite Hstamp. }
    by destruct (holds _).
  - destruct (cast "bigint" to_bigint (x ->> "id")) as [x_id|e] eqn:Hcast; simpl; [|done].
    destruct (changed _ _ _); simpl; [|done].
    destruct (projects_insert now x _ d) as [d'|e] eqn:Hins; simpl; [|done].
    apply projects_insert_stamp in Hins as (k & row & Hid & Hstamp & ->).
    assert (exists k0, (x ->> "id") ≫= to_bigint = Some k0 ∧
              Projects.updated_at <$> <[k := row]> (projects d) !! k0 = Some (Some now)).
    { exists k. split; [exact Hid|]. by rewrite lookup_insert_eq; simpl; rewrite Hstamp. }
    by destruct (holds _).
  - destruct (cast "bigint" to_bigint (x ->> "creator_id")) as [x_id|e] eqn:Hcast; simpl;
      [|done].
    destruct (outreach_insert now x d) as [d'|e] eqn:Hins; simpl; [|done].
    apply outreach_insert_stamp in Hins as (k & row & Hid & Hstamp & ->).
    assert (exists k0, (x ->> "creator_id") ≫= to_bigint = Some k0 ∧
              Outreach.updated_at <$> <[k := row]> (creator_outreach d) !! k0
              = Some (Some now)).
    { exists k. split; [exact Hid|]. by rewrite lookup_insert_eq; simpl; rewrite Hstamp. }
    by destruct (bool_decide _).
Qed.

(** An entity that does not fail has its row stored when its iteration
    is over, with the time of the call in [updated_at] unless the entity
    is unchanged. *)
Lemma deed_row b now x d :
  is_failed (deed b now x d) = false ->
  exists k, row_key b x = Some k ∧
    has_row b (db (single (id_key b) (id_text b) (bulk_body b now) x d)) k = true ∧
    (is_unchanged (deed b now x d) = false ->
     updated_stamp b (db (single (id_key b) (id_text b) (bulk_body b now) x d)) k
     = Some (Some now)).
Proof.
  intros Hdeed.
  pose proof (fate_meaning b now x d) as Hfate. cbn zeta in Hfate.
  pose proof (fate_stamp b now x d) as Hstamp. cbn zeta in Hstamp.
  rewrite fate_is_deed in Hfate, Hstamp.
  destruct (deed b now x d) as [| | |e] eqn:Hd; try discriminate.
  - destruct Hfate as (k & Hk & _ & Hrow). destruct Hstamp as (k' & Hk' & Hstamp).
    exists k. split_and!; [done..|]. intros _. congruence.
  - destruct Hfate as (k & Hk & _ & Hrow). destruct Hstamp as (k' & Hk' & Hstamp).
    exists k. split_and!; [done..|]. intros _. congruence.
  - rewrite Hfate. clear Hfate Hstamp. revert Hd. unfold deed, skipped, stored.
    destruct ((bulk_body b now x (zero d)).1); [|discriminate].
    destruct (row_key b x) as [k|]; simpl.
    + destruct (stored_hash b d k) as [[h|]|] eqn:Hhash; simpl.
      * intros _. exists k. split; [done|]. split; [|done].
        destruct b; simpl in *; try discriminate; apply bool_decide_eq_true_2.
        -- destruct (creators d !! k); [eauto|discriminate].
        -- destruct (projects d !! k); [eauto|discriminate].
      * by destruct (has_row b d k).
      * by destruct (has_row b d k).
    + done.
Qed.

Lemma single_keeps_rows b now x d k :
  has_row b d k = true ->
  has_row b (db (single (id_key b) (id_text b) (bulk_body b now) x d)) k = true.
Proof.
  intros Hrow.
  destruct (single_step b now x d) as [(-> & _)|(k' & _ & Hw & _)]; [done|].
  destruct (written_frame b k' d _ Hw) as (_ & _ & _ & Hkeys & _). by apply Hkeys.
Qed.

Lemma single_keeps_stamp b now x d k :
  updated_stamp b d k = Some (Some now) ->
  updated_stamp b (db (single (id_key b) (id_text b) (bulk_body b now) x d)) k
  = Some (Some now).
Proof.
  intros Hstamp.
  destruct (single_stamps b now x d) as [->|(k' & _ & Hk' & Hother)]; [done|].
  destruct (decide (k = k')) as [->|Hne]; [done|]. by rewrite Hother.
Qed.

Lemma run_keeps_rows b now items d k :
  has_row b d k = true ->
  has_row b (db (run (id_key b) (id_text b) (bulk_body b now) items d)) k = true.
Proof.
  revert d. induction items as [|x rest IH]; intros d Hrow; [done|].
  cbn [run shift db]. by apply IH, single_keeps_rows.
Qed.

Lemma run_keeps_stamp b now items d k :
  updated_stamp b d k = Some (Some now) ->
  updated_stamp b (db (run (id_key b) (id_text b) (bulk_body b now) items d)) k
  = Some (Some now).
Proof.
  revert d. induction items as [|x rest IH]; intros d Hstamp; [done|].
  cbn [run shift db]. by apply IH, single_keeps_stamp.
Qed.

(** Every entity of a batch that does not fail has its row stored when
    the loop is over, and the row of an entity that was inserted or
    updated carries the time of the call. *)
Lemma deeds_rows b now items d x f :
  (x, f) ∈ deeds b now items d ->
  is_failed f = false ->
  exists k, row_key b x = Some k ∧
    has_row b (db (run (id_key b) (id_text b) (bulk_body b now) items d)) k = true ∧
    (is_unchanged f = false ->
     updated_stamp b (db (run (id_key b) (id_text b) (bulk_body b now) items d)) k
     = Some (Some now)).
Proof.
  revert d. induction items as [|y rest IH]; intros d Hin Hf.
  - by apply elem_of_nil in Hin.
  - cbn [deeds] in Hin. cbn [run shift db]. rewrite call_on_one in Hin.
    apply elem_of_cons in Hin as [[= -> ->]|Hin]; [|by apply IH].
    destruct (deed_row b now y d Hf) as (k & Hk & Hrow & Hstamp).
    exists k. split; [done|]. split; [by apply run_keeps_rows|].
    intros Hu. by apply run_keeps_stamp, Hstamp.
Qed.

Lemma deeds_app b now xs ys d :
  deeds b now (xs ++ ys) d
  = deeds b now xs d ++ deeds b now ys (bulk_call b now (Some (JArray xs)) d).2.
Proof.
  rewrite <- !fates_are_deeds, bulk_call_array. cbn [snd]. unfold entity_fates.
  revert d. induction xs as [|x xs IH]; intros d; [done|].
  cbn [app fates run shift db]. by rewrite IH.
Qed.

(** C6, as the code has it.  A call of a bulk function on a JSON array
    returns one row [(inserted_count, updated_count, total_count, errors)]
    about that call alone.  [inserted_count] and [updated_count] are the
    numbers of entities whose row the call inserted and updated,
    [total_count] is the size of the batch, and [errors] holds, in the
    order of the batch, one detail for each entity whose statements
    raised, with the id text of the payload (NULL when the payload has
    none) and the condition.  The row has no column for the failed or the
    unchanged entities: their numbers are the length of [errors] and
    [total_count - inserted_count - updated_count] less that length.
    Every entity that is not reported in [errors] has its row in the table
    when the call returns, and the row of an entity counted as inserted or
    updated carries the time of the call in [updated_at].  A call on a
    JSON value that is not an array raises: it returns no row and writes
    nothing. *)
Theorem bulk_call_reports_deeds (b : bulk_function) (now : timestamptz)
    (items : list jsonb) (d : database) :
  (exists (r : bulk_result) (d' : database),
     bulk_call b now (Some (JArray items)) d = (Ok r, d') ∧
     let tr := deeds b now items d in
     inserted_count r = tally is_inserted tr ∧
     updated_count r = tally is_updated tr ∧
     total_count r = Z.of_nat (length items) ∧
     errors r = error_details b tr ∧
     Z.of_nat (length (errors r)) = tally is_failed tr ∧
     total_count r - inserted_count r - updated_count r - Z.of_nat (length (errors r))
       = tally is_unchanged tr ∧
     (forall (x : jsonb) (f : fate), (x, f) ∈ tr -> is_failed f = false ->
        exists k : Z, row_key b x = Some k ∧ has_row b d' k = true ∧
          (is_unchanged f = false -> updated_stamp b d' k = Some (Some now)))) ∧
  (forall data : jsonb, jsonb_typeof data ≠ "array" ->
     exists e : sqlerr, bulk_call b now (Some data) d = (Raise e, d)).
Proof.
  split; [|intros data Hdata;
           destruct data; (by destruct Hdata) || (eexists; by apply bulk_call_not_array)].
  eexists _, _. split; [apply bulk_call_array|].
  destruct (run_tally (id_key b) (id_text b) (bulk_body b now) items d)
    as (Hi & Hu & Ht & He & Hn & Hf).
  cbn zeta. rewrite <- fates_are_deeds. unfold entity_fates, error_details, report.
  cbn [inserted_count updated_count total_count errors].
  split_and!; try done.
  intros x f Hin. apply deeds_rows. by rewrite <- fates_are_deeds.
Qed.

(** C5: in a batch passed to a bulk function, an entity whose statements
    raise (a cast that fails, a constraint that is violated) is recorded in
    the returned error list with its id and the condition, and the call
    goes on.  The other entities fare as they do in the batch without it:
    the database the call leaves and the counts of inserted and updated
    entities are those of that batch, and every entity of the batch that
    is not in the error list has its row in the table when the call
    returns; when it was inserted or updated, that row carries the time of
    the call in [updated_at]. *)
Theorem failing_entity_is_isolated (b : bulk_function) (now : timestamptz)
    (pre : list jsonb) (bad : jsonb) (post : list jsonb) (d : database) (e : sqlerr) :
  let d_pre := (bulk_call b now (Some (JArray pre)) d).2 in
  (bulk_body b now bad (zero d_pre)).1 = Raise e ->
  exists (r r' : bulk_result) (d' : database),
    bulk_call b now (Some (JArray (pre ++ bad :: post))) d = (Ok r, d') ∧
    bulk_call b now (Some (JArray (pre ++ post))) d = (Ok r', d') ∧
    {| entity_key := id_key b; entity_id := id_text b bad; error := e |} ∈ errors r ∧
    inserted_count r = inserted_count r' ∧
    updated_count r = updated_count r' ∧
    total_count r = total_count r' + 1 ∧
    length (errors r) = S (length (errors r')) ∧
    deeds b now (pre ++ bad :: post) d
      = deeds b now pre d ++ (bad, Failed e) :: deeds b now post d_pre ∧
    deeds b now (pre ++ post) d = deeds b now pre d ++ deeds b now post d_pre ∧
    (forall (x : jsonb) (f : fate),
       (x, f) ∈ deeds b now pre d ++ deeds b now post d_pre -> is_failed f = false ->
       exists k : Z, row_key b x = Some k ∧ has_row b d' k = true ∧
         (is_unchanged f = false -> updated_stamp b d' k = Some (Some now))).
Proof.
  cbn zeta. intros Hraise.
  assert (deeds b now (pre ++ post) d
          = deeds b now pre d
            ++ deeds b now post (bulk_call b now (Some (JArray pre)) d).2) as Hwithout
    by apply deeds_app.
  assert (deeds b now (pre ++ bad :: post) d
          = deeds b now pre d
            ++ (bad, Failed e) :: deeds b now post (bulk_call b now (Some (JArray pre)) d).2)
    as Hwith.
  { rewrite deeds_app. cbn [deeds]. unfold deed at 1. rewrite Hraise.
    rewrite call_on_one.
    rewrite bulk_call_array in Hraise |- *. cbn [snd] in Hraise |- *.
    by rewrite (single_failed _ _ _ _ _ _ Hraise). }
  rewrite !bulk_call_array in *. cbn [snd] in *.
  destruct (run_skip_failed (id_key b) (id_text b) (bulk_body b now) pre bad post d e Hraise)
    as (Hdb & Hi & Hu & Ht & He).
  eexists _, _, _. split; [reflexivity|]. split; [by rewrite Hdb|].
  unfold report. cbn [errors inserted_count updated_count total_count].
  rewrite He, Hi, Hu, Ht.
  rewrite (run_app (id_key b) (id_text b) (bulk_body b now) pre post d).
  cbn [v_errors shift]. rewrite !length_app. cbn [length].
  split_and!; try done; try lia.
  - apply elem_of_app. right. apply list_elem_of_here.
  - intros x f Hin Hf. rewrite Hdb. rewrite <- Hwithout in Hin.
    by apply (deeds_rows b now (pre ++ post) d x f).
Qed.

End Report.

(** ** A batch sent in chunks *)

Section StampFacts.
Context `{Engine}.

#[local] Arguments Creators.check_not_null : simpl never.
#[local] Arguments Projects.check_not_null : simpl never.
#[local] Arguments Outreach.check_not_null : simpl never.
#[local] Arguments Creators.slug_taken : simpl never.
#[local] Arguments Projects.slug_taken : simpl never.
#[local] Arguments Projects.check_foreign_key : simpl never.
#[local] Arguments Outreach.check_foreign_key : simpl never.
#[local] Arguments Creators.update_updated_at_column : simpl never.
#[local] Arguments Projects.update_updated_at_column : simpl never.
#[local] Arguments Outreach.update_updated_at_column : simpl never.
#[local] Arguments unstamped_creator : simpl never.
#[local] Arguments unstamped_project : simpl never.
#[local] Arguments unstamped_outreach : simpl never.




















End StampFacts.

(** * Worked examples, on the reference engine *)

Section WorkedExamples.
Import Reference.

(** C1 on the example of the specification: the manual state
    (['partnership'], ['call Tuesday']) survives a sync that carries the
    default status and no notes. *)
Lemma manual_outreach_state_witness :
  creator_outreach with_partnership !! 42 = Some partnership_row ∧
  exists row' : Outreach.row,
    creator_outreach
      (sync_creator_outreach_bulk t1 (Some (JArray [email_only])) with_partnership).2 !! 42
    = Some row' ∧
    Outreach.notes row' = Some "call Tuesday" ∧
    Outreach.outreach_status row' = Some "partnership".
Proof.
  assert (creator_outreach with_partnership !! 42 = Some partnership_row) as Hstored
    by reflexivity.
  split; [exact Hstored|].
  destruct (manual_outreach_state_is_preserved t1 (Some (JArray [email_only]))
              with_partnership 42 partnership_row Hstored)
    as (_ & row' & Hrow' & Hnotes & Hstatus).
  exists row'. split; [exact Hrow'|]. split; [exact Hnotes|].
  apply Hstatus. discriminate.
Defined.

(** C2 at the failing input: the stored row has a contact form and a
    completed check, the payload carries an email only.  The merge keeps
    [contact_form_url] and takes the email, but it resets
    [has_contact_form] to false, [contact_status] to ['not_checked'] and
    [contact_attempts] to 0: the [VALUES] list has already replaced the
    absent values by these defaults when the [COALESCE] of the [SET] list
    reads them. *)
Theorem absent_values_reset_stored_ones :
  let stored := creator_outreach with_partnership !! 42 in
  let merged :=
    creator_outreach
      (sync_creator_outreach_bulk t1 (Some (JArray [email_only])) with_partnership).2 !! 42 in
  Outreach.email <$> merged = Some (Some "a@b.com") ∧
  Outreach.contact_form_url <$> stored = Some (Some "https://x.com/contact") ∧
  Outreach.contact_form_url <$> merged = Some (Some "https://x.com/contact") ∧
  Outreach.has_contact_form <$> stored = Some (Some true) ∧
  Outreach.has_contact_form <$> merged = Some (Some false) ∧
  Outreach.contact_status <$> stored = Some (Some "completed") ∧
  Outreach.contact_status <$> merged = Some (Some "not_checked") ∧
  Outreach.contact_attempts <$> stored = Some (Some 1) ∧
  Outreach.contact_attempts <$> merged = Some (Some 0).
Proof. vm_compute. repeat split. Qed.

(** C4 at the failing input: a payload whose email is the empty string.
    The stored email is empty and there is no contact form, yet
    [has_any_contact] is true. *)
Theorem empty_email_counts_as_contact :
  let stored :=
    creator_outreach
      (sync_creator_outreach_bulk t1
         (Some (JArray [JObject [("creator_id", JNumber "43"); ("email", JString "")]]))
         two_creators).2 !! 43 in
  Outreach.email <$> stored = Some (Some "") ∧
  Outreach.has_contact_form <$> stored = Some (Some false) ∧
  Outreach.has_any_contact <$> stored = Some (Some true).
Proof. vm_compute. repeat split. Qed.

(** C3, the claim as stated, fails on a batch that carries the creator 1
    twice, with two hashes.  The first run inserts and then updates the
    row; the second run finds the second hash stored when it meets the
    first entity, so it rewrites the row twice and reports two updates. *)
Lemma rerun_reports_updates :
  let first := upsert_creators_bulk t0 twice_creator_1 Reference.empty in
  let second := upsert_creators_bulk t1 twice_creator_1 first.2 in
  first.1 = Ok {| inserted_count := 1; updated_count := 1; total_count := 2; errors := [] |} ∧
  second.1 = Ok {| inserted_count := 0; updated_count := 2; total_count := 2; errors := [] |}.
Proof. vm_compute. split; reflexivity. Qed.

(** An entity without a [data_hash] is rewritten by every run. *)
Example rerun_without_hash :
  let batch := Some (JArray [JObject [("id", JNumber "1"); ("name", JString "Ann")]]) in
  let first := upsert_creators_bulk t0 batch Reference.empty in
  let second := upsert_creators_bulk t1 batch first.2 in
  second.1 = Ok {| inserted_count := 0; updated_count := 1; total_count := 1; errors := [] |}.
Proof. vm_compute. reflexivity. Qed.

(** An entity that failed in the first run may succeed in the second:
    creator 2 asks for the slug creator 1 gives up later in the batch. *)
Example rerun_after_failure :
  let stored := (upsert_creators_bulk t0 (Some (JArray [creator "1" "Ann" "s" "a"]))
                   Reference.empty).2 in
  let batch := Some (JArray [creator "2" "Bob" "s" "b"; creator "1" "Ann" "t" "c"]) in
  let first := upsert_creators_bulk t0 batch stored in
  let second := upsert_creators_bulk t1 batch first.2 in
  first.1 = Ok {| inserted_count := 0; updated_count := 1; total_count := 2;
                  errors := [{| entity_key := "creator_id"; entity_id := Some "2";
                                error := unique_violation "idx_creators_slug" |}] |} ∧
  second.1 = Ok {| inserted_count := 1; updated_count := 0; total_count := 2; errors := [] |}.
Proof. vm_compute. split; reflexivity. Qed.

(** C3 on a batch of two creators with distinct ids and hashes: the
    second run writes nothing and reports them unchanged. *)
Lemma hash_guard_witness :
  hash_guarded UpsertCreators ∧
  let batch := [creator "42" "Ann" "ann" "h42"; creator "43" "Bob" "bob" "h43"] in
  bulk_call UpsertCreators t1 (Some (JArray batch)) two_creators =
  (Ok {| inserted_count := 0; updated_count := 0; total_count := 2; errors := [] |},
   two_creators).
Proof.
  split; [by left|]. cbn zeta.
  destruct (hash_guard_skips_unchanged UpsertCreators t0 t1
              [creator "42" "Ann" "ann" "h42"; creator "43" "Bob" "bob" "h43"]
              Reference.empty (or_introl eq_refl)) as [_ Hrerun].
  apply (Hrerun ltac:(apply (bool_decide_unpack _); vm_compute; exact I)
                ltac:(repeat constructor; vm_compute; eauto)
                {| inserted_count := 2; updated_count := 0; total_count := 2; errors := [] |}
                two_creators);
    reflexivity.
Defined.

(** C5 on a batch whose second entity has no [name]: the [NOT NULL]
    constraint raises, the entity is reported, and both siblings are
    inserted: their rows are in the table when the call returns, written
    at the time of the call. *)
Lemma failing_entity_witness :
  (bulk_body UpsertCreators t0 nameless
     (zero (bulk_call UpsertCreators t0
              (Some (JArray [creator "1" "Ann" "ann" "h1"])) Reference.empty).2)).1
  = Raise (not_null_violation "creators" "name") ∧
  exists (r : bulk_result) (d' : database),
    bulk_call UpsertCreators t0
      (Some (JArray [creator "1" "Ann" "ann" "h1"; nameless; creator "3" "Cy" "cy" "h3"]))
      Reference.empty = (Ok r, d') ∧
    d' = (bulk_call UpsertCreators t0
            (Some (JArray [creator "1" "Ann" "ann" "h1"; creator "3" "Cy" "cy" "h3"]))
            Reference.empty).2 ∧
    inserted_count r = 2 ∧
    {| entity_key := "creator_id"; entity_id := Some "2";
       error := not_null_violation "creators" "name" |} ∈ errors r ∧
    has_row UpsertCreators d' 1 = true ∧
    has_row UpsertCreators d' 3 = true ∧
    updated_stamp UpsertCreators d' 3 = Some (Some t0) ∧
    has_row UpsertCreators d' 2 = false.
Proof.
  assert ((bulk_body UpsertCreators t0 nameless
             (zero (bulk_call UpsertCreators t0
                      (Some (JArray [creator "1" "Ann" "ann" "h1"])) Reference.empty).2)).1
          = Raise (not_null_violation "creators" "name")) as Hraise
    by (vm_compute; reflexivity).
  split; [exact Hraise|].
  destruct (failing_entity_is_isolated UpsertCreators t0
              [creator "1" "Ann" "ann" "h1"] nameless [creator "3" "Cy" "cy" "h3"]
              Reference.empty _ Hraise)
    as (r & r' & d' & Hwith & Hwithout & Hentry & Hins & _ & _ & _ & _ & _ & Hrows).
  change ([creator "1" "Ann" "ann" "h1"] ++ [creator "3" "Cy" "cy" "h3"])
    with [creator "1" "Ann" "ann" "h1"; creator "3" "Cy" "cy" "h3"] in Hwithout.
  exists r, d'. split; [exact Hwith|].
  split; [by rewrite Hwithout|].
  assert ((bulk_call UpsertCreators t0
             (Some (JArray [creator "1" "Ann" "ann" "h1"; creator "3" "Cy" "cy" "h3"]))
             Reference.empty).1
          = Ok {| inserted_count := 2; updated_count := 0; total_count := 2; errors := [] |})
    as Hreport by (vm_compute; reflexivity).
  split; [|split; [exact Hentry|]].
  { rewrite Hwithout in Hreport. cbn [fst] in Hreport. injection Hreport as ->. exact Hins. }
  assert (deeds UpsertCreators t0 [creator "1" "Ann" "ann" "h1"] Reference.empty
          ++ deeds UpsertCreators t0 [creator "3" "Cy" "cy" "h3"]
               (bulk_call UpsertCreators t0
                  (Some (JArray [creator "1" "Ann" "ann" "h1"])) Reference.empty).2
          = [(creator "1" "Ann" "ann" "h1", Inserted); (creator "3" "Cy" "cy" "h3", Inserted)])
    as Hdeeds by (vm_compute; reflexivity).
  rewrite Hdeeds in Hrows.
  destruct (Hrows (creator "1" "Ann" "ann" "h1") Inserted) as (k1 & Hk1 & Hrow1 & _);
    [by left|done|].
  destruct (Hrows (creator "3" "Cy" "cy" "h3") Inserted) as (k3 & Hk3 & Hrow3 & Hstamp3);
    [by right; left|done|].
  injection Hk1 as <-. injection Hk3 as <-.
  split; [exact Hrow1|]. split; [exact Hrow3|]. split; [by apply Hstamp3|].
  replace d' with (bulk_call UpsertCreators t0
                     (Some (JArray [creator "1" "Ann" "ann" "h1"; creator "3" "Cy" "cy" "h3"]))
                     Reference.empty).2 by (by rewrite Hwithout).
  reflexivity.
Defined.

(** C6, the claim as stated, fails on two calls.  A call whose argument
    is one creator object, not an array of them, raises: it returns no row
    at all.  A call on a creator without an id returns a detail whose
    entity id is NULL; and the row it returns has four columns, none of
    them a count of failed or of unchanged entities. *)
Lemma call_without_counts_or_id :
  upsert_creators_bulk t0 (Some (creator "1" "Ann" "ann" "h1")) Reference.empty
  = (Raise (invalid_parameter_value "cannot extract elements from an object"),
     Reference.empty) ∧
  (upsert_creators_bulk t0 (Some (JArray [without_id; creator "42" "Ann" "ann" "h42"]))
     two_creators).1
  = Ok {| inserted_count := 0; updated_count := 0; total_count := 2;
          errors := [{| entity_key := "creator_id"; entity_id := None;
                        error := not_null_violation "creators" "id" |}] |}.
Proof. split; [reflexivity|vm_compute; reflexivity]. Qed.

(** C6 on a batch that inserts, updates, skips and fails: the deeds of
    its entities, the row the call returns, and the rows it leaves (the
    row of creator 42, written at [t0], has been written again at [t1]). *)
Lemma reports_deeds_witness :
  deeds UpsertCreators t1 mixed_batch two_creators
  = [(creator "44" "Cy" "cy" "h44", Inserted); (creator "42" "Ann" "ann" "new", Updated);
     (creator "43" "Bob" "bob" "h43", Unchanged);
     (nameless, Failed (not_null_violation "creators" "name"))] ∧
  exists d' : database,
    bulk_call UpsertCreators t1 (Some (JArray mixed_batch)) two_creators
    = (Ok {| inserted_count := 1; updated_count := 1; total_count := 4;
             errors := [{| entity_key := "creator_id"; entity_id := Some "2";
                           error := not_null_violation "creators" "name" |}] |}, d') ∧
    has_row UpsertCreators d' 44 = true ∧
    updated_stamp UpsertCreators two_creators 42 = Some (Some t0) ∧
    updated_stamp UpsertCreators d' 42 = Some (Some t1) ∧
    has_row UpsertCreators d' 2 = false.
Proof.
  assert (deeds UpsertCreators t1 mixed_batch two_creators
          = [(creator "44" "Cy" "cy" "h44", Inserted);
             (creator "42" "Ann" "ann" "new", Updated);
             (creator "43" "Bob" "bob" "h43", Unchanged);
             (nameless, Failed (not_null_violation "creators" "name"))]) as Hdeeds
    by (vm_compute; reflexivity).
  split; [exact Hdeeds|].
  destruct (bulk_call_reports_deeds UpsertCreators t1 mixed_batch two_creators)
    as [(r & d' & Hcall & _ & _ & _ & _ & _ & _ & Hrows) _].
  assert ((bulk_call UpsertCreators t1 (Some (JArray mixed_batch)) two_creators).1
          = Ok {| inserted_count := 1; updated_count := 1; total_count := 4;
                  errors := [{| entity_key := "creator_id"; entity_id := Some "2";
                                error := not_null_violation "creators" "name" |}] |})
    as Hreport by (vm_compute; reflexivity).
  exists d'. split; [|split; [|split; [reflexivity|split]]].
  - rewrite Hcall in Hreport |- *. cbn [fst] in Hreport. by rewrite Hreport.
  - rewrite Hdeeds in Hrows.
    destruct (Hrows (creator "44" "Cy" "cy" "h44") Inserted) as (k & Hk & Hrow & _);
      [by left|done|].
    injection Hk as <-. exact Hrow.
  - rewrite Hdeeds in Hrows.
    destruct (Hrows (creator "42" "Ann" "ann" "new") Updated) as (k & Hk & _ & Hstamp);
      [by right; left|done|].
    injection Hk as <-. by apply Hstamp.
  - replace d' with (bulk_call UpsertCreators t1 (Some (JArray mixed_batch)) two_creators).2
      by (by rewrite Hcall).
    reflexivity.
Defined.

(** C7 on ['Example.COM'] blocked with the default arguments,
    then ['example.com'] blocked again with another reason.  One row,
    under ['example.com'], with the later reason and the source kept. *)
Lemma block_domain_witness :
  let once :=
    Blocklist.firecrawl_block_domain t0 (Some "Example.COM") Blocklist.default_reason
      Blocklist.default_source Blocklist.default_notes ∅ in
  let again :=
    Blocklist.firecrawl_block_domain t1 (Some "example.com") (Some "Payment required")
      None None once in
  Blocklist.empty_domain (Some "Example.COM") = false ∧
  Blocklist.reason <$> once !! "example.com" = Some (Some "Not supported by Firecrawl") ∧
  size again = size once ∧
  Blocklist.reason <$> again !! "example.com" = Some (Some "Payment required") ∧
  Blocklist.source <$> again !! "example.com" = Some (Some "firecrawl").
Proof.
  cbn zeta.
  destruct (firecrawl_block_domain_idempotent_upsert t0 t1 (Some "Example.COM")
              Blocklist.default_reason Blocklist.default_source Blocklist.default_notes ∅)
    as (Hlookup & _ & _ & _ & Hcase & _).
  assert (Blocklist.empty_domain (Some "Example.COM") = false) as Hnonempty
    by (vm_compute; reflexivity).
  split; [exact Hnonempty|].
  split; [by rewrite (Hlookup "example.com")|].
  split; [by apply Hcase|].
  split; reflexivity.
Defined.

(** C8 on a database without the table: the script, and the script
    again. *)
Lemma pipeline_state_witness :
  PipelineState.setup t0 None = Ok [PipelineState.control_row t0] ∧
  PipelineState.setup t1 (Some [PipelineState.control_row t0])
  = Ok [PipelineState.control_row t0].
Proof.
  destruct pipeline_state_is_singleton as [_ Hsetup].
  destruct (Hsetup t0 None ltac:(discriminate))
    as (r & Hfirst & _ & _ & Hcontrol & _ & Hagain).
  rewrite (Hcontrol (or_introl eq_refl)) in Hfirst, Hagain.
  split; [exact Hfirst|apply Hagain].
Defined.

(** C10, the claim as stated, fails on the definition without the [WHERE]
    clause: creator 42 has no outreach row at all, and the view returns a
    row for it. *)
Lemma view_without_where_returns_every_creator :
  creator_outreach two_creators !! 42 = None ∧
  {| ContactsView.creator_id := Some 42; ContactsView.creator_name := Some "Ann";
     ContactsView.creator_slug := Some "ann"; ContactsView.email := Some "";
     ContactsView.email_source_url := Some ""; ContactsView.contact_form_url := Some "";
     ContactsView.has_contact_form := Some false |}
  ∈ ContactsView.customer_contacts_view_all two_creators.
Proof. split; [reflexivity|]. vm_compute. apply list_elem_of_further, list_elem_of_here. Qed.

(** C10 for the definition with the [WHERE] clause, on the database
    of the partnership example: creator 42 has a completed check and a contact
    form, creator 43 has no outreach row. *)
Lemma contacts_view_witness :
  ContactsView.customer_contacts_view with_partnership =
  [ {| ContactsView.creator_id := Some 42; ContactsView.creator_name := Some "Ann";
       ContactsView.creator_slug := Some "ann"; ContactsView.email := Some "";
       ContactsView.email_source_url := Some "";
       ContactsView.contact_form_url := Some "https://x.com/contact";
       ContactsView.has_contact_form := Some true |} ] ∧
  forall r, r ∈ ContactsView.customer_contacts_view with_partnership ->
    is_Some (ContactsView.email r) ∧ is_Some (ContactsView.has_contact_form r).
Proof.
  split; [vm_compute; reflexivity|].
  intros r Hr.
  destruct (customer_contacts_view_rows with_partnership) as [Hfiltered _].
  destruct (Hfiltered r Hr) as (_ & _ & _ & _ & _ & _ & Hemail & _ & _ & Hform).
  by split.
Defined.

End WorkedExamples.

(** * Worked examples on the constraints and the views *)

Section MoreWorkedExamples.
Import Reference.

Lemma well_formed_empty : well_formed Reference.empty.
Proof.
  unfold well_formed, Reference.empty. simpl.
  split_and!; try apply map_Forall_empty; by intros ? ? ? ? ? ?%lookup_empty_Some.
Qed.

Lemma well_formed_two_creators : well_formed two_creators.
Proof.
  apply (bulk_call_invariant UpsertCreators t0 well_formed
           (fun x d => single_well_formed UpsertCreators t0 x d)).
  apply well_formed_empty.
Qed.

Lemma well_formed_with_partnership : well_formed with_partnership.
Proof.
  destruct well_formed_two_creators as (Hc & Hcu & Hp & Hpu & Ho).
  unfold well_formed, with_partnership. simpl. split_and!; try done.
  apply map_Forall_singleton. unfold outreach_row_ok, partnership_row. simpl.
  split_and!; try done; try (by eexists); intros s [= <-]; simpl; lia.
Qed.

Lemma well_formed_with_projects : well_formed with_projects.
Proof.
  apply (bulk_call_invariant UpsertProjects t0 well_formed
           (fun x d => single_well_formed UpsertProjects t0 x d)).
  apply well_formed_with_partnership.
Qed.

Lemma well_formed_with_found_email : well_formed with_found_email.
Proof.
  apply (bulk_call_invariant SyncCreatorOutreach t1 well_formed
           (fun x d => single_well_formed SyncCreatorOutreach t1 x d)).
  apply well_formed_with_projects.
Qed.

(** X2 at two times: the rows written at [t0] and those written at [t1]
    differ in their time stamps, and in nothing else. *)
Example chunks_at_two_times :
  let xs := [creator "1" "Ann" "ann" "h1"] in
  let ys := [creator "3" "Cy" "cy" "h3"] in
  let whole := (upsert_creators_bulk t0 (Some (JArray (xs ++ ys))) Reference.empty).2 in
  let chunks :=
    (upsert_creators_bulk t1 (Some (JArray ys))
       (upsert_creators_bulk t0 (Some (JArray xs)) Reference.empty).2).2 in
  Creators.created_at <$> creators whole !! 3 = Some (Some t0) ∧
  Creators.created_at <$> creators chunks !! 3 = Some (Some t1) ∧
  unstamped whole = unstamped chunks.
Proof. cbn zeta. split_and!; reflexivity. Qed.

(** X5 on a payload for creator 42 that carries no [data_hash]: the
    stored row has one, so the payload is skipped. *)
Lemma hash_guard_decides_witness :
  hash_guarded UpsertCreators ∧
  parsed_id without_hash = Some 42 ∧
  stored_hash UpsertCreators two_creators 42 = Some (Some "h42") ∧
  without_hash ->> "data_hash" = None ∧
  fate_of "creator_id" (fun c => c ->> "id") (creators_body t1) without_hash two_creators
  = Unchanged.
Proof.
  assert (hash_guarded UpsertCreators) as Hb by (by left).
  assert (parsed_id without_hash = Some 42) as Hid by reflexivity.
  split; [exact Hb|]. split; [exact Hid|]. split; [reflexivity|]. split; [reflexivity|].
  apply (hash_guard_decides UpsertCreators t1 without_hash two_creators 42 Hb Hid).
  exists "h42". split; [reflexivity|]. by right.
Defined.

(** X6 on a creator payload without an id. *)
Lemma entity_without_id_witness :
  row_key UpsertCreators without_id = None ∧
  exists e : sqlerr,
    fate_of "creator_id" (fun c => c ->> "id") (creators_body t0) without_id Reference.empty
    = Failed e.
Proof.
  assert (row_key UpsertCreators without_id = None) as Hid by reflexivity.
  split; [exact Hid|].
  destruct (entity_without_id_is_rejected UpsertCreators t0 without_id Reference.empty Hid)
    as (e & Hfate & _).
  by exists e.
Defined.

(** X7 on the two calls that build the database of the examples. *)
Lemma keeps_constraints_witness :
  well_formed Reference.empty ∧ well_formed two_creators.
Proof.
  split; [apply well_formed_empty|].
  apply (bulk_call_keeps_constraints UpsertCreators t0
           (Some (JArray [creator "42" "Ann" "ann" "h42"; creator "43" "Bob" "bob" "h43"]))
           Reference.empty).
  apply well_formed_empty.
Defined.

(** X8 on the partnership row and a payload with tags and a first
    contact of its own: the stored row keeps its empty tags and has still
    no first contact. *)
Lemma operator_columns_witness :
  creator_outreach with_partnership !! 42 = Some partnership_row ∧
  exists row' : Outreach.row,
    creator_outreach
      (sync_creator_outreach_bulk t1 (Some (JArray [with_history])) with_partnership).2 !! 42
    = Some row' ∧
    Outreach.tags row' = Some [] ∧ Outreach.first_contacted_at row' = None.
Proof.
  assert (creator_outreach with_partnership !! 42 = Some partnership_row) as Hstored
    by reflexivity.
  split; [exact Hstored|].
  destruct (sync_keeps_operator_columns t1 (Some (JArray [with_history]))
              with_partnership 42 partnership_row Hstored) as (row' & Hrow' & Hcols).
  exists row'. split; [exact Hrow'|].
  unfold operator_columns in Hcols. simpl in Hcols.
  injection Hcols as Hfirst _ _ _ Htags _. by split.
Defined.

(** X9 on an outreach payload for creator 7, who is not stored. *)
Lemma unknown_creator_witness :
  well_formed two_creators ∧
  referenced_creator (JObject [("creator_id", JNumber "7")]) = Some 7 ∧
  creators two_creators !! 7 = None ∧
  db (single "creator_id" (fun o => o ->> "creator_id") (outreach_body t1)
        (JObject [("creator_id", JNumber "7")]) two_creators) = two_creators.
Proof.
  assert (referenced_creator (JObject [("creator_id", JNumber "7")]) = Some 7) as Href
    by reflexivity.
  assert (creators two_creators !! 7 = None) as Hnone by reflexivity.
  split; [apply well_formed_two_creators|]. split; [exact Href|]. split; [exact Hnone|].
  destruct (unknown_creator_is_never_written SyncCreatorOutreach t1
              (JObject [("creator_id", JNumber "7")]) two_creators 7
              well_formed_two_creators ltac:(discriminate) Href Hnone) as (Hdb & _).
  exact Hdb.
Defined.

(** X10 on the partnership row and the payload that carries an email
    only: the email is taken, the contact form URL is kept. *)
Lemma merges_discovered_text_witness :
  creator_outreach with_partnership !! 42 = Some partnership_row ∧
  referenced_creator email_only = Some 42 ∧
  exists row' : Outreach.row,
    creator_outreach
      (sync_creator_outreach_bulk t1 (Some (JArray [email_only])) with_partnership).2 !! 42
    = Some row' ∧
    Outreach.email row' = Some "a@b.com" ∧
    Outreach.contact_form_url row' = Some "https://x.com/contact".
Proof.
  assert (creator_outreach with_partnership !! 42 = Some partnership_row) as Hstored
    by reflexivity.
  assert (referenced_creator email_only = Some 42) as Href by reflexivity.
  split; [exact Hstored|]. split; [exact Href|].
  assert ((sync_creator_outreach_bulk t1 (Some (JArray [email_only])) with_partnership).1
          = Ok {| inserted_count := 0; updated_count := 1; total_count := 1; errors := [] |})
    as Hresult by (vm_compute; reflexivity).
  destruct (sync_merges_discovered_text t1 email_only with_partnership 42 partnership_row
              Hstored Href Hresult) as (row' & Hrow' & Htext & _).
  exists row'. split; [exact Hrow'|].
  unfold discovered_text, incoming_text, coalesce5 in Htext. simpl in Htext.
  injection Htext as Hemail _ Hform _ _. by split.
Defined.


(** X13 on the database with two projects of creator 42. *)
Lemma creators_complete_witness :
  well_formed with_projects ∧
  total (OutreachViews.project_count <$> OutreachViews.vw_creators_complete with_projects)
  = 2.
Proof.
  split; [apply well_formed_with_projects|].
  destruct (creators_complete_counts_projects with_projects well_formed_with_projects)
    as (_ & Htotal & _).
  rewrite Htotal. reflexivity.
Defined.

(** X14 on the same database. *)
Lemma projects_with_creators_witness :
  well_formed with_projects ∧
  length (ProjectViews.vw_projects_with_creators with_projects) = 2%nat.
Proof.
  split; [apply well_formed_with_projects|].
  destruct (projects_with_creators_is_complete with_projects well_formed_with_projects)
    as (Hlength & _).
  rewrite Hlength. reflexivity.
Defined.

(** X15 after the contact check of creator 43 found an email: creator
    43 is ready to contact, creator 42 is a partner already. *)
Lemma ready_to_contact_witness :
  well_formed with_found_email ∧
  Z.of_nat (length (OutreachViews.vw_creators_ready_to_contact with_found_email)) = 1.
Proof.
  split; [apply well_formed_with_found_email|].
  destruct (ready_to_contact_lists_each_once with_found_email well_formed_with_found_email)
    as (Hlength & _).
  rewrite Hlength. reflexivity.
Defined.

(** X16 on the same database: one creator with contact, one without. *)
Lemma home_stats_witness :
  well_formed with_projects ∧
  HomeStats.creators_with_contact (HomeStats.get_home_stats with_projects)
  + HomeStats.creators_not_contacted (HomeStats.get_home_stats with_projects) = 2.
Proof.
  split; [apply well_formed_with_projects|].
  destruct (home_stats_add_up with_projects well_formed_with_projects)
    as (_ & Hcreators & Hsplit & _).
  rewrite Hsplit, Hcreators. reflexivity.
Defined.

(** X18 on a payload for creator 42 whose [websites] is JSON null: the
    stored [websites] is JSON null afterwards. *)
Lemma replaces_json_columns_witness :
  hash_guarded UpsertCreators ∧
  incoming_json UpsertCreators null_websites = [None; None; Some JNull] ∧
  exists k : Z,
    parsed_id null_websites = Some k ∧
    json_columns UpsertCreators
      (bulk_call UpsertCreators t1 (Some (JArray [null_websites])) two_creators).2 k
    = Some [None; None; Some JNull].
Proof.
  assert (hash_guarded UpsertCreators) as Hb by (by left).
  split; [exact Hb|]. split; [reflexivity|].
  assert ((bulk_call UpsertCreators t1 (Some (JArray [null_websites])) two_creators).1
          = Ok {| inserted_count := 0; updated_count := 1; total_count := 1; errors := [] |})
    as Hresult by (vm_compute; reflexivity).
  exact (upsert_replaces_json_columns UpsertCreators t1 null_websites two_creators _
           Hb Hresult eq_refl).
Defined.

(** X19 on the empty blocklist and a domain in capitals. *)
Lemma lower_case_witness :
  lower_case_keys (∅ : gmap string Blocklist.row) ∧
  lower_case_keys
    (Blocklist.firecrawl_block_domain t0 (Some "Example.COM") Blocklist.default_reason
       Blocklist.default_source Blocklist.default_notes ∅).
Proof.
  assert (lower_case_keys (∅ : gmap string Blocklist.row)) as Hempty
    by (by intros k r ?%lookup_empty_Some).
  split; [exact Hempty|].
  by apply block_domain_keeps_lower_case.
Defined.

End MoreWorkedExamples.
